(** * Operand locations of the compiler backend

    A shallow embedding of [runtime/vm/compiler/backend/locations.h]:
    the packed [TemplateLocation] word, [TemplatePairLocation], [SmallSet],
    [RegisterSet], [LocationSummary] and [FrameRebase], followed by the
    properties the specification states about them and by further
    properties read off the code.

    Conventions of the embedding.
    - [uword] and [intptr_t] values are integers of [Z]; conversions to
      [uword] are written out as reduction modulo [2 ^ kBitsPerWord].
    - Enumerations ([Kind], [Register], [FpuRegister]) are their integer
      codes, as the packed word stores them; [kind()] may indeed return an
      integer that is the code of no [Kind].  [Register] and [FpuRegister]
      have the size of an [int]: a cast of a wider integer to them keeps
      the low 32 bits.
    - [ASSERT] is the checked (debug) one: a failed check ends the
      computation with [Fatal AssertionFailed].  Every fallible member
      function therefore returns a [Checked] result.
    - Objects that live in the zone ([TemplatePairLocation]) are kept in an
      explicit store that is threaded through the functions that read or
      allocate them. *)

From Stdlib Require Import ZArith Lia Bool.
From stdpp Require Import base list.
From coqutil Require Import Z.bitblast.

Local Open Scope Z_scope.

(** ** Outcomes of checked code *)

Inductive Failure : Type :=
  | AssertionFailed      (* a failed ASSERT *)
  | Unreachable          (* UNREACHABLE() was reached *)
  | UndefinedBehavior    (* the C++ operation has no defined result *)
  | OutOfMemory          (* the zone cannot serve an allocation *)
  | OutOfFuel.           (* the recursion bound of the model was exhausted *)

Inductive Checked (A : Type) : Type :=
  | Ok (a : A)
  | Fatal (f : Failure).

Arguments Ok {A} a.
Arguments Fatal {A} f.

#[global] Instance Checked_ret : MRet Checked := fun _ a => Ok a.
#[global] Instance Checked_bind : MBind Checked := fun _ _ k m =>
  match m with
  | Ok a => k a
  | Fatal f => Fatal f
  end.

Definition ASSERT (cond : bool) : Checked unit :=
  if cond then Ok tt else Fatal AssertionFailed.

Definition succeeds {A} (m : Checked A) : bool :=
  match m with Ok _ => true | Fatal _ => false end.

(** ** The target

    [ARCH_IS_64_BIT], [kNumberOfCpuRegisters] and [kNumberOfFpuRegisters]
    come from [vm/globals.h] and [vm/constants.h]; they are parameters of
    the development. *)

Class Target : Type := {
  ARCH_IS_64_BIT : bool;
  kNumberOfCpuRegisters : Z;
  kNumberOfFpuRegisters : Z;
}.

(** Two sample targets, used to run the model on concrete inputs. *)
Definition target64 : Target :=
  {| ARCH_IS_64_BIT := true;
     kNumberOfCpuRegisters := 16;
     kNumberOfFpuRegisters := 16 |}.
Definition target32 : Target :=
  {| ARCH_IS_64_BIT := false;
     kNumberOfCpuRegisters := 8;
     kNumberOfFpuRegisters := 8 |}.

Section Words.
Context {target : Target}.

Definition kBitsPerByte : Z := 8.
Definition kWordSize : Z := if ARCH_IS_64_BIT then 8 else 4.
Definition kBitsPerWord : Z := kWordSize * kBitsPerByte.

(** [static_cast<uword>(x)] *)
Definition to_uword (x : Z) : Z := x mod 2 ^ kBitsPerWord.

(** [~x] on a [uword] *)
Definition uword_not (x : Z) : Z := to_uword (Z.lnot x).

(** the values an [intptr_t] can hold *)
Definition is_intptr (x : Z) : bool :=
  (- 2 ^ (kBitsPerWord - 1) <=? x) && (x <? 2 ^ (kBitsPerWord - 1)).

(** [a + b] on [intptr_t]: signed overflow has no defined result. *)
Definition intptr_add (a b : Z) : Checked Z :=
  if is_intptr (a + b) then Ok (a + b) else Fatal UndefinedBehavior.

(** The value of [x] as an [int], which has 32 bits on every target. *)
Definition to_int (x : Z) : Z := (x + 2 ^ 31) mod 2 ^ 32 - 2 ^ 31.

(** [1 << n] where [1] is an [int]: the result is an [int], so [1 << 31]
    is [INT_MIN]; a negative count or one of 32 or more has no defined
    result.  Converting the [int] to [intptr_t] keeps its value. *)
Definition int_one_shl (n : Z) : Checked Z :=
  if (0 <=? n) && (n <? 32)
  then Ok (to_int (Z.shiftl 1 n))
  else Fatal UndefinedBehavior.
End Words.

(** ** BitField *)

Module BitField.
Section BitField.
Context {target : Target}.

(** Modelled from the spec: the [BitField<S, T, position, size>] template
    of [vm/bitfield.h], which is not among the sources.  The spec has the
    kind code in the low bits of the word and the payload in the remaining
    high bits, and has construction fail for a value that exceeds the
    width of its field.  A field is [size] bits at bit [position] of a
    [uword]: [encode] checks that the value fits and shifts it into place,
    [decode] shifts it back and masks, [update] replaces the field inside
    an existing word. *)
Record t : Type := Field { position : Z; size : Z }.

Definition kUwordOne : Z := 1.

Definition mask (f : t) : Z :=
  to_uword (to_uword (Z.shiftl kUwordOne (size f)) - 1).

Definition mask_in_place (f : t) : Z :=
  to_uword (Z.shiftl (mask f) (position f)).

Definition is_valid (f : t) (value : Z) : bool :=
  Z.land (to_uword value) (uword_not (mask f)) =? 0.

Definition encode (f : t) (value : Z) : Checked Z :=
  ASSERT (is_valid f value);;
  Ok (to_uword (Z.shiftl (to_uword value) (position f))).

Definition decode (f : t) (value : Z) : Z :=
  Z.land (Z.shiftr value (position f)) (mask f).

Definition update (f : t) (value original : Z) : Checked Z :=
  ASSERT (is_valid f value);;
  Ok (Z.lor (to_uword (Z.shiftl (to_uword value) (position f)))
            (Z.land (uword_not (mask_in_place f)) original)).
End BitField.
End BitField.

(** ** Representation *)

Inductive Representation : Type :=
  | kNoRepresentation
  | kTagged
  | kUntagged
  | kUnboxedDouble
  | kUnboxedFloat
  | kUnboxedInt32
  | kUnboxedUint32
  | kUnboxedInt64
  | kUnboxedFloat32x4
  | kUnboxedInt32x4
  | kUnboxedFloat64x2
  | kPairOfTagged.

Definition Representation_eqb (a b : Representation) : bool :=
  match a, b with
  | kNoRepresentation, kNoRepresentation | kTagged, kTagged
  | kUntagged, kUntagged | kUnboxedDouble, kUnboxedDouble
  | kUnboxedFloat, kUnboxedFloat | kUnboxedInt32, kUnboxedInt32
  | kUnboxedUint32, kUnboxedUint32 | kUnboxedInt64, kUnboxedInt64
  | kUnboxedFloat32x4, kUnboxedFloat32x4 | kUnboxedInt32x4, kUnboxedInt32x4
  | kUnboxedFloat64x2, kUnboxedFloat64x2 | kPairOfTagged, kPairOfTagged => true
  | _, _ => false
  end.

(** ** TemplateLocation *)

Record TemplateLocation : Type := read { write : Z }.
(** [read] is the private constructor [TemplateLocation(uword value)] (and
    the static [read]); [write] returns [value_]. *)

Module Location.

Definition value_ (loc : TemplateLocation) : Z := write loc.

Definition kKindBitsPos : Z := 0.
Definition kKindBitsSize : Z := 5.
Definition kPayloadBitsPos : Z := kKindBitsPos + kKindBitsSize.

Definition kInvalidLocation : Z := 0.
Definition kLocationTagMask : Z := 3.

(** enum Kind *)
Definition kInvalid : Z := 0.
Definition kConstantTag : Z := 1.
Definition kPairLocationTag : Z := 2.
Definition kUnallocated : Z := 3.
Definition kStackSlot : Z := 4.
Definition kDoubleStackSlot : Z := 7.
Definition kQuadStackSlot : Z := 11.
Definition kRegister : Z := 8.
Definition kFpuRegister : Z := 12.

(** The kinds that are stored in the kind field (all but the two tags). *)
Definition non_tagged_kinds : list Z :=
  [kInvalid; kUnallocated; kStackSlot; kDoubleStackSlot; kQuadStackSlot;
   kRegister; kFpuRegister].

(** The COMPILE_ASSERTs of the default constructor. *)
Definition COMPILE_ASSERT_tags : bool :=
  forallb (fun k =>
             negb (Z.land k kLocationTagMask =? kConstantTag) &&
             negb (Z.land k kLocationTagMask =? kPairLocationTag))
          non_tagged_kinds
  && (Z.land kConstantTag kLocationTagMask =? kConstantTag)
  && (Z.land kPairLocationTag kLocationTagMask =? kPairLocationTag).

(** enum Policy *)
Inductive Policy : Type :=
  | kAny
  | kPrefersRegister
  | kRequiresRegister
  | kRequiresFpuRegister
  | kWritableRegister
  | kSameAsFirstInput.

Definition Policy_code (p : Policy) : Z :=
  match p with
  | kAny => 0
  | kPrefersRegister => 1
  | kRequiresRegister => 2
  | kRequiresFpuRegister => 3
  | kWritableRegister => 4
  | kSameAsFirstInput => 5
  end.

Section Location.
Context {target : Target}.

Definition kPayloadBitsSize : Z := kBitsPerWord - kPayloadBitsPos.

Definition KindField : BitField.t := BitField.Field kKindBitsPos kKindBitsSize.
Definition PayloadField : BitField.t :=
  BitField.Field kPayloadBitsPos kPayloadBitsSize.
Definition PolicyField : BitField.t := BitField.Field 0 3.

Definition kBitsForBaseReg : Z := if ARCH_IS_64_BIT then 6 else 5.
Definition kBitsForStackIndex : Z := kPayloadBitsSize - kBitsForBaseReg.
Definition StackSlotBaseField : BitField.t := BitField.Field 0 kBitsForBaseReg.
Definition StackIndexField : BitField.t :=
  BitField.Field kBitsForBaseReg kBitsForStackIndex.

(** [COMPILE_ASSERT(1 << kBitsForBaseReg >= kNumberOfCpuRegisters)] *)
Definition COMPILE_ASSERT_base_reg : bool :=
  kNumberOfCpuRegisters <=? Z.shiftl 1 kBitsForBaseReg.

Definition kStackIndexBias : Z := Z.shiftl 1 (kBitsForStackIndex - 1).

Definition IsInvalid (loc : TemplateLocation) : bool :=
  value_ loc =? kInvalidLocation.

(** [TemplateLocation()] *)
Definition default : Checked TemplateLocation :=
  let loc := read kInvalidLocation in
  ASSERT (IsInvalid loc);; Ok loc.

(** [TemplateLocation(Kind kind, uword payload)] *)
Definition of_kind (kind payload : Z) : Checked TemplateLocation :=
  k ← BitField.encode KindField kind;
  p ← BitField.encode PayloadField (to_uword payload);
  Ok (read (Z.lor k p)).

Definition kind (loc : TemplateLocation) : Z :=
  BitField.decode KindField (value_ loc).

Definition payload (loc : TemplateLocation) : Z :=
  BitField.decode PayloadField (value_ loc).

(** Constants.  A [ConstantInstr*] is the address it holds. *)
Definition IsConstant (loc : TemplateLocation) : bool :=
  Z.land (value_ loc) kLocationTagMask =? kConstantTag.

Definition constant_instruction (loc : TemplateLocation) : Checked Z :=
  ASSERT (IsConstant loc);;
  Ok (Z.land (value_ loc) (uword_not kLocationTagMask)).

Definition Constant (obj : Z) : Checked TemplateLocation :=
  let loc := read (Z.lor (to_uword obj) kConstantTag) in
  obj' ← constant_instruction loc;
  ASSERT (obj =? obj');;
  Ok loc.

Definition IsPairLocation (loc : TemplateLocation) : bool :=
  Z.land (value_ loc) kLocationTagMask =? kPairLocationTag.

(** Unallocated locations. *)
Definition IsUnallocated (loc : TemplateLocation) : bool :=
  kind loc =? kUnallocated.

Definition UnallocatedLocation (policy : Policy) : Checked TemplateLocation :=
  p ← BitField.encode PolicyField (Policy_code policy);
  of_kind kUnallocated p.

Definition Any : Checked TemplateLocation := UnallocatedLocation kAny.
Definition PrefersRegister : Checked TemplateLocation :=
  UnallocatedLocation kPrefersRegister.
Definition RequiresRegister : Checked TemplateLocation :=
  UnallocatedLocation kRequiresRegister.
Definition RequiresFpuRegister : Checked TemplateLocation :=
  UnallocatedLocation kRequiresFpuRegister.
Definition WritableRegister : Checked TemplateLocation :=
  UnallocatedLocation kWritableRegister.
Definition SameAsFirstInput : Checked TemplateLocation :=
  UnallocatedLocation kSameAsFirstInput.

Definition NoLocation : Checked TemplateLocation := default.

(** The policy is returned as the integer code the field holds. *)
Definition policy (loc : TemplateLocation) : Checked Z :=
  ASSERT (IsUnallocated loc);;
  Ok (BitField.decode PolicyField (payload loc)).

(** Register locations. *)
Definition RegisterLocation (reg : Z) : Checked TemplateLocation :=
  of_kind kRegister reg.

Definition IsRegister (loc : TemplateLocation) : bool :=
  kind loc =? kRegister.

(** [Register] and [FpuRegister] are enumerations of the size of an [int]:
    [static_cast<Register>] of a wider integer keeps its low 32 bits. *)
Definition reg (loc : TemplateLocation) : Checked Z :=
  ASSERT (IsRegister loc);; Ok (to_int (payload loc)).

Definition FpuRegisterLocation (reg : Z) : Checked TemplateLocation :=
  of_kind kFpuRegister reg.

Definition IsFpuRegister (loc : TemplateLocation) : bool :=
  kind loc =? kFpuRegister.

Definition fpu_reg (loc : TemplateLocation) : Checked Z :=
  ASSERT (IsFpuRegister loc);; Ok (to_int (payload loc)).

Definition IsMachineRegisterKind (kind : Z) : bool :=
  (kind =? kRegister) || (kind =? kFpuRegister).

(** [reg] is an [intptr_t], which the two casts narrow. *)
Definition MachineRegisterLocation (kind reg : Z) : Checked TemplateLocation :=
  if kind =? kRegister then RegisterLocation (to_int reg)
  else (ASSERT (kind =? kFpuRegister);; FpuRegisterLocation (to_int reg)).

Definition IsMachineRegister (loc : TemplateLocation) : bool :=
  IsMachineRegisterKind (kind loc).

Definition register_code (loc : TemplateLocation) : Checked Z :=
  ASSERT (IsMachineRegister loc);; Ok (payload loc).

(** Stack slots. *)
Definition EncodeStackIndex (stack_index : Z) : Checked Z :=
  ASSERT ((- kStackIndexBias <=? stack_index)
          && (stack_index <? kStackIndexBias));;
  Ok (to_uword (kStackIndexBias + stack_index)).

Definition IsStackSlot (loc : TemplateLocation) : bool :=
  kind loc =? kStackSlot.
Definition IsDoubleStackSlot (loc : TemplateLocation) : bool :=
  kind loc =? kDoubleStackSlot.
Definition IsQuadStackSlot (loc : TemplateLocation) : bool :=
  kind loc =? kQuadStackSlot.

Definition HasStackIndex (loc : TemplateLocation) : bool :=
  IsStackSlot loc || IsDoubleStackSlot loc || IsQuadStackSlot loc.

Definition base_reg (loc : TemplateLocation) : Checked Z :=
  ASSERT (HasStackIndex loc);;
  Ok (BitField.decode StackSlotBaseField (payload loc)).

Definition stack_index (loc : TemplateLocation) : Checked Z :=
  ASSERT (HasStackIndex loc);;
  Ok (BitField.decode StackIndexField (payload loc) - kStackIndexBias).

(** The common body of [StackSlot], [DoubleStackSlot] and
    [QuadStackSlot], which differ in the kind only. *)
Definition stack_slot_of_kind (slot_kind stack_index_arg base : Z)
  : Checked TemplateLocation :=
  b ← BitField.encode StackSlotBaseField base;
  e ← EncodeStackIndex stack_index_arg;
  i ← BitField.encode StackIndexField e;
  loc ← of_kind slot_kind (Z.lor b i);
  (* Ensure that sign is preserved. *)
  decoded ← stack_index loc;
  ASSERT (decoded =? stack_index_arg);;
  Ok loc.

Definition StackSlot (stack_index base : Z) : Checked TemplateLocation :=
  stack_slot_of_kind kStackSlot stack_index base.
Definition DoubleStackSlot (stack_index base : Z) : Checked TemplateLocation :=
  stack_slot_of_kind kDoubleStackSlot stack_index base.
Definition QuadStackSlot (stack_index base : Z) : Checked TemplateLocation :=
  stack_slot_of_kind kQuadStackSlot stack_index base.

(** Compare two locations. *)
Definition Equals (loc other : TemplateLocation) : bool :=
  value_ loc =? value_ other.

Definition IsRegisterBeneficial (loc : TemplateLocation) : Checked bool :=
  any ← Any; Ok (negb (Equals loc any)).

Definition set_stack_index (loc : TemplateLocation) (index : Z)
  : Checked TemplateLocation :=
  ASSERT (HasStackIndex loc);;
  e ← EncodeStackIndex index;
  p ← BitField.update StackIndexField e (payload loc);
  v ← BitField.update PayloadField p (value_ loc);
  Ok (read v).

Definition set_base_reg (loc : TemplateLocation) (reg : Z)
  : Checked TemplateLocation :=
  ASSERT (HasStackIndex loc);;
  p ← BitField.update StackSlotBaseField reg (payload loc);
  v ← BitField.update PayloadField p (value_ loc);
  Ok (read v).
End Location.
End Location.

(** ** TemplatePairLocation and the zone that holds it *)

Abbreviation PairLocation := (list TemplateLocation).

Module TemplatePairLocation.
Section TemplatePairLocation.
Context {target : Target}.

Definition kPairLength : Z := 2.

(** The constructor: [locations_] holds [kPairLength] default-constructed
    locations, and the loop asserts that each one is invalid. *)
Definition new : Checked PairLocation :=
  d ← Location.default;
  let locations_ := replicate (Z.to_nat kPairLength) d in
  mapM (fun loc => ASSERT (Location.IsInvalid loc)) locations_;;
  Ok locations_.

Definition length (p : PairLocation) : Z := kPairLength.

(** An access outside the array has no defined result; the two asserts
    exclude it for an array of [kPairLength] elements. *)
Definition At (p : PairLocation) (i : Z) : Checked TemplateLocation :=
  ASSERT (0 <=? i);;
  ASSERT (i <? kPairLength);;
  match p !! Z.to_nat i with
  | Some loc => Ok loc
  | None => Fatal UndefinedBehavior
  end.

Definition SetAt (p : PairLocation) (i : Z) (loc : TemplateLocation)
  : Checked PairLocation :=
  ASSERT (0 <=? i);;
  ASSERT (i <? kPairLength);;
  if (Z.to_nat i <? List.length p)%nat
  then Ok (<[Z.to_nat i := loc]> p)
  else Fatal UndefinedBehavior.
End TemplatePairLocation.
End TemplatePairLocation.

(** Modelled from the spec: the zone of [vm/zone.h], which is not among the
    sources.  Pair locations are owned by the allocation arena of the
    compilation unit and are never individually freed: objects are allocated
    one after the other, and only pair locations are kept in the zone here.
    A [PairLocation*] is the address of the object: the [n]-th allocated
    pair lies at [(n + 1) * sizeof(PairLocation)], address 0 being the null
    pointer. *)
Abbreviation Zone := (list PairLocation).

Module Zone.
Section Zone.
Context {target : Target}.

Definition sizeof_PairLocation : Z :=
  TemplatePairLocation.kPairLength * kWordSize.

Definition address_of (n : nat) : Z := (Z.of_nat n + 1) * sizeof_PairLocation.

Definition index_of (address : Z) : option nat :=
  if (0 <? address) && (address mod sizeof_PairLocation =? 0)
  then Some (Z.to_nat (address / sizeof_PairLocation - 1))
  else None.

(** [*address]; a pointer to no allocated pair has no defined result. *)
Definition load (zone : Zone) (address : Z) : Checked PairLocation :=
  match index_of address ≫= (zone !!.) with
  | Some p => Ok p
  | None => Fatal UndefinedBehavior
  end.

Definition store (zone : Zone) (address : Z) (p : PairLocation)
  : Checked Zone :=
  match index_of address with
  | Some n => if (n <? List.length zone)%nat then Ok (<[n := p]> zone)
              else Fatal UndefinedBehavior
  | None => Fatal UndefinedBehavior
  end.

(** [new PairLocation()]: the next free address, which has to lie within
    the address space together with the object. *)
Definition new_PairLocation (zone : Zone) : Checked (Z * Zone) :=
  p ← TemplatePairLocation.new;
  let address := address_of (List.length zone) in
  if address + sizeof_PairLocation <=? 2 ^ kBitsPerWord
  then Ok (address, zone ++ [p])
  else Fatal OutOfMemory.
End Zone.
End Zone.

(** The members of [TemplateLocation] that go through the pair a reference
    points to: [Pair], [AsPairLocation] and [Component]. *)
Module PairRef.
Section PairRef.
Context {target : Target}.

(** Modelled from the spec: [TemplateLocation::AsPairLocation], declared
    in the header and defined in [locations.cc], which is not among the
    sources.  A pair reference is a tagged reference to a PairLocation;
    using it on a location that is not a pair reference is an error.  The
    pointer is the word with the tag bits cleared, as for constants. *)
Definition AsPairLocation (loc : TemplateLocation) : Checked Z :=
  ASSERT (Location.IsPairLocation loc);;
  Ok (Z.land (Location.value_ loc) (uword_not Location.kLocationTagMask)).

(** Modelled from the spec: [TemplateLocation::Pair], declared in the
    header and defined in [locations.cc], which is not among the sources.
    [Pair(a, b)] allocates a new PairLocation, which is default-initialised
    to Invalid in both slots and mutated in place by index, and returns a
    PairReference to it, that is, the address with the pair tag. *)
Definition Pair (first second : TemplateLocation) (zone : Zone)
  : Checked (TemplateLocation * Zone) :=
  '(pair_location, zone) ← Zone.new_PairLocation zone;
  ASSERT (Z.land pair_location Location.kLocationTagMask =? 0);;
  p ← Zone.load zone pair_location;
  p ← TemplatePairLocation.SetAt p 0 first;
  zone ← Zone.store zone pair_location p;
  p ← Zone.load zone pair_location;
  p ← TemplatePairLocation.SetAt p 1 second;
  zone ← Zone.store zone pair_location p;
  Ok (read (Z.lor pair_location Location.kPairLocationTag), zone).

(** [AsPairLocation()->At(i)] *)
Definition Component (loc : TemplateLocation) (i : Z) (zone : Zone)
  : Checked TemplateLocation :=
  pair_location ← AsPairLocation loc;
  p ← Zone.load zone pair_location;
  TemplatePairLocation.At p i.

(** [AsPairLocation()->length()] *)
Definition length (loc : TemplateLocation) (zone : Zone) : Checked Z :=
  pair_location ← AsPairLocation loc;
  p ← Zone.load zone pair_location;
  Ok (TemplatePairLocation.length p).
End PairRef.
End PairRef.

(** ** SmallSet

    A [SmallSet<T>] is its [data_] word, an [intptr_t]. *)

Module SmallSet.
Section SmallSet.
Context {target : Target}.

Definition empty : Z := 0.

Definition ToMask (value : Z) : Checked Z :=
  ASSERT (value <? kWordSize * kBitsPerByte);;
  int_one_shl value.

Definition Contains (data_ value : Z) : Checked bool :=
  m ← ToMask value; Ok (negb (Z.land data_ m =? 0)).

Definition Add (data_ value : Z) : Checked Z :=
  m ← ToMask value; Ok (Z.lor data_ m).

Definition Remove (data_ value : Z) : Checked Z :=
  m ← ToMask value; Ok (Z.land data_ (Z.lnot m)).

Definition IsEmpty (data_ : Z) : bool := data_ =? 0.

Definition data (data_ : Z) : Z := data_.
End SmallSet.
End SmallSet.

(** ** RegisterSet *)

Record RegisterSet : Type := {
  cpu_registers_ : Z;
  untagged_cpu_registers_ : Z;
  fpu_registers_ : Z;
}.

Module RegisterSet.
Section RegisterSet.
Context {target : Target}.

Definition new : Checked RegisterSet :=
  ASSERT (kNumberOfCpuRegisters <=? kWordSize * kBitsPerByte);;
  ASSERT (kNumberOfFpuRegisters <=? kWordSize * kBitsPerByte);;
  Ok {| cpu_registers_ := SmallSet.empty;
        untagged_cpu_registers_ := SmallSet.empty;
        fpu_registers_ := SmallSet.empty |}.

Definition MarkUntagged (s : RegisterSet) (loc : TemplateLocation)
  : Checked RegisterSet :=
  ASSERT (Location.IsRegister loc);;
  r ← Location.reg loc;
  u ← SmallSet.Add (untagged_cpu_registers_ s) r;
  Ok {| cpu_registers_ := cpu_registers_ s;
        untagged_cpu_registers_ := u;
        fpu_registers_ := fpu_registers_ s |}.

Definition Add (s : RegisterSet) (loc : TemplateLocation) (rep : Representation)
  : Checked RegisterSet :=
  if Location.IsRegister loc then
    r ← Location.reg loc;
    c ← SmallSet.Add (cpu_registers_ s) r;
    let s := {| cpu_registers_ := c;
                untagged_cpu_registers_ := untagged_cpu_registers_ s;
                fpu_registers_ := fpu_registers_ s |} in
    if negb (Representation_eqb rep kTagged) then
      (* CPU register contains an untagged value. *)
      MarkUntagged s loc
    else Ok s
  else if Location.IsFpuRegister loc then
    r ← Location.fpu_reg loc;
    f ← SmallSet.Add (fpu_registers_ s) r;
    Ok {| cpu_registers_ := cpu_registers_ s;
          untagged_cpu_registers_ := untagged_cpu_registers_ s;
          fpu_registers_ := f |}
  else Ok s.

Definition Remove (s : RegisterSet) (loc : TemplateLocation)
  : Checked RegisterSet :=
  if Location.IsRegister loc then
    r ← Location.reg loc;
    c ← SmallSet.Remove (cpu_registers_ s) r;
    Ok {| cpu_registers_ := c;
          untagged_cpu_registers_ := untagged_cpu_registers_ s;
          fpu_registers_ := fpu_registers_ s |}
  else if Location.IsFpuRegister loc then
    r ← Location.fpu_reg loc;
    f ← SmallSet.Remove (fpu_registers_ s) r;
    Ok {| cpu_registers_ := cpu_registers_ s;
          untagged_cpu_registers_ := untagged_cpu_registers_ s;
          fpu_registers_ := f |}
  else Ok s.

Definition ContainsRegister (s : RegisterSet) (reg : Z) : Checked bool :=
  SmallSet.Contains (cpu_registers_ s) reg.

Definition ContainsFpuRegister (s : RegisterSet) (fpu_reg : Z) : Checked bool :=
  SmallSet.Contains (fpu_registers_ s) fpu_reg.

Definition Contains (s : RegisterSet) (loc : TemplateLocation) : Checked bool :=
  if Location.IsRegister loc then
    r ← Location.reg loc; ContainsRegister s r
  else if Location.IsFpuRegister loc then
    r ← Location.fpu_reg loc; ContainsFpuRegister s r
  else Fatal Unreachable.

Definition HasUntaggedValues (s : RegisterSet) : bool :=
  negb (SmallSet.IsEmpty (untagged_cpu_registers_ s))
  || negb (SmallSet.IsEmpty (fpu_registers_ s)).

Definition IsTagged (s : RegisterSet) (reg : Z) : Checked bool :=
  c ← SmallSet.Contains (untagged_cpu_registers_ s) reg; Ok (negb c).

Definition cpu_registers (s : RegisterSet) : Z :=
  SmallSet.data (cpu_registers_ s).
Definition fpu_registers (s : RegisterSet) : Z :=
  SmallSet.data (fpu_registers_ s).

(** Modelled from the spec: [RegisterSet::RegisterCount], declared in the
    header and defined in [locations.cc], which is not among the sources.
    Counting operations return the population count of the bitmask: the
    number of bits set among the [kBitsPerWord] bits of the word. *)
Definition RegisterCount (registers : Z) : Z :=
  Z.of_nat (List.length (filter (fun i => Is_true (Z.testbit registers i))
                                (seqZ 0 kBitsPerWord))).

Definition CpuRegisterCount (s : RegisterSet) : Z :=
  RegisterCount (cpu_registers s).
Definition FpuRegisterCount (s : RegisterSet) : Z :=
  RegisterCount (fpu_registers s).
End RegisterSet.
End RegisterSet.

(** ** LocationSummary

    The fields the setters and predicates use; the stack bitmap and the
    debug-only [writable_inputs_] are left out. *)

Inductive ContainsCall : Type :=
  | kNoCall
  | kCall
  | kCallCalleeSafe
  | kCallOnSlowPath
  | kCallOnSharedSlowPath.

Record LocationSummary : Type := {
  num_inputs_ : Z;
  input_locations_ : list TemplateLocation;
  num_temps_ : Z;
  temp_locations_ : list TemplateLocation;
  output_location_ : TemplateLocation;
  contains_call_ : ContainsCall;
  live_registers_ : RegisterSet;
}.

Module LocationSummary.
Section LocationSummary.
Context {target : Target}.

(** [array[index]] and [array[index] = loc] on a zone-allocated array:
    outside the allocated elements there is no defined result. *)
Definition array_get (array : list TemplateLocation) (index : Z)
  : Checked TemplateLocation :=
  match array !! Z.to_nat index with
  | Some loc => Ok loc
  | None => Fatal UndefinedBehavior
  end.

Definition array_set (array : list TemplateLocation) (index : Z)
    (loc : TemplateLocation) : Checked (list TemplateLocation) :=
  if (Z.to_nat index <? List.length array)%nat
  then Ok (<[Z.to_nat index := loc]> array)
  else Fatal UndefinedBehavior.

Definition always_calls (s : LocationSummary) : bool :=
  match contains_call_ s with
  | kCall | kCallCalleeSafe => true
  | _ => false
  end.

Definition callee_safe_call (s : LocationSummary) : bool :=
  match contains_call_ s with kCallCalleeSafe => true | _ => false end.

Definition can_call (s : LocationSummary) : bool :=
  match contains_call_ s with kNoCall => false | _ => true end.

Definition HasCallOnSlowPath (s : LocationSummary) : bool :=
  can_call s && negb (always_calls s).

Definition call_on_shared_slow_path (s : LocationSummary) : bool :=
  match contains_call_ s with kCallOnSharedSlowPath => true | _ => false end.

Definition input_count (s : LocationSummary) : Z := num_inputs_ s.
Definition temp_count (s : LocationSummary) : Z := num_temps_ s.
Definition output_count (s : LocationSummary) : Z := 1.

Definition in_ (s : LocationSummary) (index : Z) : Checked TemplateLocation :=
  ASSERT (0 <=? index);;
  ASSERT (index <? num_inputs_ s);;
  array_get (input_locations_ s) index.

(** [!c.IsUnallocated() || c.policy() == Location::kAny] *)
Definition any_if_unallocated (c : TemplateLocation) : Checked bool :=
  if negb (Location.IsUnallocated c) then Ok true
  else p ← Location.policy c; Ok (p =? Location.Policy_code Location.kAny).

Definition set_in (s : LocationSummary) (index : Z) (loc : TemplateLocation)
    (zone : Zone) : Checked LocationSummary :=
  ASSERT (0 <=? index);;
  ASSERT (index <? num_inputs_ s);;
  (if always_calls s then
     if Location.IsUnallocated loc then
       p ← Location.policy loc;
       ASSERT (p =? Location.Policy_code Location.kAny)
     else if Location.IsPairLocation loc then
       c ← PairRef.Component loc 0 zone;
       b ← any_if_unallocated c;
       ASSERT b;;
       c ← PairRef.Component loc 0 zone;
       b ← any_if_unallocated c;
       ASSERT b
     else Ok tt
   else Ok tt);;
  inputs ← array_set (input_locations_ s) index loc;
  Ok {| num_inputs_ := num_inputs_ s;
        input_locations_ := inputs;
        num_temps_ := num_temps_ s;
        temp_locations_ := temp_locations_ s;
        output_location_ := output_location_ s;
        contains_call_ := contains_call_ s;
        live_registers_ := live_registers_ s |}.

Definition temp (s : LocationSummary) (index : Z) : Checked TemplateLocation :=
  ASSERT (0 <=? index);;
  ASSERT (index <? num_temps_ s);;
  array_get (temp_locations_ s) index.

Definition set_temp (s : LocationSummary) (index : Z) (loc : TemplateLocation)
  : Checked LocationSummary :=
  ASSERT (0 <=? index);;
  ASSERT (index <? num_temps_ s);;
  ASSERT (negb (always_calls s) || Location.IsMachineRegister loc);;
  temps ← array_set (temp_locations_ s) index loc;
  Ok {| num_inputs_ := num_inputs_ s;
        input_locations_ := input_locations_ s;
        num_temps_ := num_temps_ s;
        temp_locations_ := temps;
        output_location_ := output_location_ s;
        contains_call_ := contains_call_ s;
        live_registers_ := live_registers_ s |}.

Definition out (s : LocationSummary) (index : Z) : Checked TemplateLocation :=
  ASSERT (index =? 0);;
  Ok (output_location_ s).

Definition set_out (s : LocationSummary) (index : Z) (loc : TemplateLocation)
  : Checked LocationSummary :=
  ASSERT (index =? 0);;
  ASSERT (negb (always_calls s)
          || (Location.IsMachineRegister loc || Location.IsInvalid loc
              || Location.IsPairLocation loc));;
  Ok {| num_inputs_ := num_inputs_ s;
        input_locations_ := input_locations_ s;
        num_temps_ := num_temps_ s;
        temp_locations_ := temp_locations_ s;
        output_location_ := loc;
        contains_call_ := contains_call_ s;
        live_registers_ := live_registers_ s |}.
End LocationSummary.
End LocationSummary.

(** ** FrameRebase *)

Record FrameRebase : Type := {
  old_base_ : Z;
  new_base_ : Z;
  stack_delta_ : Z;
}.

Module FrameRebase.
Section FrameRebase.
Context {target : Target}.

(** [Rebase] recurses through the pair a pair reference points to; the
    recursion is bounded by [fuel], the depth the call stack may reach.
    The two arguments of [Location::Pair] are evaluated from left to
    right; C++ leaves their order open, and it matters only for the
    addresses of pairs nested in pairs. *)
Fixpoint Rebase (fuel : nat) (fr : FrameRebase) (loc : TemplateLocation)
    (zone : Zone) : Checked (TemplateLocation * Zone) :=
  match fuel with
  | O => Fatal OutOfFuel
  | S fuel =>
    if Location.IsPairLocation loc then
      c0 ← PairRef.Component loc 0 zone;
      '(r0, zone) ← Rebase fuel fr c0 zone;
      c1 ← PairRef.Component loc 1 zone;
      '(r1, zone) ← Rebase fuel fr c1 zone;
      PairRef.Pair r0 r1 zone
    else if negb (Location.HasStackIndex loc) then Ok (loc, zone)
    else
      b ← Location.base_reg loc;
      if negb (b =? old_base_ fr) then Ok (loc, zone)
      else
        loc ← Location.set_base_reg loc (new_base_ fr);
        i ← Location.stack_index loc;
        i ← intptr_add i (stack_delta_ fr);
        loc ← Location.set_stack_index loc i;
        Ok (loc, zone)
  end.
End FrameRebase.
End FrameRebase.

(** ** Vocabulary of the properties

    A call of one of the public constructors that need no zone, so that a
    property can range over all of them; [Pair], which allocates, is treated
    on its own. *)

Inductive Construction : Type :=
  | NoLocationCall
  | UnallocatedLocationCall (policy : Location.Policy)
  | RegisterLocationCall (reg : Z)
  | FpuRegisterLocationCall (reg : Z)
  | StackSlotCall (stack_index base : Z)
  | DoubleStackSlotCall (stack_index base : Z)
  | QuadStackSlotCall (stack_index base : Z)
  | ConstantCall (obj : Z).

Section Vocabulary.
Context {target : Target}.

(** A field that lies within the word. *)
Definition fits (f : BitField.t) : Prop :=
  0 <= BitField.position f /\ 0 <= BitField.size f
  /\ BitField.size f < kBitsPerWord
  /\ BitField.position f + BitField.size f <= kBitsPerWord.

(** Two adjacent fields: [a] in the low [n] bits, [b] above them. *)
Definition pack (n a b : Z) : Z := Z.lor a (Z.shiftl b n).

(** The word of a stack slot of kind [k], index [o] and base [r]. *)
Definition stack_payload (o r : Z) : Z :=
  pack Location.kBitsForBaseReg r (Location.kStackIndexBias + o).
Definition stack_word (k o r : Z) : Z := pack 5 k (stack_payload o r).

Definition stack_kind (k : Z) : Prop :=
  k = Location.kStackSlot \/ k = Location.kDoubleStackSlot
  \/ k = Location.kQuadStackSlot.

Definition construct (c : Construction) : Checked TemplateLocation :=
  match c with
  | NoLocationCall => Location.NoLocation
  | UnallocatedLocationCall policy => Location.UnallocatedLocation policy
  | RegisterLocationCall reg => Location.RegisterLocation reg
  | FpuRegisterLocationCall reg => Location.FpuRegisterLocation reg
  | StackSlotCall stack_index base =>
      Location.StackSlot stack_index base
  | DoubleStackSlotCall stack_index base =>
      Location.DoubleStackSlot stack_index base
  | QuadStackSlotCall stack_index base =>
      Location.QuadStackSlot stack_index base
  | ConstantCall obj => Location.Constant obj
  end.

(** The kind and the payload a constructor call packs into the word, and
    the word itself, for arguments that are in range. *)
Definition kind_of (c : Construction) : Z :=
  match c with
  | NoLocationCall => Location.kInvalid
  | UnallocatedLocationCall _ => Location.kUnallocated
  | RegisterLocationCall _ => Location.kRegister
  | FpuRegisterLocationCall _ => Location.kFpuRegister
  | StackSlotCall _ _ => Location.kStackSlot
  | DoubleStackSlotCall _ _ => Location.kDoubleStackSlot
  | QuadStackSlotCall _ _ => Location.kQuadStackSlot
  | ConstantCall _ => Location.kConstantTag
  end.

Definition payload_of (c : Construction) : Z :=
  match c with
  | NoLocationCall => 0
  | UnallocatedLocationCall policy => Location.Policy_code policy
  | RegisterLocationCall reg | FpuRegisterLocationCall reg => reg
  | StackSlotCall stack_index base
  | DoubleStackSlotCall stack_index base
  | QuadStackSlotCall stack_index base => stack_payload stack_index base
  | ConstantCall obj => obj
  end.

Definition word_of (c : Construction) : Z :=
  match c with
  | ConstantCall obj => Z.lor obj Location.kConstantTag
  | _ => pack 5 (kind_of c) (payload_of c)
  end.

(** The word of a reference to the [n]-th pair of the zone. *)
Definition pair_word (n : nat) : Z :=
  Z.lor (Zone.address_of n) Location.kPairLocationTag.

Definition stack_slot_constructors
  : list (Z -> Z -> Checked TemplateLocation) :=
  [Location.StackSlot; Location.DoubleStackSlot; Location.QuadStackSlot].

(** A stack index the biased field can hold. *)
Definition stack_index_in_range (stack_index : Z) : bool :=
  (- Location.kStackIndexBias <=? stack_index)
  && (stack_index <? Location.kStackIndexBias).

(** A register code the base field of a stack slot can hold; by
    [COMPILE_ASSERT_base_reg] every cpu register is one. *)
Definition base_in_range (base : Z) : bool :=
  (0 <=? base) && (base <? 2 ^ Location.kBitsForBaseReg).

(** The arguments a constructor accepts: a register code that fits the
    payload, a stack index within the bias and a base register that fits
    its field, the address of an object aligned to the tag bits. *)
Definition in_range (c : Construction) : bool :=
  match c with
  | NoLocationCall | UnallocatedLocationCall _ => true
  | RegisterLocationCall reg | FpuRegisterLocationCall reg =>
      (0 <=? reg) && (reg <? 2 ^ Location.kPayloadBitsSize)
  | StackSlotCall stack_index base
  | DoubleStackSlotCall stack_index base
  | QuadStackSlotCall stack_index base =>
      stack_index_in_range stack_index && base_in_range base
  | ConstantCall obj =>
      (0 <=? obj) && (obj <? 2 ^ kBitsPerWord)
      && (Z.land obj Location.kLocationTagMask =? 0)
  end.

Definition is_constant_call (c : Construction) : bool :=
  match c with ConstantCall _ => true | _ => false end.

Definition is_machine_register_call (c : Construction) : bool :=
  match c with
  | RegisterLocationCall _ | FpuRegisterLocationCall _ => true
  | _ => false
  end.

(** The values a [uword] can hold. *)
Definition is_uword (x : Z) : bool := (0 <=? x) && (x <? 2 ^ kBitsPerWord).

(** The zone can serve one more allocation of a pair. *)
Definition has_room (zone : Zone) : bool :=
  Zone.address_of (List.length zone) + Zone.sizeof_PairLocation
    <=? 2 ^ kBitsPerWord.

(** The word holds the value of an [int]: every mask [ToMask] returns
    does, and so does every set built from the empty one. *)
Definition is_int (data_ : Z) : bool :=
  (- 2 ^ 31 <=? data_) && (data_ <? 2 ^ 31).

(** A register code [ToMask] has a defined mask for. *)
Definition maskable (reg : Z) : bool := (0 <=? reg) && (reg <? 32).

(** The arrays of a summary hold as many elements as it was constructed
    with. *)
Definition well_formed (s : LocationSummary) : Prop :=
  Z.of_nat (List.length (input_locations_ s)) = num_inputs_ s
  /\ Z.of_nat (List.length (temp_locations_ s)) = num_temps_ s.
End Vocabulary.

(** Sample values of the 64-bit target, used to run the model: register 3,
    [Unallocated(RequiresRegister)], the stack slots of index -3 on base
    register 5, of index 7 on base register 4 and of the greatest index,
    [2 ^ 52 - 1], on base register 5, and the references to the first and
    the second pair of a zone. *)
Definition register_3 : TemplateLocation := read 104.
Definition requires_register : TemplateLocation := read 67.
Definition slot_m3_on_5 : TemplateLocation := read 9223372036854769828.
Definition slot_7_on_4 : TemplateLocation := read 9223372036854790276.
Definition last_slot : TemplateLocation := read 18446744073709549732.
Definition first_pair : TemplateLocation := read 18.
Definition second_pair : TemplateLocation := read 34.

Definition rebase_5_to_4 (stack_delta : Z) : FrameRebase :=
  {| old_base_ := 5; new_base_ := 4; stack_delta_ := stack_delta |}.

Definition empty_set : RegisterSet :=
  {| cpu_registers_ := 0; untagged_cpu_registers_ := 0; fpu_registers_ := 0 |}.

(** Registers 3 and 5 in use, register 3 untagged, fpu register 0 in use. *)
Definition sample_set : RegisterSet :=
  {| cpu_registers_ := 40; untagged_cpu_registers_ := 8; fpu_registers_ := 1 |}.

(** A summary that always calls, with one input and one temp, used to run
    the setters. *)
Definition call_summary : LocationSummary :=
  {| num_inputs_ := 1;
     input_locations_ := [read 0];
     num_temps_ := 1;
     temp_locations_ := [read 0];
     output_location_ := read 0;
     contains_call_ := kCall;
     live_registers_ := empty_set |}.

(** ** RegisterSet: the members that add whole classes of registers

    [AddAllNonReservedRegisters], [AddAllGeneralRegisters] and
    [AddAllArgumentRegisters] use constants and predicates of
    [vm/constants.h] and the [TARGET_ARCH_*] macros; these are parameters
    here. *)

Inductive TargetArch : Type :=
  | TARGET_ARCH_IA32
  | TARGET_ARCH_ARM
  | TARGET_ARCH_ARM64
  | TARGET_ARCH_OTHER.   (* none of the three macros is defined *)

Class RegisterFile : Type := {
  TARGET_ARCH : TargetArch;
  kReservedCpuRegisters : Z;
  FPREG : Z;
  SPREG : Z;
  PC : Z;                       (* read under TARGET_ARCH_ARM *)
  R31 : Z;                      (* read under TARGET_ARCH_ARM64 *)
  vfp_supported : bool;         (* TargetCPUFeatures::vfp_supported() *)
  IsArgumentRegister : Z -> bool;
  IsFpuArgumentRegister : Z -> bool;
}.

(** The indices of [for (i = n - 1; i >= 0; --i)] and of
    [for (i = 0; i < n; ++i)]. *)
Definition counting_down (n : Z) : list Z := reverse (seqZ 0 n).
Definition counting_up (n : Z) : list Z := seqZ 0 n.

(** A loop over [indices] whose body updates the state or fails. *)
Fixpoint for_each {S : Type} (indices : list Z) (body : S -> Z -> Checked S)
    (s : S) : Checked S :=
  match indices with
  | [] => Ok s
  | i :: indices => s ← body s i; for_each indices body s
  end.

Module RegisterSetFill.
Section RegisterSetFill.
Context {target : Target} {registers : RegisterFile}.

(** The value of an [int] as an unsigned value of 32 bits, as the
    comparison with [0u] converts it. *)
Definition to_unsigned (x : Z) : Z := x mod 2 ^ 32.

(** [Add(Location::RegisterLocation(reg))], the representation being the
    default one, [kTagged]. *)
Definition add_register (s : RegisterSet) (reg : Z) : Checked RegisterSet :=
  loc ← Location.RegisterLocation reg; RegisterSet.Add s loc kTagged.

Definition add_fpu_register (s : RegisterSet) (reg : Z) : Checked RegisterSet :=
  loc ← Location.FpuRegisterLocation reg; RegisterSet.Add s loc kTagged.

Definition AddAllNonReservedRegisters (s : RegisterSet)
    (include_fpu_registers : bool) : Checked RegisterSet :=
  s ← for_each (counting_down kNumberOfCpuRegisters)
        (fun s i =>
           m ← int_one_shl i;
           if negb (Z.land kReservedCpuRegisters (to_unsigned m) =? 0)
           then Ok s
           else add_register s (to_int i))
        s;
  if include_fpu_registers then
    for_each (counting_down kNumberOfFpuRegisters)
      (fun s i => add_fpu_register s (to_int i)) s
  else Ok s.

Definition AddAllGeneralRegisters (s : RegisterSet) : Checked RegisterSet :=
  s ← for_each (counting_down kNumberOfCpuRegisters)
        (fun s i =>
           let reg := to_int i in
           if (reg =? FPREG) || (reg =? SPREG) then Ok s
           else if match TARGET_ARCH with
                   | TARGET_ARCH_ARM => reg =? PC
                   | TARGET_ARCH_ARM64 => reg =? R31
                   | _ => false
                   end
           then Ok s
           else add_register s reg)
        s;
  if match TARGET_ARCH with
     | TARGET_ARCH_ARM => vfp_supported
     | _ => true
     end
  then for_each (counting_down kNumberOfFpuRegisters)
         (fun s i => add_fpu_register s (to_int i)) s
  else Ok s.

Definition AddAllArgumentRegisters (s : RegisterSet) : Checked RegisterSet :=
  match TARGET_ARCH with
  | TARGET_ARCH_IA32 => Ok s
  | _ =>
    s ← for_each (counting_up kNumberOfCpuRegisters)
          (fun s i =>
             let reg := to_int i in
             if IsArgumentRegister reg then add_register s reg else Ok s)
          s;
    for_each (counting_up kNumberOfFpuRegisters)
      (fun s i =>
         let reg := to_int i in
         if IsFpuArgumentRegister reg then add_fpu_register s reg else Ok s)
      s
  end.
End RegisterSetFill.
End RegisterSetFill.

(** The static [RegisterSet::Contains(register_set, reg)], which tests a
    bit of a mask such as [cpu_registers()] returns; the shift is one of an
    [int], as in [SmallSet::ToMask], and there is no check of [reg]. *)
Module RegisterSetStatic.
Definition Contains (register_set reg : Z) : Checked bool :=
  m ← int_one_shl reg; Ok (negb (Z.land register_set m =? 0)).
End RegisterSetStatic.

(** ** Further vocabulary *)

Section FurtherVocabulary.
Context {target : Target}.

(** All three masks of the set hold the value of an [int]. *)
Definition int_set (s : RegisterSet) : bool :=
  is_int (cpu_registers_ s) && is_int (untagged_cpu_registers_ s)
  && is_int (fpu_registers_ s).

(** The predicates that tell the kinds of locations apart. *)
Definition kind_predicates : list (TemplateLocation -> bool) :=
  [Location.IsInvalid; Location.IsConstant; Location.IsPairLocation;
   Location.IsUnallocated; Location.IsRegister; Location.IsFpuRegister;
   Location.IsStackSlot; Location.IsDoubleStackSlot;
   Location.IsQuadStackSlot].

(** The number of predicates of the list that hold of the location. *)
Definition count_true (ps : list (TemplateLocation -> bool))
    (loc : TemplateLocation) : nat :=
  List.length (List.filter (fun p => p loc) ps).

(** The constructor of the stack slots of a kind. *)
Definition stack_slot_constructor (kind : Z)
  : option (Z -> Z -> Checked TemplateLocation) :=
  if kind =? Location.kStackSlot then Some Location.StackSlot
  else if kind =? Location.kDoubleStackSlot then Some Location.DoubleStackSlot
  else if kind =? Location.kQuadStackSlot then Some Location.QuadStackSlot
  else None.
End FurtherVocabulary.

(** Sample register files: one of a 64-bit target that defines none of the
    three macros, with registers 4 and 5 as stack and frame pointer and
    registers 4, 5, 10 and 14 reserved, and one of IA32. *)
Definition sample_registers : RegisterFile :=
  {| TARGET_ARCH := TARGET_ARCH_OTHER;
     kReservedCpuRegisters := 17456;
     FPREG := 5;
     SPREG := 4;
     PC := 15;
     R31 := 31;
     vfp_supported := true;
     IsArgumentRegister := fun reg => (reg =? 7) || (reg =? 6) || (reg =? 2);
     IsFpuArgumentRegister := fun reg => reg <? 4 |}.

Definition ia32_registers : RegisterFile :=
  {| TARGET_ARCH := TARGET_ARCH_IA32;
     kReservedCpuRegisters := 48;
     FPREG := 5;
     SPREG := 4;
     PC := 15;
     R31 := 31;
     vfp_supported := true;
     IsArgumentRegister := fun _ => false;
     IsFpuArgumentRegister := fun _ => false |}.

(** The register location of the code 40, which has no mask, and the fpu
    register locations of the codes 3 and 40. *)
Definition register_40 : TemplateLocation := read 1288.
Definition fpu_register_3 : TemplateLocation := read 108.
Definition fpu_register_40 : TemplateLocation := read 1292.

(** A summary without calls, with two inputs and two temps. *)
Definition nocall_summary : LocationSummary :=
  {| num_inputs_ := 2;
     input_locations_ := [read 0; read 0];
     num_temps_ := 2;
     temp_locations_ := [read 0; read 0];
     output_location_ := read 0;
     contains_call_ := kNoCall;
     live_registers_ := empty_set |}.

(** * Properties *)

(** Unfolds the layout of the bit fields, for [lia]. *)
Ltac fields :=
  cbv [fits Location.KindField Location.PayloadField Location.PolicyField
       Location.StackSlotBaseField Location.StackIndexField
       Location.kPayloadBitsPos Location.kKindBitsPos Location.kKindBitsSize
       BitField.position BitField.size] in *.

(** Inverts [m ≫= k = Ok x]: [m] returned a value. *)
Ltac bind_inv H :=
  match type of H with
  | (?m ≫= _) = Ok _ =>
      let E := fresh "E" in
      destruct m eqn:E; simpl in H; [| discriminate H]
  end.

(** ** Words and bit fields *)

Section WordFacts.
Context {target : Target}.

Lemma kBitsPerWord_cases : kBitsPerWord = 64 \/ kBitsPerWord = 32.
Proof. unfold kBitsPerWord, kWordSize, kBitsPerByte.
  destruct ARCH_IS_64_BIT; auto. Qed.

Lemma kBitsPerWord_pos : 32 <= kBitsPerWord.
Proof. destruct kBitsPerWord_cases as [-> | ->]; lia. Qed.

Lemma to_uword_range x : 0 <= to_uword x < 2 ^ kBitsPerWord.
Proof. apply Z.mod_pos_bound. pose proof kBitsPerWord_pos.
  apply Z.pow_pos_nonneg; lia. Qed.

Lemma to_uword_small x : 0 <= x < 2 ^ kBitsPerWord -> to_uword x = x.
Proof. apply Z.mod_small. Qed.

Lemma testbit_to_uword x i :
  Z.testbit (to_uword x) i = (i <? kBitsPerWord) && Z.testbit x i.
Proof. pose proof kBitsPerWord_pos. apply Z.testbit_mod_pow2. lia. Qed.

Lemma testbit_uword_not x i :
  0 <= i ->
  Z.testbit (uword_not x) i = (i <? kBitsPerWord) && negb (Z.testbit x i).
Proof. intros. unfold uword_not. rewrite testbit_to_uword, Z.lnot_spec by lia.
  reflexivity. Qed.

Lemma testbit_small x n i : 0 <= x < 2 ^ n -> n <= i -> Z.testbit x i = false.
Proof.
  intros Hx Hi. destruct (Z.eq_dec x 0) as [-> | ?]; [apply Z.testbit_0_l |].
  apply Z.bits_above_log2; [lia |].
  assert (Z.log2 x < n); [| lia]. apply Z.log2_lt_pow2; lia.
Qed.

Lemma small_of_testbit x n :
  0 <= n -> 0 <= x -> (forall i, n <= i -> Z.testbit x i = false) -> x < 2 ^ n.
Proof.
  intros Hn Hx H.
  destruct (Z.eq_dec x 0) as [-> | ?]; [apply Z.pow_pos_nonneg; lia |].
  apply Z.log2_lt_pow2; [lia |].
  destruct (Z.lt_ge_cases (Z.log2 x) n); [assumption |].
  pose proof (Z.bit_log2 x ltac:(lia)) as B. rewrite H in B by assumption.
  discriminate.
Qed.
End WordFacts.

Section BitFieldFacts.
Context {target : Target}.
Import BitField.

Lemma mask_ones f : 0 <= size f < kBitsPerWord -> mask f = Z.ones (size f).
Proof.
  intros H. unfold mask, kUwordOne.
  rewrite Z.shiftl_1_l, Z.ones_equiv.
  assert (0 < 2 ^ size f < 2 ^ kBitsPerWord).
  { split; [apply Z.pow_pos_nonneg; lia | apply Z.pow_lt_mono_r; lia]. }
  rewrite (to_uword_small (2 ^ size f)) by lia. apply to_uword_small. lia.
Qed.

Lemma is_valid_iff f value :
  0 <= size f < kBitsPerWord ->
  is_valid f value = true <-> to_uword value < 2 ^ size f.
Proof.
  intros H. unfold is_valid. rewrite mask_ones by assumption.
  pose proof (to_uword_range value) as R. rewrite Z.eqb_eq. split.
  - intros E. apply small_of_testbit; [lia | lia |]. intros i Hi.
    destruct (Z.ltb_spec i kBitsPerWord).
    + assert (B : Z.testbit (Z.land (to_uword value) (uword_not (Z.ones (size f)))) i = false)
        by (rewrite E; apply Z.testbit_0_l).
      rewrite Z.land_spec, testbit_uword_not, Z.ones_spec_high in B by lia.
      destruct (Z.ltb_spec i kBitsPerWord); [| lia].
      simpl in B. rewrite andb_true_r in B. exact B.
    + eapply testbit_small; eauto.
  - intros L. apply Z.bits_inj'. intros i Hi.
    rewrite Z.land_spec, testbit_uword_not, Z.testbit_0_l by lia.
    destruct (Z.ltb_spec i (size f)).
    + rewrite Z.ones_spec_low by lia. simpl. rewrite andb_false_r.
      apply andb_false_r.
    + rewrite (testbit_small (to_uword value) (size f)) by lia. reflexivity.
Qed.

Lemma encode_Ok f value :
  fits f -> 0 <= value < 2 ^ size f ->
  encode f value = Ok (Z.shiftl value (position f)).
Proof.
  intros (Hp & Hs & Hlt & Hle) Hv. unfold encode.
  assert (2 ^ size f < 2 ^ kBitsPerWord) by (apply Z.pow_lt_mono_r; lia).
  assert (U : to_uword value = value) by (apply to_uword_small; lia).
  assert (V : is_valid f value = true) by (apply is_valid_iff; lia).
  rewrite V, U. simpl. f_equal. apply to_uword_small.
  rewrite Z.shiftl_mul_pow2 by lia. split; [nia |].
  apply Z.lt_le_trans with (2 ^ size f * 2 ^ position f).
  - apply Z.mul_lt_mono_pos_r; [apply Z.pow_pos_nonneg|]; lia.
  - rewrite <- Z.pow_add_r by lia. apply Z.pow_le_mono_r; lia.
Qed.

Lemma encode_Fatal f value :
  0 <= size f < kBitsPerWord -> 2 ^ size f <= to_uword value ->
  encode f value = Fatal AssertionFailed.
Proof.
  intros H L. unfold encode.
  destruct (is_valid f value) eqn:V; [| reflexivity].
  apply is_valid_iff in V; [lia | assumption].
Qed.

Lemma testbit_decode f s i :
  0 <= position f -> 0 <= size f < kBitsPerWord -> 0 <= i ->
  Z.testbit (decode f s) i = (i <? size f) && Z.testbit s (i + position f).
Proof.
  intros Hp Hs Hi. unfold decode. rewrite mask_ones by assumption.
  rewrite Z.land_spec, Z.shiftr_spec, Z.testbit_ones_nonneg by lia.
  apply andb_comm.
Qed.

Lemma decode_range f s :
  0 <= position f -> 0 <= size f < kBitsPerWord -> 0 <= decode f s < 2 ^ size f.
Proof.
  intros Hp Hs. unfold decode. rewrite mask_ones, Z.land_ones by lia.
  apply Z.mod_pos_bound, Z.pow_pos_nonneg; lia.
Qed.

Lemma update_Ok f value original :
  fits f -> 0 <= value < 2 ^ size f ->
  update f value original =
    Ok (Z.lor (Z.shiftl value (position f))
              (Z.land (uword_not (Z.shiftl (Z.ones (size f)) (position f))) original)).
Proof.
  intros F Hv. pose proof (encode_Ok f value F Hv) as E.
  destruct F as (Hp & Hs & Hlt & Hle).
  unfold encode in E. unfold update, mask_in_place.
  destruct (is_valid f value); simpl in *; [| discriminate].
  injection E as E. rewrite E, mask_ones by lia.
  rewrite (to_uword_small (Z.shiftl (Z.ones (size f)) (position f))); [reflexivity |].
  rewrite Z.shiftl_mul_pow2, Z.ones_equiv by lia.
  assert (0 < 2 ^ size f) by (apply Z.pow_pos_nonneg; lia).
  assert (0 < 2 ^ position f) by (apply Z.pow_pos_nonneg; lia).
  split; [nia |].
  apply Z.lt_le_trans with (2 ^ size f * 2 ^ position f); [nia |].
  rewrite <- Z.pow_add_r by lia. apply Z.pow_le_mono_r; lia.
Qed.

End BitFieldFacts.

Section PackFacts.
Context {target : Target}.
Import BitField.

Lemma testbit_pack n a b i :
  0 <= i -> Z.testbit (pack n a b) i = Z.testbit a i || Z.testbit b (i - n).
Proof. intros. unfold pack. rewrite Z.lor_spec, Z.shiftl_spec by lia.
  reflexivity. Qed.

Lemma pack_range n m a b :
  0 <= n -> 0 <= m -> 0 <= a < 2 ^ n -> 0 <= b < 2 ^ m ->
  0 <= pack n a b < 2 ^ (n + m).
Proof.
  intros Hn Hm Ha Hb.
  assert (N : 0 <= pack n a b).
  { unfold pack. apply Z.lor_nonneg. split; [lia |]. apply Z.shiftl_nonneg. lia.
    }
  split; [exact N |].
  apply small_of_testbit; [lia | exact N |]. intros i Hi.
  rewrite testbit_pack by lia.
  rewrite (testbit_small a n), (testbit_small b m) by lia. reflexivity.
Qed.

Lemma decode_low_pack n a b :
  0 <= n < kBitsPerWord -> 0 <= a < 2 ^ n ->
  decode (Field 0 n) (pack n a b) = a.
Proof.
  intros Hn Ha. apply Z.bits_inj'. intros i Hi.
  rewrite testbit_decode by (simpl; lia). simpl.
  rewrite testbit_pack by lia. rewrite Z.add_0_r.
  destruct (Z.ltb_spec i n).
  - rewrite (Z.testbit_neg_r b) by lia. rewrite orb_false_r. reflexivity.
  - rewrite (testbit_small a n) by lia. reflexivity.
Qed.

Lemma decode_high_pack n m a b :
  0 <= n -> 0 <= m < kBitsPerWord -> 0 <= a < 2 ^ n -> 0 <= b < 2 ^ m ->
  decode (Field n m) (pack n a b) = b.
Proof.
  intros Hn Hm Ha Hb. apply Z.bits_inj'. intros i Hi.
  rewrite testbit_decode by (simpl; lia). simpl.
  rewrite testbit_pack by lia.
  rewrite (testbit_small a n) by lia. replace (i + n - n) with i by lia.
  destruct (Z.ltb_spec i m); [reflexivity |].
  rewrite (testbit_small b m) by lia. reflexivity.
Qed.

Lemma pack_decode n m v :
  0 <= n < kBitsPerWord -> 0 <= m < kBitsPerWord -> 0 <= v < 2 ^ (n + m) ->
  pack n (decode (Field 0 n) v) (decode (Field n m) v) = v.
Proof.
  intros Hn Hm Hv. apply Z.bits_inj'. intros i Hi.
  rewrite testbit_pack by lia.
  rewrite (testbit_decode (Field 0 n)) by (simpl; lia). simpl.
  rewrite Z.add_0_r.
  destruct (Z.ltb_spec i n).
  - rewrite Z.testbit_neg_r with (n := i - n) by lia. rewrite orb_false_r.
    reflexivity.
  - rewrite testbit_decode by (simpl; lia). simpl.
    replace (i - n + n) with i by lia.
    destruct (Z.ltb_spec (i - n) m); [reflexivity |].
    rewrite (testbit_small v (n + m)) by lia. reflexivity.
Qed.

Lemma land_low_pack n k a b :
  0 <= k <= n -> Z.land (pack n a b) (Z.ones k) = Z.land a (Z.ones k).
Proof.
  intros Hk. apply Z.bits_inj'. intros i Hi.
  rewrite !Z.land_spec, testbit_pack by lia.
  destruct (Z.ltb_spec i k).
  - rewrite (Z.testbit_neg_r b) by lia. rewrite orb_false_r. reflexivity.
  - rewrite Z.ones_spec_high by lia. rewrite !andb_false_r. reflexivity.
Qed.

(** Replacing the low or the high field of a two-field word. *)
Lemma update_low n m a' v :
  0 <= n < kBitsPerWord -> 0 <= m < kBitsPerWord -> n + m <= kBitsPerWord ->
  0 <= a' < 2 ^ n -> 0 <= v < 2 ^ (n + m) ->
  update (Field 0 n) a' v = Ok (pack n a' (decode (Field n m) v)).
Proof.
  intros Hn Hm Hnm Ha' Hv.
  rewrite update_Ok by (unfold fits; simpl; lia). simpl. f_equal.
  apply Z.bits_inj'. intros i Hi.
  rewrite Z.lor_spec, Z.land_spec, testbit_uword_not, testbit_pack by lia.
  rewrite !Z.shiftl_spec, Z.sub_0_r by lia.
  destruct (Z.ltb_spec i n).
  - rewrite Z.ones_spec_low, (Z.testbit_neg_r _ (i - n)) by lia. simpl.
    rewrite andb_false_r. reflexivity.
  - rewrite Z.ones_spec_high by lia. simpl. rewrite andb_true_r.
    rewrite testbit_decode by (simpl; lia). simpl.
    replace (i - n + n) with i by lia. f_equal.
    destruct (Z.ltb_spec i kBitsPerWord), (Z.ltb_spec (i - n) m);
      try reflexivity; try lia;
      rewrite (testbit_small v (n + m)) by lia; reflexivity.
Qed.

Lemma update_high n m b' v :
  0 <= n < kBitsPerWord -> 0 <= m < kBitsPerWord -> n + m <= kBitsPerWord ->
  0 <= b' < 2 ^ m -> 0 <= v < 2 ^ (n + m) ->
  update (Field n m) b' v = Ok (pack n (decode (Field 0 n) v) b').
Proof.
  intros Hn Hm Hnm Hb' Hv.
  rewrite update_Ok by (unfold fits; simpl; lia). simpl. f_equal.
  apply Z.bits_inj'. intros i Hi.
  rewrite Z.lor_spec, Z.land_spec, testbit_uword_not, testbit_pack by lia.
  rewrite !Z.shiftl_spec by lia.
  rewrite testbit_decode by (simpl; lia). simpl. rewrite Z.add_0_r.
  rewrite orb_comm. f_equal.
  destruct (Z.ltb_spec i n).
  - rewrite (Z.testbit_neg_r _ (i - n)) by lia.
    destruct (Z.ltb_spec i kBitsPerWord); [reflexivity | lia].
  - destruct (Z.ltb_spec (i - n) m).
    + rewrite Z.ones_spec_low by lia. simpl. rewrite andb_false_r. reflexivity.
    + rewrite (testbit_small v (n + m)) by lia. apply andb_false_r.
Qed.
End PackFacts.

Section LocationFacts.
Context {target : Target}.
Import BitField Location.

(** The layout constants of the two word sizes. *)
Lemma layout_cases :
  (kBitsPerWord = 64 /\ kPayloadBitsSize = 59 /\ kBitsForBaseReg = 6 /\
   kBitsForStackIndex = 53 /\ kStackIndexBias = 2 ^ 52)
  \/ (kBitsPerWord = 32 /\ kPayloadBitsSize = 27 /\ kBitsForBaseReg = 5 /\
      kBitsForStackIndex = 22 /\ kStackIndexBias = 2 ^ 21).
Proof.
  unfold kStackIndexBias, kBitsForStackIndex, kBitsForBaseReg, kPayloadBitsSize,
    kBitsPerWord, kWordSize.
  destruct ARCH_IS_64_BIT; [left | right]; repeat split; reflexivity.
Qed.

Lemma layout_bounds :
  kPayloadBitsSize = kBitsPerWord - 5 /\
  kBitsForStackIndex = kPayloadBitsSize - kBitsForBaseReg /\
  5 <= kBitsForBaseReg <= 6 /\ 22 <= kBitsForStackIndex /\
  kStackIndexBias = 2 ^ (kBitsForStackIndex - 1) /\
  2 * kStackIndexBias = 2 ^ kBitsForStackIndex /\
  32 <= kBitsPerWord.
Proof.
  destruct layout_cases as [(-> & -> & -> & -> & ->) | (-> & -> & -> & -> & ->)];
    repeat split; try lia; reflexivity.
Qed.

Lemma of_kind_Ok k p :
  0 <= k < 32 -> 0 <= p < 2 ^ kPayloadBitsSize ->
  of_kind k p = Ok (read (pack 5 k p)).
Proof.
  intros Hk Hp. pose proof layout_bounds as (P & _ & _ & _ & _ & _ & W).
  unfold of_kind.
  rewrite (encode_Ok KindField) by (fields; lia). simpl.
  assert (2 ^ kPayloadBitsSize < 2 ^ kBitsPerWord) by (apply Z.pow_lt_mono_r; lia).
  rewrite to_uword_small by lia.
  rewrite (encode_Ok PayloadField) by (fields; lia). simpl.
  rewrite Z.shiftl_0_r. reflexivity.
Qed.

Lemma of_kind_Fatal k p :
  2 ^ kPayloadBitsSize <= to_uword p -> of_kind k p = Fatal AssertionFailed.
Proof.
  intros Hp. pose proof layout_bounds as (P & _ & _ & _ & _ & _ & W).
  unfold of_kind. destruct (encode KindField k) as [k' | f] eqn:E.
  - simpl. rewrite (encode_Fatal PayloadField); [reflexivity | fields; lia |].
    rewrite to_uword_small by apply to_uword_range. exact Hp.
  - simpl. unfold encode in E.
    destruct (is_valid KindField k); simpl in E; congruence.
Qed.

Lemma kind_pack k p : 0 <= k < 32 -> kind (read (pack 5 k p)) = k.
Proof.
  intros. pose proof layout_bounds. unfold kind, value_. simpl.
  apply (decode_low_pack 5); lia.
Qed.

Lemma payload_pack k p :
  0 <= k < 32 -> 0 <= p < 2 ^ kPayloadBitsSize ->
  payload (read (pack 5 k p)) = p.
Proof.
  intros. pose proof layout_bounds. unfold payload, value_. simpl.
  apply (decode_high_pack 5); lia.
Qed.

Lemma tag_pack k p :
  Z.land (pack 5 k p) kLocationTagMask = Z.land k kLocationTagMask.
Proof. apply (land_low_pack 5 2). lia. Qed.

Lemma value_unpack loc :
  0 <= write loc < 2 ^ kBitsPerWord ->
  write loc = pack 5 (kind loc) (payload loc).
Proof.
  intros. pose proof layout_bounds as (P & _ & _ & _ & _ & _ & W).
  symmetry. apply (pack_decode 5 kPayloadBitsSize); try lia.
  rewrite P. replace (5 + (kBitsPerWord - 5)) with kBitsPerWord by lia.
  assumption.
Qed.

Lemma kind_range loc : 0 <= kind loc < 32.
Proof. pose proof layout_bounds. apply (decode_range KindField); fields; lia.
  Qed.

Lemma payload_range loc : 0 <= payload loc < 2 ^ kPayloadBitsSize.
Proof. pose proof layout_bounds. apply (decode_range PayloadField); fields; lia.
  Qed.

Lemma stack_payload_range o r :
  - kStackIndexBias <= o < kStackIndexBias -> 0 <= r < 2 ^ kBitsForBaseReg ->
  0 <= stack_payload o r < 2 ^ kPayloadBitsSize.
Proof.
  intros Ho Hr. pose proof layout_bounds as (P & I & B & S & E & E2 & W).
  replace kPayloadBitsSize with (kBitsForBaseReg + kBitsForStackIndex) by lia.
  apply pack_range; lia.
Qed.

Lemma HasStackIndex_iff loc :
  HasStackIndex loc = true <-> stack_kind (kind loc).
Proof.
  unfold HasStackIndex, IsStackSlot, IsDoubleStackSlot, IsQuadStackSlot, stack_kind.
  rewrite !orb_true_iff, !Z.eqb_eq. tauto.
Qed.

Lemma stack_kind_range k : stack_kind k -> 0 <= k < 32.
Proof. unfold stack_kind, kStackSlot, kDoubleStackSlot, kQuadStackSlot. lia.
  Qed.

Lemma HasStackIndex_stack_word k o r :
  stack_kind k -> HasStackIndex (read (stack_word k o r)) = true.
Proof.
  intros K. apply HasStackIndex_iff. unfold stack_word.
  rewrite kind_pack by (apply stack_kind_range, K). exact K.
Qed.

Lemma stack_index_stack_word k o r :
  stack_kind k -> - kStackIndexBias <= o < kStackIndexBias ->
  0 <= r < 2 ^ kBitsForBaseReg ->
  stack_index (read (stack_word k o r)) = Ok o.
Proof.
  intros K Ho Hr. pose proof layout_bounds as (P & I & B & S & E & E2 & W).
  unfold stack_index. rewrite HasStackIndex_stack_word by assumption. simpl.
  unfold stack_word.
  rewrite payload_pack by (auto using stack_kind_range, stack_payload_range).
  unfold stack_payload, StackIndexField.
  rewrite decode_high_pack by lia. f_equal. lia.
Qed.

Lemma base_reg_stack_word k o r :
  stack_kind k -> - kStackIndexBias <= o < kStackIndexBias ->
  0 <= r < 2 ^ kBitsForBaseReg ->
  base_reg (read (stack_word k o r)) = Ok r.
Proof.
  intros K Ho Hr. pose proof layout_bounds as (P & I & B & S & E & E2 & W).
  unfold base_reg. rewrite HasStackIndex_stack_word by assumption. simpl.
  unfold stack_word.
  rewrite payload_pack by (auto using stack_kind_range, stack_payload_range).
  unfold stack_payload, StackSlotBaseField.
  rewrite decode_low_pack by lia. reflexivity.
Qed.

Lemma EncodeStackIndex_Ok o :
  - kStackIndexBias <= o < kStackIndexBias ->
  EncodeStackIndex o = Ok (kStackIndexBias + o).
Proof.
  intros Ho. pose proof layout_bounds as (P & I & B & S & E & E2 & W).
  unfold EncodeStackIndex.
  replace ((- kStackIndexBias <=? o) && (o <? kStackIndexBias)) with true
    by (symmetry; apply andb_true_iff; split; [apply Z.leb_le | apply Z.ltb_lt]; lia).
  simpl. f_equal. apply to_uword_small.
  assert (2 ^ kBitsForStackIndex < 2 ^ kBitsPerWord) by (apply Z.pow_lt_mono_r; lia).
  lia.
Qed.

Lemma EncodeStackIndex_Fatal o :
  ~ (- kStackIndexBias <= o < kStackIndexBias) ->
  EncodeStackIndex o = Fatal AssertionFailed.
Proof.
  intros Ho. unfold EncodeStackIndex.
  replace ((- kStackIndexBias <=? o) && (o <? kStackIndexBias)) with false;
    [reflexivity |].
  symmetry. apply andb_false_iff.
  destruct (Z.leb_spec (- kStackIndexBias) o), (Z.ltb_spec o kStackIndexBias);
    auto; lia.
Qed.

Lemma stack_slot_of_kind_Ok k o r :
  stack_kind k -> - kStackIndexBias <= o < kStackIndexBias ->
  0 <= r < 2 ^ kBitsForBaseReg ->
  stack_slot_of_kind k o r = Ok (read (stack_word k o r)).
Proof.
  intros K Ho Hr. pose proof layout_bounds as (P & I & B & S & E & E2 & W).
  unfold stack_slot_of_kind.
  rewrite (encode_Ok StackSlotBaseField) by (fields; lia). simpl.
  rewrite Z.shiftl_0_r.
  rewrite EncodeStackIndex_Ok by assumption. simpl.
  rewrite (encode_Ok StackIndexField) by (fields; lia). simpl.
  change (Z.lor r (Z.shiftl (kStackIndexBias + o) kBitsForBaseReg))
    with (stack_payload o r).
  rewrite of_kind_Ok by (auto using stack_kind_range, stack_payload_range).
  simpl.
  change (pack 5 k (stack_payload o r)) with (stack_word k o r).
  rewrite stack_index_stack_word by assumption. simpl.
  rewrite Z.eqb_refl. reflexivity.
Qed.

Lemma stack_slot_of_kind_Fatal k o r :
  ~ (- kStackIndexBias <= o < kStackIndexBias) ->
  stack_slot_of_kind k o r = Fatal AssertionFailed.
Proof.
  intros Ho. unfold stack_slot_of_kind.
  destruct (encode StackSlotBaseField r) as [b | f] eqn:E; simpl.
  - rewrite EncodeStackIndex_Fatal by assumption. reflexivity.
  - unfold encode in E.
    destruct (is_valid StackSlotBaseField r); simpl in E; congruence.
Qed.
End LocationFacts.

(** ** Locations *)

Section ConstructionFacts.
Context {target : Target}.
Import BitField Location.

Lemma to_uword_idem x : to_uword (to_uword x) = to_uword x.
Proof. apply to_uword_small, to_uword_range. Qed.

Lemma of_kind_inv k p loc :
  0 <= k < 32 -> of_kind k p = Ok loc ->
  loc = read (pack 5 k (to_uword p)) /\ 0 <= to_uword p < 2 ^ kPayloadBitsSize.
Proof.
  intros Hk H. pose proof (to_uword_range p) as R.
  destruct (Z.lt_ge_cases (to_uword p) (2 ^ kPayloadBitsSize)) as [L | G].
  - assert (E : of_kind k p = of_kind k (to_uword p))
      by (unfold of_kind; rewrite to_uword_idem; reflexivity).
    rewrite E, of_kind_Ok in H by lia. split; [congruence | lia].
  - rewrite of_kind_Fatal in H by assumption. discriminate.
Qed.

Lemma stack_slot_of_kind_inv k o r loc :
  stack_slot_of_kind k o r = Ok loc -> exists p, of_kind k p = Ok loc.
Proof.
  unfold stack_slot_of_kind. intros H.
  repeat bind_inv H. injection H as <-. eauto.
Qed.

Lemma policy_encode p : encode PolicyField (Policy_code p) = Ok (Policy_code p).
Proof.
  pose proof kBitsPerWord_pos.
  rewrite encode_Ok by (fields; destruct p; simpl; lia).
  simpl. rewrite Z.shiftl_0_r. reflexivity.
Qed.

Lemma Policy_code_range p : 0 <= Policy_code p < 8.
Proof. destruct p; simpl; lia. Qed.

Lemma Policy_code_inj p q : Policy_code p = Policy_code q -> p = q.
Proof. destruct p, q; simpl; intros; congruence || lia. Qed.

Lemma in_range_stack o r :
  stack_index_in_range o && base_in_range r = true ->
  - kStackIndexBias <= o < kStackIndexBias /\ 0 <= r < 2 ^ kBitsForBaseReg.
Proof. unfold stack_index_in_range, base_in_range. lia. Qed.

Lemma Constant_Ok obj :
  0 <= obj < 2 ^ kBitsPerWord -> Z.land obj kLocationTagMask = 0 ->
  Constant obj = Ok (read (Z.lor obj kConstantTag)).
Proof.
  intros R A. unfold Constant, constant_instruction, IsConstant, value_.
  rewrite to_uword_small by assumption. cbn [write].
  assert (T : Z.land (Z.lor obj kConstantTag) kLocationTagMask = kConstantTag).
  { rewrite Z.land_lor_distr_l, A. reflexivity. }
  rewrite T, Z.eqb_refl. simpl.
  assert (D : Z.land (Z.lor obj kConstantTag) (uword_not kLocationTagMask) = obj).
  { apply Z.bits_inj'. intros i Hi.
    rewrite Z.land_spec, Z.lor_spec, testbit_uword_not by lia.
    assert (B : Z.testbit (Z.land obj kLocationTagMask) i = false)
      by (rewrite A; apply Z.testbit_0_l).
    rewrite Z.land_spec in B. change kLocationTagMask with (Z.ones 2) in *.
    change kConstantTag with (Z.ones 1).
    destruct (Z.ltb_spec i 2).
    - rewrite (Z.ones_spec_low 2 i) in B by lia. rewrite andb_true_r in B.
      rewrite (Z.ones_spec_low 2 i), B by lia. simpl.
      rewrite !andb_false_r. reflexivity.
    - rewrite !Z.ones_spec_high by lia. rewrite orb_false_r. simpl.
      destruct (Z.ltb_spec i kBitsPerWord); [apply andb_true_r |].
      rewrite (testbit_small obj kBitsPerWord) by lia. reflexivity. }
  rewrite D, Z.eqb_refl. reflexivity.
Qed.

(** A constructor call with arguments in range returns the packed word. *)
Lemma construct_Ok c : in_range c = true -> construct c = Ok (read (word_of c)).
Proof.
  pose proof layout_bounds as (P & I & B & S & E & E2 & W).
  destruct c as [| pol | r | r | o r | o r | o r | obj]; simpl; intros H.
  - reflexivity.
  - unfold UnallocatedLocation. rewrite policy_encode. simpl.
    pose proof (Policy_code_range pol).
    apply of_kind_Ok; [unfold kUnallocated; lia |].
    assert (2 ^ 3 <= 2 ^ kPayloadBitsSize) by (apply Z.pow_le_mono_r; lia). lia.
  - apply of_kind_Ok; [unfold kRegister |]; lia.
  - apply of_kind_Ok; [unfold kFpuRegister |]; lia.
  - apply in_range_stack in H as [? ?].
    apply stack_slot_of_kind_Ok; unfold stack_kind; auto.
  - apply in_range_stack in H as [? ?].
    apply stack_slot_of_kind_Ok; unfold stack_kind; auto.
  - apply in_range_stack in H as [? ?].
    apply stack_slot_of_kind_Ok; unfold stack_kind; auto.
  - apply Constant_Ok; lia.
Qed.

(** Whatever a call other than [Constant] returns is its kind and a
    payload packed by [of_kind], the kind being one of the non-tagged
    ones. *)
Lemma construct_inv c loc :
  is_constant_call c = false -> construct c = Ok loc ->
  exists p, In (kind_of c) non_tagged_kinds /\ 0 <= p < 2 ^ kPayloadBitsSize
            /\ loc = read (pack 5 (kind_of c) p).
Proof.
  pose proof layout_bounds as (P & I & B & S & E & E2 & W).
  assert (Z0 : 0 <= 0 < 2 ^ kPayloadBitsSize)
    by (split; [lia | apply Z.pow_pos_nonneg; lia]).
  destruct c as [| pol | r | r | o r | o r | o r | obj]; simpl; intros C H;
    try discriminate C.
  - exists 0. injection H as <-. repeat split; simpl; auto; lia.
  - unfold UnallocatedLocation in H. rewrite policy_encode in H. simpl in H.
    apply of_kind_inv in H as [-> ?]; [| unfold kUnallocated; lia].
    exists (to_uword (Policy_code pol)). simpl. tauto.
  - apply of_kind_inv in H as [-> ?]; [| unfold kRegister; lia].
    exists (to_uword r). simpl. tauto.
  - apply of_kind_inv in H as [-> ?]; [| unfold kFpuRegister; lia].
    exists (to_uword r). simpl. tauto.
  - apply stack_slot_of_kind_inv in H as [p H].
    apply of_kind_inv in H as [-> ?]; [| unfold kStackSlot; lia].
    exists (to_uword p). simpl. tauto.
  - apply stack_slot_of_kind_inv in H as [p H].
    apply of_kind_inv in H as [-> ?]; [| unfold kDoubleStackSlot; lia].
    exists (to_uword p). simpl. tauto.
  - apply stack_slot_of_kind_inv in H as [p H].
    apply of_kind_inv in H as [-> ?]; [| unfold kQuadStackSlot; lia].
    exists (to_uword p). simpl. tauto.
Qed.

Lemma non_tagged_kind_cases k :
  In k non_tagged_kinds ->
  0 <= k < 32
  /\ (Z.land k kLocationTagMask = 0 \/ Z.land k kLocationTagMask = 3).
Proof.
  simpl. intros [<- | [<- | [<- | [<- | [<- | [<- | [<- | []]]]]]]];
    (split; [cbv; split; congruence | cbv; auto]).
Qed.
End ConstructionFacts.

(** ** Pair locations and the zone *)

Section PairFacts.
Context {target : Target}.
Import Location.

Lemma new_PairLocation_Ok : TemplatePairLocation.new = Ok [read 0; read 0].
Proof. reflexivity. Qed.

Lemma sizeof_PairLocation_cases :
  (Zone.sizeof_PairLocation = 16 /\ kBitsPerWord = 64)
  \/ (Zone.sizeof_PairLocation = 8 /\ kBitsPerWord = 32).
Proof.
  unfold Zone.sizeof_PairLocation, kBitsPerWord, kWordSize.
  destruct ARCH_IS_64_BIT; auto.
Qed.

Lemma address_of_aligned n : exists q, 0 < q /\ Zone.address_of n = 4 * q.
Proof.
  unfold Zone.address_of.
  destruct sizeof_PairLocation_cases as [[-> _] | [-> _]].
  - exists (4 * (Z.of_nat n + 1)). lia.
  - exists (2 * (Z.of_nat n + 1)). lia.
Qed.

Lemma index_of_address_of n : Zone.index_of (Zone.address_of n) = Some n.
Proof.
  unfold Zone.index_of, Zone.address_of.
  assert (0 < Zone.sizeof_PairLocation)
    by (destruct sizeof_PairLocation_cases as [[-> _] | [-> _]]; lia).
  rewrite Z.mod_mul, Z.div_mul by lia.
  replace (0 <? (Z.of_nat n + 1) * Zone.sizeof_PairLocation) with true
    by (symmetry; apply Z.ltb_lt; nia).
  simpl. f_equal. lia.
Qed.

Lemma address_of_inj n m : Zone.address_of n = Zone.address_of m -> n = m.
Proof.
  intros E. assert (S : Some n = Some m)
    by (rewrite <- !index_of_address_of, E; reflexivity).
  congruence.
Qed.

Lemma load_app (zone : Zone) (p : PairLocation) :
  Zone.load (zone ++ [p]) (Zone.address_of (List.length zone)) = Ok p.
Proof.
  unfold Zone.load. rewrite index_of_address_of. simpl.
  rewrite list_lookup_middle by reflexivity. reflexivity.
Qed.

Lemma store_app (zone : Zone) (p q : PairLocation) :
  Zone.store (zone ++ [p]) (Zone.address_of (List.length zone)) q
  = Ok (zone ++ [q]).
Proof.
  unfold Zone.store. rewrite index_of_address_of.
  replace (List.length zone <? List.length (zone ++ [p]))%nat with true
    by (symmetry; apply Nat.ltb_lt; rewrite length_app; simpl; lia).
  rewrite insert_app_r_alt by lia. rewrite Nat.sub_diag. reflexivity.
Qed.

(** The word of a pair reference to the pair at [address]. *)
Lemma pair_word_tag address :
  Z.land address kLocationTagMask = 0 ->
  Z.land (Z.lor address kPairLocationTag) kLocationTagMask = kPairLocationTag.
Proof. intros A. rewrite Z.land_lor_distr_l, A. reflexivity. Qed.

Lemma address_of_tag n : Z.land (Zone.address_of n) kLocationTagMask = 0.
Proof.
  destruct (address_of_aligned n) as (q & _ & ->).
  change kLocationTagMask with (Z.ones 2). rewrite Z.land_ones by lia.
  change (2 ^ 2) with 4. rewrite Z.mul_comm. apply Z.mod_mul. lia.
Qed.

Lemma pair_word_address address :
  0 <= address < 2 ^ kBitsPerWord -> Z.land address kLocationTagMask = 0 ->
  Z.land (Z.lor address kPairLocationTag) (uword_not kLocationTagMask)
  = address.
Proof.
  intros R A. apply Z.bits_inj'. intros i Hi.
  rewrite Z.land_spec, Z.lor_spec, testbit_uword_not by lia.
  assert (B : Z.testbit (Z.land address kLocationTagMask) i = false)
    by (rewrite A; apply Z.testbit_0_l).
  rewrite Z.land_spec in B. change kLocationTagMask with (Z.ones 2) in *.
  destruct (Z.ltb_spec i 2).
  - rewrite (Z.ones_spec_low 2 i) in B by lia. rewrite andb_true_r in B.
    rewrite (Z.ones_spec_low 2 i), B by lia. simpl.
    rewrite !andb_false_r. reflexivity.
  - rewrite (Z.ones_spec_high 2 i) by lia.
    replace (Z.testbit kPairLocationTag i) with false
      by (symmetry; apply (testbit_small 2 2); lia).
    rewrite orb_false_r. simpl.
    destruct (Z.ltb_spec i kBitsPerWord); [apply andb_true_r |].
    rewrite (testbit_small address kBitsPerWord) by lia. reflexivity.
Qed.

Lemma has_room_range (zone : Zone) :
  has_room zone = true ->
  0 <= Zone.address_of (List.length zone) < 2 ^ kBitsPerWord.
Proof.
  unfold has_room. intros H. apply Z.leb_le in H.
  destruct (address_of_aligned (List.length zone)) as (q & ? & E).
  assert (0 < Zone.sizeof_PairLocation)
    by (destruct sizeof_PairLocation_cases as [[-> _] | [-> _]]; lia).
  lia.
Qed.

Lemma Pair_Ok first second (zone : Zone) :
  has_room zone = true ->
  PairRef.Pair first second zone
  = Ok (read (pair_word (List.length zone)), zone ++ [[first; second]]).
Proof.
  intros H. unfold PairRef.Pair, Zone.new_PairLocation.
  rewrite new_PairLocation_Ok. simpl. unfold has_room in H. rewrite H. simpl.
  rewrite address_of_tag. simpl.
  rewrite load_app. simpl. rewrite store_app. simpl.
  rewrite load_app. simpl. rewrite store_app. reflexivity.
Qed.

Lemma Pair_Fatal first second (zone : Zone) :
  has_room zone = false -> PairRef.Pair first second zone = Fatal OutOfMemory.
Proof.
  intros H. unfold PairRef.Pair, Zone.new_PairLocation.
  rewrite new_PairLocation_Ok. simpl. unfold has_room in H. rewrite H.
  reflexivity.
Qed.

Lemma Pair_inv first second (zone : Zone) p zone' :
  PairRef.Pair first second zone = Ok (p, zone') ->
  has_room zone = true /\ p = read (pair_word (List.length zone))
  /\ zone' = zone ++ [[first; second]].
Proof.
  destruct (has_room zone) eqn:H.
  - rewrite Pair_Ok by assumption. intros [= <- <-]. auto.
  - rewrite Pair_Fatal by assumption. discriminate.
Qed.

Lemma IsPairLocation_pair_word n : IsPairLocation (read (pair_word n)) = true.
Proof.
  unfold IsPairLocation, value_, pair_word. simpl.
  rewrite pair_word_tag by apply address_of_tag. reflexivity.
Qed.

Lemma AsPairLocation_pair_word n :
  0 <= Zone.address_of n < 2 ^ kBitsPerWord ->
  PairRef.AsPairLocation (read (pair_word n)) = Ok (Zone.address_of n).
Proof.
  intros R. unfold PairRef.AsPairLocation.
  rewrite IsPairLocation_pair_word. simpl. unfold value_, pair_word. simpl.
  rewrite pair_word_address; auto using address_of_tag.
Qed.

Lemma Component_new (zone : Zone) first second i :
  has_room zone = true ->
  PairRef.Component (read (pair_word (List.length zone))) i
    (zone ++ [[first; second]])
  = TemplatePairLocation.At [first; second] i.
Proof.
  intros H. unfold PairRef.Component.
  rewrite AsPairLocation_pair_word by (apply has_room_range, H). simpl.
  rewrite load_app. reflexivity.
Qed.

Lemma pair_word_plus n : pair_word n = Zone.address_of n + 2.
Proof.
  unfold pair_word. apply Z.or_to_plus.
  transitivity (Z.land (Z.land (Zone.address_of n) kLocationTagMask) 2).
  - rewrite <- Z.land_assoc. reflexivity.
  - rewrite address_of_tag. reflexivity.
Qed.

Lemma pair_word_inj n m : pair_word n = pair_word m -> n = m.
Proof. rewrite !pair_word_plus. intros E. apply address_of_inj. lia. Qed.

Lemma At_Ok (p : PairLocation) i :
  List.length p = 2%nat -> 0 <= i < 2 ->
  exists loc,
    p !! Z.to_nat i = Some loc /\ TemplatePairLocation.At p i = Ok loc.
Proof.
  intros L Hi. unfold TemplatePairLocation.At, TemplatePairLocation.kPairLength.
  replace (0 <=? i) with true by lia. replace (i <? 2) with true by lia. simpl.
  destruct (lookup_lt_is_Some_2 p (Z.to_nat i)) as [loc E]; [lia |].
  rewrite E. eauto.
Qed.

Lemma At_Fatal (p : PairLocation) i :
  ~ 0 <= i < 2 -> TemplatePairLocation.At p i = Fatal AssertionFailed.
Proof.
  intros Hi. unfold TemplatePairLocation.At, TemplatePairLocation.kPairLength.
  destruct (Z.leb_spec 0 i); simpl; [| reflexivity].
  replace (i <? 2) with false by lia. reflexivity.
Qed.

Lemma SetAt_length (p p' : PairLocation) i loc :
  TemplatePairLocation.SetAt p i loc = Ok p' -> List.length p' = List.length p.
Proof.
  unfold TemplatePairLocation.SetAt. intros H. repeat bind_inv H.
  destruct (Z.to_nat i <? List.length p)%nat; [| discriminate].
  injection H as <-. apply length_insert.
Qed.

Lemma SetAt_Fatal (p : PairLocation) i loc :
  ~ 0 <= i < 2 -> TemplatePairLocation.SetAt p i loc = Fatal AssertionFailed.
Proof.
  intros Hi.
  unfold TemplatePairLocation.SetAt, TemplatePairLocation.kPairLength.
  destruct (Z.leb_spec 0 i); simpl; [| reflexivity].
  replace (i <? 2) with false by lia. reflexivity.
Qed.
End PairFacts.

Section EncodingFacts.
Context {target : Target}.
Import Location.

Lemma in_range_payload c :
  in_range c = true -> is_constant_call c = false ->
  0 <= kind_of c < 32 /\ 0 <= payload_of c < 2 ^ kPayloadBitsSize.
Proof.
  pose proof layout_bounds as (P & I & B & S & E & E2 & W).
  assert (L3 : 2 ^ 3 <= 2 ^ kPayloadBitsSize) by (apply Z.pow_le_mono_r; lia).
  destruct c as [| pol | r | r | o r | o r | o r | obj]; simpl; intros H C;
    try discriminate C;
    try (apply in_range_stack in H as [? ?];
         split; [cbv; split; congruence | apply stack_payload_range; assumption]).
  - split; cbv; split; congruence || (change (0 < 2 ^ kPayloadBitsSize); lia).
  - pose proof (Policy_code_range pol). split; [cbv; split; congruence | lia].
  - split; [cbv; split; congruence | lia].
  - split; [cbv; split; congruence | lia].
Qed.

Lemma stack_payload_inj o1 r1 o2 r2 :
  stack_index_in_range o1 && base_in_range r1 = true ->
  stack_index_in_range o2 && base_in_range r2 = true ->
  stack_payload o1 r1 = stack_payload o2 r2 -> o1 = o2 /\ r1 = r2.
Proof.
  intros H1 H2 E. pose proof layout_bounds as (P & I & B & S & Eb & E2 & W).
  apply in_range_stack in H1 as [? ?]. apply in_range_stack in H2 as [? ?].
  assert (L : BitField.decode (BitField.Field 0 kBitsForBaseReg) (stack_payload o1 r1)
              = BitField.decode (BitField.Field 0 kBitsForBaseReg) (stack_payload o2 r2))
    by congruence.
  assert (U : BitField.decode (BitField.Field kBitsForBaseReg kBitsForStackIndex)
                (stack_payload o1 r1)
              = BitField.decode (BitField.Field kBitsForBaseReg kBitsForStackIndex)
                  (stack_payload o2 r2))
    by congruence.
  unfold stack_payload in L, U.
  rewrite !decode_low_pack in L by lia.
  rewrite !decode_high_pack in U by lia. lia.
Qed.

Lemma constant_word_plus obj :
  Z.land obj kLocationTagMask = 0 -> Z.lor obj kConstantTag = obj + 1.
Proof.
  intros A. apply Z.or_to_plus.
  transitivity (Z.land (Z.land obj kLocationTagMask) 1).
  - rewrite <- Z.land_assoc. reflexivity.
  - rewrite A. reflexivity.
Qed.

Lemma constant_word_tag obj :
  Z.land obj kLocationTagMask = 0 ->
  Z.land (Z.lor obj kConstantTag) kLocationTagMask = kConstantTag.
Proof. intros A. rewrite Z.land_lor_distr_l, A. reflexivity. Qed.

Lemma non_tagged_kind_of c :
  is_constant_call c = false -> In (kind_of c) non_tagged_kinds.
Proof. destruct c; simpl; intros C; try discriminate C; tauto. Qed.

Lemma word_of_tag c :
  is_constant_call c = false ->
  Z.land (word_of c) kLocationTagMask = 0
  \/ Z.land (word_of c) kLocationTagMask = 3.
Proof.
  intros C. assert (word_of c = pack 5 (kind_of c) (payload_of c)) as ->
    by (destruct c; try discriminate C; reflexivity).
  rewrite tag_pack. apply non_tagged_kind_cases, non_tagged_kind_of, C.
Qed.

(** The packed word determines the call. *)
Lemma word_of_inj c1 c2 :
  in_range c1 = true -> in_range c2 = true ->
  word_of c1 = word_of c2 -> c1 = c2.
Proof.
  intros R1 R2 E.
  destruct (is_constant_call c1) eqn:C1, (is_constant_call c2) eqn:C2.
  - destruct c1, c2; try discriminate. simpl in *.
    rewrite !constant_word_plus in E by lia. f_equal. lia.
  - exfalso. destruct (word_of_tag c2 C2) as [T | T]; rewrite <- E in T;
      destruct c1; try discriminate C1; simpl in R1, T;
      rewrite constant_word_tag in T by lia; discriminate T.
  - exfalso. destruct (word_of_tag c1 C1) as [T | T]; rewrite E in T;
      destruct c2; try discriminate C2; simpl in R2, T;
      rewrite constant_word_tag in T by lia; discriminate T.
  - destruct (in_range_payload c1 R1 C1) as [K1 P1].
    destruct (in_range_payload c2 R2 C2) as [K2 P2].
    assert (W1 : word_of c1 = pack 5 (kind_of c1) (payload_of c1))
      by (destruct c1; try discriminate C1; reflexivity).
    assert (W2 : word_of c2 = pack 5 (kind_of c2) (payload_of c2))
      by (destruct c2; try discriminate C2; reflexivity).
    rewrite W1, W2 in E.
    assert (K : kind_of c1 = kind_of c2).
    { rewrite <- (kind_pack (kind_of c1) (payload_of c1)) by assumption.
      rewrite E. apply kind_pack. assumption. }
    assert (P : payload_of c1 = payload_of c2).
    { rewrite <- (payload_pack (kind_of c1) (payload_of c1)) by assumption.
      rewrite E. apply payload_pack; assumption. }
    destruct c1, c2; try discriminate K; try discriminate C1; try discriminate C2;
      simpl in P, R1, R2;
      try reflexivity;
      try (f_equal; auto using Policy_code_inj; fail);
      destruct (stack_payload_inj _ _ _ _ R1 R2 P); congruence.
Qed.

Lemma Constant_tag obj loc : Constant obj = Ok loc -> IsConstant loc = true.
Proof.
  unfold Constant, constant_instruction. intros H.
  destruct (IsConstant (read (Z.lor (to_uword obj) kConstantTag))) eqn:C;
    simpl in H; [| discriminate].
  bind_inv H. injection H as <-. exact C.
Qed.

(** No constructor call returns a word with the pair tag. *)
Lemma construct_tag c loc :
  construct c = Ok loc ->
  Z.land (write loc) kLocationTagMask <> kPairLocationTag
  /\ (is_constant_call c = false ->
      Z.land (write loc) kLocationTagMask <> kConstantTag).
Proof.
  intros H. destruct (is_constant_call c) eqn:C.
  - destruct c; try discriminate C. simpl in H. apply Constant_tag in H.
    unfold IsConstant, value_ in H. apply Z.eqb_eq in H. rewrite H.
    split; [discriminate | discriminate].
  - destruct (construct_inv c loc C H) as (p & K & _ & ->). simpl.
    rewrite tag_pack.
    destruct (non_tagged_kind_cases _ K) as [_ [-> | ->]]; split; discriminate.
Qed.
End EncodingFacts.

Section LocationClaims.
Context {target : Target}.
Import Location.

Lemma Equals_false a b : write a <> write b -> Equals a b = false.
Proof. intros N. apply Z.eqb_neq. exact N. Qed.

(** C1.  [Equals] is equality of the raw packed words, and the words are
    disjoint: two different calls of the public constructors with
    arguments in range return different words, on which [Equals] is
    false; the reference [Pair] returns differs from every word the other
    constructors return and from the reference of every pair allocated
    later in the zone. *)
Theorem C1_equals_is_raw_equality_and_encodings_are_disjoint :
  (forall a b, Equals a b = true <-> write a = write b)
  /\ (forall c1 c2,
        in_range c1 = true -> in_range c2 = true -> c1 <> c2 ->
        exists a b, construct c1 = Ok a /\ construct c2 = Ok b
                    /\ write a <> write b /\ Equals a b = false)
  /\ (forall first second (zone : Zone) p zone',
        PairRef.Pair first second zone = Ok (p, zone') ->
        (forall c a, construct c = Ok a ->
                     write p <> write a /\ Equals p a = false)
        /\ (forall first' second' (zone2 : Zone) p' zone2',
              (List.length zone' <= List.length zone2)%nat ->
              PairRef.Pair first' second' zone2 = Ok (p', zone2') ->
              write p <> write p' /\ Equals p p' = false)).
Proof.
  split; [| split].
  - intros a b. unfold Equals, value_. apply Z.eqb_eq.
  - intros c1 c2 R1 R2 N.
    exists (read (word_of c1)), (read (word_of c2)).
    rewrite !construct_Ok by assumption.
    assert (D : word_of c1 <> word_of c2)
      by (intros E; apply N, word_of_inj; assumption).
    repeat split; [exact D | apply Equals_false, D].
  - intros first second zone p zone' H.
    apply Pair_inv in H as (_ & -> & ->). split.
    + intros c a C. apply construct_tag in C as [T _].
      assert (D : pair_word (List.length zone) <> write a).
      { intros E. apply T. rewrite <- E.
        apply pair_word_tag, address_of_tag. }
      split; [exact D | apply Equals_false, D].
    + intros first' second' zone2 p' zone2' L H.
      apply Pair_inv in H as (_ & -> & _).
      assert (D : pair_word (List.length zone) <> pair_word (List.length zone2)).
      { intros E. apply pair_word_inj in E. rewrite length_app in L. simpl in L.
        lia. }
      split; [exact D | apply Equals_false, D].
Qed.

(** C2.  For a stack index within the bias and a valid base register, each
    of [StackSlot], [DoubleStackSlot] and [QuadStackSlot] returns a
    location whose [stack_index()] is the index and whose [base_reg()] is
    the register; for an index outside the bias the construction fails its
    check.  The bias is half the range of the index field. *)
Theorem C2_stack_slot_round_trip make o r :
  COMPILE_ASSERT_base_reg = true ->
  0 <= r < kNumberOfCpuRegisters ->
  In make stack_slot_constructors ->
  2 * kStackIndexBias = 2 ^ kBitsForStackIndex
  /\ (- kStackIndexBias <= o < kStackIndexBias ->
      exists loc, make o r = Ok loc
                  /\ stack_index loc = Ok o /\ base_reg loc = Ok r)
  /\ (~ (- kStackIndexBias <= o < kStackIndexBias) ->
      make o r = Fatal AssertionFailed).
Proof.
  intros CA Hr M. pose proof layout_bounds as (P & I & B & S & E & E2 & W).
  assert (Hr' : 0 <= r < 2 ^ kBitsForBaseReg).
  { unfold COMPILE_ASSERT_base_reg in CA. apply Z.leb_le in CA.
    rewrite Z.shiftl_1_l in CA. lia. }
  assert (K : exists k, stack_kind k /\ make = stack_slot_of_kind k).
  { simpl in M. unfold stack_kind.
    destruct M as [<- | [<- | [<- | []]]]; eauto. }
  destruct K as (k & K & ->).
  split; [exact E2 | split].
  - intros Ho. exists (read (stack_word k o r)).
    rewrite stack_slot_of_kind_Ok, stack_index_stack_word, base_reg_stack_word;
      auto.
  - intros Ho. apply stack_slot_of_kind_Fatal, Ho.
Qed.

(** C3.  The low two bits of no non-tagged kind code are the constant tag
    or the pair tag, as the COMPILE_ASSERTs of the constructor check;
    hence no location returned by the Invalid, Unallocated, stack slot,
    Register or FpuRegister constructors has those tag bits, and
    [IsConstant] and [IsPairLocation] are false on it. *)
Theorem C3_tag_non_collision :
  COMPILE_ASSERT_tags = true
  /\ (forall k, In k non_tagged_kinds ->
                Z.land k kLocationTagMask <> kConstantTag
                /\ Z.land k kLocationTagMask <> kPairLocationTag)
  /\ (forall c loc,
        is_constant_call c = false -> construct c = Ok loc ->
        Z.land (write loc) kLocationTagMask <> kConstantTag
        /\ Z.land (write loc) kLocationTagMask <> kPairLocationTag
        /\ IsConstant loc = false /\ IsPairLocation loc = false).
Proof.
  split; [reflexivity | split].
  - intros k K. destruct (non_tagged_kind_cases k K) as [_ [-> | ->]];
      split; discriminate.
  - intros c loc C H. destruct (construct_tag c loc H) as [T2 T1].
    specialize (T1 C). unfold IsConstant, IsPairLocation, value_.
    repeat split; try assumption; apply Z.eqb_neq; assumption.
Qed.

(** C5.  [Pair(x, y)] returns a pair reference [p] that is not a register,
    whose components 0 and 1 are equal to [x] and [y] and whose pair has
    length 2.  A freshly constructed pair holds Invalid in both slots; a
    pair is indexed by 0 and 1, any other index failing the bounds check,
    and [SetAt] keeps its size. *)
Theorem C5_pair_round_trip :
  (forall x y (zone : Zone),
      has_room zone = true ->
      exists p zone' c0 c1,
        PairRef.Pair x y zone = Ok (p, zone')
        /\ IsPairLocation p = true /\ IsRegister p = false
        /\ PairRef.Component p 0 zone' = Ok c0 /\ Equals c0 x = true
        /\ PairRef.Component p 1 zone' = Ok c1 /\ Equals c1 y = true
        /\ PairRef.length p zone' = Ok 2)
  /\ (exists fresh : PairLocation,
        TemplatePairLocation.new = Ok fresh
        /\ List.length fresh = 2%nat
        /\ TemplatePairLocation.length fresh = 2
        /\ (forall i, 0 <= i < 2 ->
              exists loc, TemplatePairLocation.At fresh i = Ok loc
                          /\ IsInvalid loc = true))
  /\ (forall (p : PairLocation) i,
        List.length p = 2%nat -> 0 <= i < 2 ->
        exists loc, p !! Z.to_nat i = Some loc
                    /\ TemplatePairLocation.At p i = Ok loc)
  /\ (forall (p : PairLocation) i loc,
        ~ 0 <= i < 2 ->
        TemplatePairLocation.At p i = Fatal AssertionFailed
        /\ TemplatePairLocation.SetAt p i loc = Fatal AssertionFailed)
  /\ (forall (p p' : PairLocation) i loc,
        TemplatePairLocation.SetAt p i loc = Ok p' ->
        List.length p' = List.length p
        /\ TemplatePairLocation.length p' = TemplatePairLocation.length p).
Proof.
  split; [| split; [| split; [| split]]].
  - intros x y zone R.
    exists (read (pair_word (List.length zone))), (zone ++ [[x; y]]), x, y.
    rewrite Pair_Ok, !Component_new by assumption.
    pose proof (IsPairLocation_pair_word (List.length zone)) as T.
    repeat split; try assumption; try reflexivity.
    + unfold IsRegister. apply Z.eqb_neq. intros K.
      unfold IsPairLocation, value_ in T. apply Z.eqb_eq in T.
      pose proof (kind_range (read (pair_word (List.length zone)))) as KR.
      pose proof (payload_range (read (pair_word (List.length zone)))) as PR.
      assert (V : 0 <= pair_word (List.length zone) < 2 ^ kBitsPerWord).
      { rewrite pair_word_plus. pose proof (has_room_range zone R).
        unfold has_room in R. apply Z.leb_le in R.
        destruct sizeof_PairLocation_cases as [[S _] | [S _]]; rewrite S in R; lia.
        }
      rewrite (value_unpack (read (pair_word (List.length zone)))) in T by exact V.
      rewrite tag_pack, K in T. discriminate T.
    + unfold Equals. apply Z.eqb_refl.
    + unfold Equals. apply Z.eqb_refl.
    + unfold PairRef.length.
      rewrite AsPairLocation_pair_word by (apply has_room_range, R). simpl.
      rewrite load_app. reflexivity.
  - exists [read 0; read 0]. repeat split.
    intros i Hi. assert (i = 0 \/ i = 1) as [-> | ->] by lia;
      exists (read 0); split; reflexivity.
  - apply At_Ok.
  - intros p i loc Hi. split; [apply At_Fatal | apply SetAt_Fatal]; exact Hi.
  - intros p p' i loc H.
    split; [eapply SetAt_length; eassumption | reflexivity].
Qed.
End LocationClaims.

(** ** Register sets *)

Section SmallSetFacts.
Context {target : Target}.

Lemma one_shl_low n : 0 <= n < 31 -> to_int (Z.shiftl 1 n) = 2 ^ n.
Proof.
  intros H. unfold to_int. rewrite Z.shiftl_1_l.
  assert (0 < 2 ^ n <= 2 ^ 30)
    by (split; [apply Z.pow_pos_nonneg | apply Z.pow_le_mono_r]; lia).
  rewrite Z.mod_small; lia.
Qed.

Lemma one_shl_31 : to_int (Z.shiftl 1 31) = - 2 ^ 31.
Proof. reflexivity. Qed.

(** The narrowing cast keeps the value of an [int]. *)
Lemma to_int_small x : is_int x = true -> to_int x = x.
Proof. unfold is_int, to_int. intros H. rewrite Z.mod_small by lia. lia. Qed.

Lemma maskable_is_int v : maskable v = true -> is_int v = true.
Proof. unfold maskable, is_int. lia. Qed.

Lemma to_int_maskable v : maskable v = true -> to_int v = v.
Proof. intros M. apply to_int_small, maskable_is_int, M. Qed.

Lemma ToMask_Ok value :
  maskable value = true ->
  SmallSet.ToMask value = Ok (to_int (Z.shiftl 1 value)).
Proof.
  unfold maskable. intros H. pose proof kBitsPerWord_pos as W.
  unfold kBitsPerWord in W. unfold SmallSet.ToMask, int_one_shl.
  replace (value <? kWordSize * kBitsPerByte) with true by lia. simpl.
  rewrite H. reflexivity.
Qed.

(** A value without a mask: the check fails from the word size on, and
    below it the shift has no defined result. *)
Lemma ToMask_Fatal value :
  maskable value = false ->
  SmallSet.ToMask value
  = Fatal (if kBitsPerWord <=? value then AssertionFailed
           else UndefinedBehavior).
Proof.
  unfold maskable, SmallSet.ToMask, int_one_shl. intros M.
  change (kWordSize * kBitsPerByte) with kBitsPerWord.
  destruct (Z.leb_spec kBitsPerWord value).
  - replace (value <? kBitsPerWord) with false by lia. reflexivity.
  - replace (value <? kBitsPerWord) with true by lia.
    cbn [mbind Checked_bind ASSERT]. rewrite M. reflexivity.
Qed.

Lemma mask_facts value :
  maskable value = true ->
  to_int (Z.shiftl 1 value) <> 0 /\ is_int (to_int (Z.shiftl 1 value)) = true.
Proof.
  unfold maskable. intros H.
  destruct (Z.eq_dec value 31) as [-> | N].
  - rewrite one_shl_31. split; [lia | reflexivity].
  - rewrite one_shl_low by lia.
    assert (0 < 2 ^ value <= 2 ^ 30)
      by (split; [apply Z.pow_pos_nonneg | apply Z.pow_le_mono_r]; lia).
    unfold is_int. split; lia.
Qed.

Lemma ToMask_not_Unreachable value : SmallSet.ToMask value <> Fatal Unreachable.
Proof.
  unfold SmallSet.ToMask, int_one_shl.
  destruct (value <? kWordSize * kBitsPerByte); simpl; [| discriminate].
  destruct ((0 <=? value) && (value <? 32)); discriminate.
Qed.

Lemma land_lor_same d m : Z.land (Z.lor d m) m = m.
Proof.
  apply Z.bits_inj'. intros i _. rewrite Z.land_spec, Z.lor_spec.
  destruct (Z.testbit d i), (Z.testbit m i); reflexivity.
Qed.

Lemma lor_lor_same d m : Z.lor (Z.lor d m) m = Z.lor d m.
Proof. rewrite <- Z.lor_assoc, Z.lor_diag. reflexivity. Qed.

Lemma land_lnot_same m : Z.land (Z.lor 0 m) (Z.lnot m) = 0.
Proof. rewrite Z.lor_0_l. apply Z.land_lnot_diag. Qed.

Lemma lor_nonzero d m : m <> 0 -> Z.lor d m <> 0.
Proof. intros N E. apply Z.lor_eq_0_iff in E. tauto. Qed.

Lemma land_pow2 d n : 0 <= n -> (Z.land d (2 ^ n) =? 0) = negb (Z.testbit d n).
Proof.
  intros Hn. destruct (Z.testbit d n) eqn:B; simpl.
  - apply Z.eqb_neq. intros E.
    assert (T : Z.testbit (Z.land d (2 ^ n)) n = false)
      by (rewrite E; apply Z.testbit_0_l).
    rewrite Z.land_spec, B, Z.pow2_bits_true in T by lia. discriminate.
  - apply Z.eqb_eq, Z.bits_inj'. intros i Hi.
    rewrite Z.land_spec, Z.pow2_bits_eqb, Z.testbit_0_l by lia.
    destruct (Z.eqb_spec n i) as [<- | _]; [rewrite B |]; auto using andb_false_r.
Qed.

Lemma testbit_int_sign d : is_int d = true -> Z.testbit d 31 = (d <? 0).
Proof.
  unfold is_int. intros H. destruct (Z.ltb_spec d 0).
  - replace d with (Z.lnot (- d - 1)) by (unfold Z.lnot; lia).
    rewrite Z.lnot_spec by lia.
    rewrite (testbit_small (- d - 1) 31) by lia. reflexivity.
  - apply (testbit_small d 31); lia.
Qed.

Lemma land_int_min d :
  is_int d = true -> (Z.land d (- 2 ^ 31) =? 0) = negb (Z.testbit d 31).
Proof.
  intros H. rewrite testbit_int_sign by assumption. unfold is_int in H.
  destruct (Z.ltb_spec d 0); simpl.
  - apply Z.eqb_neq. intros E.
    assert (N : 0 <= Z.land d (- 2 ^ 31)) by lia.
    apply Z.land_nonneg in N. lia.
  - apply Z.eqb_eq, Z.bits_inj'. intros i Hi.
    rewrite Z.land_spec, Z.testbit_0_l.
    destruct (Z.ltb_spec i 31).
    + replace (- 2 ^ 31) with (Z.shiftl (-1) 31) by reflexivity.
      rewrite Z.shiftl_spec_low by lia. apply andb_false_r.
    + rewrite (testbit_small d 31) by lia. reflexivity.
Qed.

(** [Contains] returns the bit of the value in the word. *)
Lemma SmallSet_Contains_testbit data_ value :
  maskable value = true -> value < 31 \/ is_int data_ = true ->
  SmallSet.Contains data_ value = Ok (Z.testbit data_ value).
Proof.
  intros M H. unfold SmallSet.Contains. rewrite ToMask_Ok by assumption.
  simpl. f_equal. unfold maskable in M.
  destruct (Z.eq_dec value 31) as [-> | N].
  - rewrite one_shl_31. destruct H as [? | H]; [lia |].
    rewrite land_int_min by assumption. apply negb_involutive.
  - rewrite one_shl_low by lia. rewrite land_pow2 by lia. apply negb_involutive.
Qed.

(** The sets built from the empty one hold the value of an [int]. *)
Lemma is_int_bits d :
  is_int d = true <-> (forall i, 31 <= i -> Z.testbit d i = Z.testbit d 31).
Proof.
  split.
  - intros H i Hi. rewrite (testbit_int_sign d H). unfold is_int in H.
    destruct (Z.ltb_spec d 0).
    + replace d with (Z.lnot (- d - 1)) by (unfold Z.lnot; lia).
      rewrite Z.lnot_spec by lia.
      rewrite (testbit_small (- d - 1) 31) by lia. reflexivity.
    + apply (testbit_small d 31); lia.
  - intros H. unfold is_int. destruct (Z.testbit d 31) eqn:B.
    + assert (N : d < 0).
      { destruct (Z.lt_ge_cases d 0) as [? | P]; [assumption |].
        destruct (Z.eq_dec d 0) as [-> | ?]; [rewrite Z.testbit_0_l in B; discriminate |].
        pose proof (Z.bits_above_log2 d (Z.max 31 (Z.log2 d + 1)) P ltac:(lia)) as A.
        rewrite H in A by lia. congruence. }
      assert (0 <= - d - 1 < 2 ^ 31); [| lia].
      split; [lia |]. apply small_of_testbit; [lia | lia |]. intros i Hi.
      replace (- d - 1) with (Z.lnot d) by (unfold Z.lnot; lia).
      rewrite Z.lnot_spec, H by lia. reflexivity.
    + assert (P : 0 <= d).
      { destruct (Z.lt_ge_cases d 0) as [N | ?]; [| assumption].
        pose proof (Z.bits_above_log2_neg d (Z.max 31 (Z.log2 (Z.pred (- d)) + 1)) N
                      ltac:(lia)) as A.
        rewrite H in A by lia. congruence. }
      assert (d < 2 ^ 31); [| lia].
      apply small_of_testbit; [lia | lia |]. intros i Hi. rewrite H by lia.
      reflexivity.
Qed.

Lemma is_int_lor a b :
  is_int a = true -> is_int b = true -> is_int (Z.lor a b) = true.
Proof.
  rewrite !is_int_bits. intros A B i Hi. rewrite !Z.lor_spec, A, B by lia.
  reflexivity.
Qed.

Lemma is_int_land a b :
  is_int a = true -> is_int b = true -> is_int (Z.land a b) = true.
Proof.
  rewrite !is_int_bits. intros A B i Hi. rewrite !Z.land_spec, A, B by lia.
  reflexivity.
Qed.

Lemma is_int_lnot a : is_int a = true -> is_int (Z.lnot a) = true.
Proof.
  unfold is_int. intros H. pose proof (Z.add_lnot_diag a). lia.
Qed.
End SmallSetFacts.

Section RegisterSetFacts.
Context {target : Target}.
Import Location.

Lemma kind_tag loc :
  Z.land (kind loc) kLocationTagMask = Z.land (write loc) kLocationTagMask.
Proof.
  pose proof kBitsPerWord_pos. unfold kind, BitField.decode.
  rewrite mask_ones by (fields; lia). fields. unfold value_.
  rewrite Z.shiftr_0_r, <- Z.land_assoc. reflexivity.
Qed.

(** A word with one of the two tags is of no kind that is stored in the
    kind field. *)
Lemma tagged_kind loc :
  IsConstant loc = true \/ IsPairLocation loc = true ->
  ~ In (kind loc) non_tagged_kinds.
Proof.
  unfold IsConstant, IsPairLocation, value_. intros T K.
  apply non_tagged_kind_cases in K as [_ K]. rewrite kind_tag in K.
  destruct T as [T | T]; apply Z.eqb_eq in T; rewrite T in K;
    destruct K; discriminate.
Qed.

Lemma construct_kind c loc :
  construct c = Ok loc ->
  if is_constant_call c then IsConstant loc = true else kind loc = kind_of c.
Proof.
  intros H. destruct (is_constant_call c) eqn:C.
  - destruct c; try discriminate C. eapply Constant_tag, H.
  - destruct (construct_inv c loc C H) as (p & K & _ & ->).
    apply kind_pack. apply non_tagged_kind_cases, K.
Qed.

(** The calls other than the two register ones return a location that is
    neither a register nor an fpu register; so does [Pair]. *)
Lemma not_machine_register c loc :
  construct c = Ok loc -> is_machine_register_call c = false ->
  IsRegister loc = false /\ IsFpuRegister loc = false.
Proof.
  intros H M. apply construct_kind in H. unfold IsRegister, IsFpuRegister.
  destruct (is_constant_call c) eqn:C.
  - pose proof (tagged_kind loc (or_introl H)) as N.
    split; apply Z.eqb_neq; intros E; apply N; rewrite E; simpl; tauto.
  - rewrite H.
    destruct c; try discriminate M; try discriminate C; split; reflexivity.
Qed.

Lemma pair_not_machine_register loc :
  IsPairLocation loc = true ->
  IsRegister loc = false /\ IsFpuRegister loc = false.
Proof.
  intros H. pose proof (tagged_kind loc (or_intror H)) as N.
  unfold IsRegister, IsFpuRegister.
  split; apply Z.eqb_neq; intros E; apply N; rewrite E; simpl; tauto.
Qed.

(** What the two register calls return. *)
Lemma machine_register c :
  is_machine_register_call c = true -> in_range c = true ->
  exists loc, construct c = Ok loc /\ payload loc = payload_of c
              /\ kind loc = kind_of c
              /\ IsRegister loc = (kind_of c =? kRegister)
              /\ IsFpuRegister loc = (kind_of c =? kFpuRegister).
Proof.
  intros M R. exists (read (word_of c)). rewrite construct_Ok by assumption.
  assert (C : is_constant_call c = false) by (destruct c; try discriminate M; reflexivity).
  destruct (in_range_payload c R C) as [K P].
  assert (W : word_of c = pack 5 (kind_of c) (payload_of c))
    by (destruct c; try discriminate M; reflexivity).
  unfold IsRegister, IsFpuRegister.
  rewrite W, kind_pack, payload_pack by assumption.
  auto.
Qed.

Lemma RegisterCount_0 : RegisterSet.RegisterCount 0 = 0.
Proof.
  unfold RegisterSet.RegisterCount.
  destruct kBitsPerWord_cases as [-> | ->]; vm_compute; reflexivity.
Qed.

Lemma new_inv s0 :
  RegisterSet.new = Ok s0 ->
  s0 = {| cpu_registers_ := 0;
          untagged_cpu_registers_ := 0;
          fpu_registers_ := 0 |}.
Proof.
  unfold RegisterSet.new. intros H. repeat bind_inv H. injection H as <-.
  reflexivity.
Qed.

Lemma Add_not_register s loc rep :
  IsRegister loc = false -> IsFpuRegister loc = false ->
  RegisterSet.Add s loc rep = Ok s.
Proof. intros R F. unfold RegisterSet.Add. rewrite R, F. reflexivity. Qed.

Lemma Remove_not_register s loc :
  IsRegister loc = false -> IsFpuRegister loc = false ->
  RegisterSet.Remove s loc = Ok s.
Proof. intros R F. unfold RegisterSet.Remove. rewrite R, F. reflexivity. Qed.

Lemma Contains_not_register s loc :
  IsRegister loc = false -> IsFpuRegister loc = false ->
  RegisterSet.Contains s loc = Fatal Unreachable.
Proof. intros R F. unfold RegisterSet.Contains. rewrite R, F. reflexivity. Qed.

Lemma SmallSet_Contains_not_Unreachable d v :
  SmallSet.Contains d v <> Fatal Unreachable.
Proof.
  unfold SmallSet.Contains. pose proof (ToMask_not_Unreachable v).
  destruct (SmallSet.ToMask v) as [m | []]; simpl; congruence.
Qed.

Lemma Contains_register s loc :
  IsRegister loc = true ->
  RegisterSet.Contains s loc
  = RegisterSet.ContainsRegister s (to_int (payload loc)).
Proof.
  intros R. unfold RegisterSet.Contains, reg. rewrite R. reflexivity.
Qed.

Lemma Contains_fpu_register s loc :
  IsRegister loc = false -> IsFpuRegister loc = true ->
  RegisterSet.Contains s loc
  = RegisterSet.ContainsFpuRegister s (to_int (payload loc)).
Proof.
  intros R F. unfold RegisterSet.Contains, fpu_reg. rewrite R, F. reflexivity.
Qed.

(** A location of which [reg] returns a register is a register location,
    and one of which [fpu_reg] returns one is an fpu register location. *)
Lemma reg_inv loc r :
  reg loc = Ok r ->
  IsRegister loc = true /\ IsFpuRegister loc = false
  /\ r = to_int (payload loc).
Proof.
  unfold reg, IsFpuRegister. destruct (IsRegister loc) eqn:R;
    cbn [mbind Checked_bind ASSERT]; [| discriminate].
  intros [= <-]. unfold IsRegister in R. apply Z.eqb_eq in R. rewrite R. auto.
Qed.

Lemma fpu_reg_inv loc r :
  fpu_reg loc = Ok r ->
  IsRegister loc = false /\ IsFpuRegister loc = true
  /\ r = to_int (payload loc).
Proof.
  unfold fpu_reg, IsRegister. destruct (IsFpuRegister loc) eqn:F;
    cbn [mbind Checked_bind ASSERT]; [| discriminate].
  intros [= <-]. unfold IsFpuRegister in F. apply Z.eqb_eq in F. rewrite F.
  auto.
Qed.

Lemma Contains_reg s loc r :
  reg loc = Ok r ->
  RegisterSet.Contains s loc = RegisterSet.ContainsRegister s r.
Proof.
  intros E. destruct (reg_inv loc r E) as (R & _ & ->).
  apply Contains_register, R.
Qed.

Lemma Contains_fpu_reg s loc r :
  fpu_reg loc = Ok r ->
  RegisterSet.Contains s loc = RegisterSet.ContainsFpuRegister s r.
Proof.
  intros E. destruct (fpu_reg_inv loc r E) as (R & F & ->).
  apply Contains_fpu_register; assumption.
Qed.

(** A register without a mask: every member that reads the register of
    the location fails, as [ToMask] does. *)
Lemma register_Fatal s loc rep r :
  reg loc = Ok r -> maskable r = false ->
  RegisterSet.Add s loc rep
  = Fatal (if kBitsPerWord <=? r then AssertionFailed else UndefinedBehavior)
  /\ RegisterSet.Remove s loc
     = Fatal (if kBitsPerWord <=? r then AssertionFailed
              else UndefinedBehavior)
  /\ RegisterSet.Contains s loc
     = Fatal (if kBitsPerWord <=? r then AssertionFailed
              else UndefinedBehavior)
  /\ RegisterSet.MarkUntagged s loc
     = Fatal (if kBitsPerWord <=? r then AssertionFailed
              else UndefinedBehavior).
Proof.
  intros E M. destruct (reg_inv loc r E) as (R & _ & _).
  unfold RegisterSet.Add, RegisterSet.Remove, RegisterSet.Contains,
    RegisterSet.MarkUntagged, RegisterSet.ContainsRegister, SmallSet.Add,
    SmallSet.Remove, SmallSet.Contains.
  rewrite R, E. cbn [mbind Checked_bind ASSERT].
  rewrite (ToMask_Fatal _ M). auto.
Qed.

Lemma fpu_register_Fatal s loc rep r :
  fpu_reg loc = Ok r -> maskable r = false ->
  RegisterSet.Add s loc rep
  = Fatal (if kBitsPerWord <=? r then AssertionFailed else UndefinedBehavior)
  /\ RegisterSet.Remove s loc
     = Fatal (if kBitsPerWord <=? r then AssertionFailed
              else UndefinedBehavior)
  /\ RegisterSet.Contains s loc
     = Fatal (if kBitsPerWord <=? r then AssertionFailed
              else UndefinedBehavior).
Proof.
  intros E M. destruct (fpu_reg_inv loc r E) as (R & F & _).
  unfold RegisterSet.Add, RegisterSet.Remove, RegisterSet.Contains,
    RegisterSet.ContainsFpuRegister, SmallSet.Add, SmallSet.Remove,
    SmallSet.Contains.
  rewrite R, F, E. cbn [mbind Checked_bind ASSERT].
  rewrite (ToMask_Fatal _ M). auto.
Qed.

(** The two register constructors return a location of which [reg], or
    [fpu_reg], returns the code. *)
Lemma constructed_register c :
  is_machine_register_call c = true -> in_range c = true ->
  is_int (payload_of c) = true ->
  exists loc,
    construct c = Ok loc
    /\ (if kind_of c =? kRegister then reg loc else fpu_reg loc)
       = Ok (payload_of c).
Proof.
  intros MC R I.
  destruct (machine_register c MC R) as (loc & C & P & K & IR & IF).
  exists loc. split; [exact C |]. unfold reg, fpu_reg.
  rewrite IR, IF, P, (to_int_small _ I).
  destruct c; try discriminate MC; reflexivity.
Qed.
End RegisterSetFacts.

Section RegisterSetClaims.
Context {target : Target}.
Import Location.

Lemma Representation_eqb_eq a b : Representation_eqb a b = true <-> a = b.
Proof. destruct a, b; simpl; split; congruence. Qed.

Lemma IsMachineRegister_iff loc :
  IsMachineRegister loc = IsRegister loc || IsFpuRegister loc.
Proof. reflexivity. Qed.

(** What [Add] and [Remove] do with a register location whose code has a
    mask. *)
Lemma Add_register s loc rep :
  IsRegister loc = true -> maskable (payload loc) = true ->
  RegisterSet.Add s loc rep
  = Ok {| cpu_registers_ :=
            Z.lor (cpu_registers_ s) (to_int (Z.shiftl 1 (payload loc)));
          untagged_cpu_registers_ :=
            if Representation_eqb rep kTagged then untagged_cpu_registers_ s
            else Z.lor (untagged_cpu_registers_ s)
                       (to_int (Z.shiftl 1 (payload loc)));
          fpu_registers_ := fpu_registers_ s |}.
Proof.
  intros R M.
  unfold RegisterSet.Add, RegisterSet.MarkUntagged, reg, SmallSet.Add.
  rewrite R. cbn [mbind Checked_bind ASSERT].
  rewrite (to_int_maskable _ M), ToMask_Ok by assumption.
  cbn [mbind Checked_bind ASSERT negb].
  destruct (Representation_eqb rep kTagged); reflexivity.
Qed.

Lemma Add_fpu_register s loc rep :
  IsRegister loc = false -> IsFpuRegister loc = true ->
  maskable (payload loc) = true ->
  RegisterSet.Add s loc rep
  = Ok {| cpu_registers_ := cpu_registers_ s;
          untagged_cpu_registers_ := untagged_cpu_registers_ s;
          fpu_registers_ :=
            Z.lor (fpu_registers_ s) (to_int (Z.shiftl 1 (payload loc))) |}.
Proof.
  intros R F M. unfold RegisterSet.Add, fpu_reg, SmallSet.Add.
  rewrite R, F. cbn [mbind Checked_bind ASSERT].
  rewrite (to_int_maskable _ M), ToMask_Ok by assumption. reflexivity.
Qed.

Lemma Remove_register s loc :
  IsRegister loc = true -> maskable (payload loc) = true ->
  RegisterSet.Remove s loc
  = Ok {| cpu_registers_ :=
            Z.land (cpu_registers_ s)
                   (Z.lnot (to_int (Z.shiftl 1 (payload loc))));
          untagged_cpu_registers_ := untagged_cpu_registers_ s;
          fpu_registers_ := fpu_registers_ s |}.
Proof.
  intros R M. unfold RegisterSet.Remove, reg, SmallSet.Remove.
  rewrite R. cbn [mbind Checked_bind ASSERT].
  rewrite (to_int_maskable _ M), ToMask_Ok by assumption. reflexivity.
Qed.

Lemma Remove_fpu_register s loc :
  IsRegister loc = false -> IsFpuRegister loc = true ->
  maskable (payload loc) = true ->
  RegisterSet.Remove s loc
  = Ok {| cpu_registers_ := cpu_registers_ s;
          untagged_cpu_registers_ := untagged_cpu_registers_ s;
          fpu_registers_ :=
            Z.land (fpu_registers_ s)
                   (Z.lnot (to_int (Z.shiftl 1 (payload loc)))) |}.
Proof.
  intros R F M. unfold RegisterSet.Remove, fpu_reg, SmallSet.Remove.
  rewrite R, F. cbn [mbind Checked_bind ASSERT].
  rewrite (to_int_maskable _ M), ToMask_Ok by assumption. reflexivity.
Qed.

Lemma SmallSet_Contains_Ok d v :
  maskable v = true ->
  SmallSet.Contains d v = Ok (negb (Z.land d (to_int (Z.shiftl 1 v)) =? 0)).
Proof. intros M. unfold SmallSet.Contains. rewrite ToMask_Ok by assumption.
  reflexivity. Qed.

(** The same for the register that [reg], or [fpu_reg], returns. *)
Lemma Add_reg s loc rep r :
  reg loc = Ok r -> maskable r = true ->
  RegisterSet.Add s loc rep
  = Ok {| cpu_registers_ := Z.lor (cpu_registers_ s) (to_int (Z.shiftl 1 r));
          untagged_cpu_registers_ :=
            if Representation_eqb rep kTagged then untagged_cpu_registers_ s
            else Z.lor (untagged_cpu_registers_ s) (to_int (Z.shiftl 1 r));
          fpu_registers_ := fpu_registers_ s |}.
Proof.
  intros E M. destruct (reg_inv loc r E) as (R & _ & _).
  unfold RegisterSet.Add, RegisterSet.MarkUntagged, SmallSet.Add.
  rewrite R, E. cbn [mbind Checked_bind ASSERT].
  rewrite ToMask_Ok by assumption. cbn [mbind Checked_bind ASSERT negb].
  destruct (Representation_eqb rep kTagged); reflexivity.
Qed.

Lemma Add_fpu_reg s loc rep r :
  fpu_reg loc = Ok r -> maskable r = true ->
  RegisterSet.Add s loc rep
  = Ok {| cpu_registers_ := cpu_registers_ s;
          untagged_cpu_registers_ := untagged_cpu_registers_ s;
          fpu_registers_ :=
            Z.lor (fpu_registers_ s) (to_int (Z.shiftl 1 r)) |}.
Proof.
  intros E M. destruct (fpu_reg_inv loc r E) as (R & F & _).
  unfold RegisterSet.Add, SmallSet.Add.
  rewrite R, F, E. cbn [mbind Checked_bind ASSERT].
  rewrite ToMask_Ok by assumption. reflexivity.
Qed.

Lemma Remove_reg s loc r :
  reg loc = Ok r -> maskable r = true ->
  RegisterSet.Remove s loc
  = Ok {| cpu_registers_ :=
            Z.land (cpu_registers_ s) (Z.lnot (to_int (Z.shiftl 1 r)));
          untagged_cpu_registers_ := untagged_cpu_registers_ s;
          fpu_registers_ := fpu_registers_ s |}.
Proof.
  intros E M. destruct (reg_inv loc r E) as (R & _ & _).
  unfold RegisterSet.Remove, SmallSet.Remove.
  rewrite R, E. cbn [mbind Checked_bind ASSERT].
  rewrite ToMask_Ok by assumption. reflexivity.
Qed.

Lemma Remove_fpu_reg s loc r :
  fpu_reg loc = Ok r -> maskable r = true ->
  RegisterSet.Remove s loc
  = Ok {| cpu_registers_ := cpu_registers_ s;
          untagged_cpu_registers_ := untagged_cpu_registers_ s;
          fpu_registers_ :=
            Z.land (fpu_registers_ s) (Z.lnot (to_int (Z.shiftl 1 r))) |}.
Proof.
  intros E M. destruct (fpu_reg_inv loc r E) as (R & F & _).
  unfold RegisterSet.Remove, SmallSet.Remove.
  rewrite R, F, E. cbn [mbind Checked_bind ASSERT].
  rewrite ToMask_Ok by assumption. reflexivity.
Qed.

(** The kind of a register call decides which of the two it is. *)
Lemma machine_register_cases c :
  is_machine_register_call c = true ->
  (kind_of c =? kRegister) = true /\ (kind_of c =? kFpuRegister) = false
  \/ (kind_of c =? kRegister) = false /\ (kind_of c =? kFpuRegister) = true.
Proof. destruct c; try discriminate; simpl; auto. Qed.

(** C8 (amended).  A freshly constructed set is empty and has no untagged
    values.  For a register or fpu register location whose register, as
    [reg] or [fpu_reg] returns it, is one of 0 to 31: [Add] followed by
    [Remove] of it empties both masks of used registers again ([Contains]
    false, both counts zero); the whole set is restored, and
    [HasUntaggedValues] false, exactly when the location is an fpu
    register or the representation is the tagged one, since [Remove]
    keeps the untagged mark of a cpu register.  [Add] is idempotent and
    makes [Contains] true.  After adding an fpu register, or a cpu
    register with a representation other than the tagged one,
    [HasUntaggedValues] is true.  For any other register, [Add], [Remove]
    and [Contains] return nothing: below the word size the shift of
    [ToMask] has no defined result, and from the word size on its check
    fails.  The locations of the two register constructors are such
    locations, with the code as their register. *)
Theorem C8_register_set_add_remove loc rep s0 r :
  reg loc = Ok r \/ fpu_reg loc = Ok r ->
  RegisterSet.new = Ok s0 ->
  RegisterSet.HasUntaggedValues s0 = false
  /\ RegisterSet.CpuRegisterCount s0 = 0
  /\ RegisterSet.FpuRegisterCount s0 = 0
  /\ (maskable r = true ->
      (exists s1 s2,
          RegisterSet.Add s0 loc rep = Ok s1
          /\ RegisterSet.Remove s1 loc = Ok s2
          /\ RegisterSet.Contains s2 loc = Ok false
          /\ RegisterSet.cpu_registers s2 = 0
          /\ RegisterSet.fpu_registers s2 = 0
          /\ RegisterSet.CpuRegisterCount s2 = 0
          /\ RegisterSet.FpuRegisterCount s2 = 0
          /\ (RegisterSet.HasUntaggedValues s2 = false
              <-> IsFpuRegister loc = true \/ rep = kTagged)
          /\ (IsFpuRegister loc = true \/ rep = kTagged -> s2 = s0))
      /\ (forall s, exists s1,
            RegisterSet.Add s loc rep = Ok s1
            /\ RegisterSet.Add s1 loc rep = Ok s1
            /\ RegisterSet.Contains s1 loc = Ok true)
      /\ (forall s s1,
            RegisterSet.Add s loc rep = Ok s1 ->
            IsFpuRegister loc = true \/ rep <> kTagged ->
            RegisterSet.HasUntaggedValues s1 = true))
  /\ (maskable r = false ->
      forall s,
        RegisterSet.Add s loc rep
        = Fatal (if kBitsPerWord <=? r then AssertionFailed
                 else UndefinedBehavior)
        /\ RegisterSet.Remove s loc
           = Fatal (if kBitsPerWord <=? r then AssertionFailed
                    else UndefinedBehavior)
        /\ RegisterSet.Contains s loc
           = Fatal (if kBitsPerWord <=? r then AssertionFailed
                    else UndefinedBehavior))
  /\ (forall c,
        is_machine_register_call c = true -> in_range c = true ->
        is_int (payload_of c) = true ->
        exists l,
          construct c = Ok l
          /\ (if kind_of c =? kRegister then reg l else fpu_reg l)
             = Ok (payload_of c)).
Proof.
  intros E N. apply new_inv in N. subst s0.
  split; [reflexivity |].
  unfold RegisterSet.CpuRegisterCount, RegisterSet.FpuRegisterCount,
    RegisterSet.cpu_registers, RegisterSet.fpu_registers, SmallSet.data.
  cbn [cpu_registers_ fpu_registers_].
  split; [apply RegisterCount_0 |]. split; [apply RegisterCount_0 |].
  split; [| split; [| apply constructed_register]].
  2: { intros M s. destruct E as [E | E].
       - destruct (register_Fatal s loc rep r E M) as (A & B & D & _). auto.
       - apply fpu_register_Fatal; assumption. }
  intros M. destruct (mask_facts _ M) as [NZ _].
  set (m := to_int (Z.shiftl 1 r)) in *.
  destruct E as [E | E].
  - (* a cpu register *)
    destruct (reg_inv loc r E) as (IR & IF & _).
    split; [| split].
    + eexists _, _. rewrite (Add_reg _ loc rep r) by assumption.
      split; [reflexivity |]. rewrite (Remove_reg _ loc r) by assumption.
      split; [reflexivity |].
      cbn [cpu_registers_ fpu_registers_ untagged_cpu_registers_].
      fold m. rewrite land_lnot_same.
      rewrite (Contains_reg _ loc r) by assumption.
      unfold RegisterSet.ContainsRegister. cbn [cpu_registers_].
      rewrite SmallSet_Contains_Ok by assumption. fold m.
      rewrite RegisterCount_0. repeat split; try reflexivity.
      * unfold RegisterSet.HasUntaggedValues, SmallSet.IsEmpty.
        cbn [untagged_cpu_registers_ fpu_registers_]. intros H.
        destruct (Representation_eqb rep kTagged) eqn:T.
        -- right. apply Representation_eqb_eq, T.
        -- rewrite Z.lor_0_l in H. apply Z.eqb_neq in NZ. rewrite NZ in H.
           discriminate H.
      * intros [F | ->]; [congruence | reflexivity].
      * intros [F | ->]; [congruence | reflexivity].
    + intros s. eexists. rewrite (Add_reg _ loc rep r) by assumption.
      split; [reflexivity |]. rewrite (Add_reg _ loc rep r) by assumption.
      cbn [cpu_registers_ fpu_registers_ untagged_cpu_registers_]. fold m.
      split.
      * rewrite lor_lor_same.
        destruct (Representation_eqb rep kTagged); [| rewrite lor_lor_same];
          reflexivity.
      * rewrite (Contains_reg _ loc r) by assumption.
        unfold RegisterSet.ContainsRegister. cbn [cpu_registers_].
        rewrite SmallSet_Contains_Ok by assumption. fold m.
        rewrite land_lor_same. apply Z.eqb_neq in NZ. rewrite NZ. reflexivity.
    + intros s s1 A [F | T]; [congruence |].
      rewrite (Add_reg _ loc rep r) in A by assumption. injection A as <-.
      unfold RegisterSet.HasUntaggedValues, SmallSet.IsEmpty.
      cbn [untagged_cpu_registers_ fpu_registers_].
      destruct (Representation_eqb rep kTagged) eqn:T';
        [apply Representation_eqb_eq in T'; contradiction |].
      fold m. pose proof (lor_nonzero (untagged_cpu_registers_ s) m NZ) as L.
      apply Z.eqb_neq in L. rewrite L. reflexivity.
  - (* an fpu register *)
    destruct (fpu_reg_inv loc r E) as (IR & IF & _).
    split; [| split].
    + eexists _, _. rewrite (Add_fpu_reg _ loc rep r) by assumption.
      split; [reflexivity |]. rewrite (Remove_fpu_reg _ loc r) by assumption.
      split; [reflexivity |].
      cbn [cpu_registers_ fpu_registers_ untagged_cpu_registers_].
      fold m. rewrite land_lnot_same.
      rewrite (Contains_fpu_reg _ loc r) by assumption.
      unfold RegisterSet.ContainsFpuRegister. cbn [fpu_registers_].
      rewrite SmallSet_Contains_Ok by assumption.
      rewrite RegisterCount_0. repeat split; try reflexivity. auto.
    + intros s. eexists. rewrite (Add_fpu_reg _ loc rep r) by assumption.
      split; [reflexivity |].
      rewrite (Add_fpu_reg _ loc rep r) by assumption.
      cbn [cpu_registers_ fpu_registers_ untagged_cpu_registers_]. fold m.
      split.
      * rewrite lor_lor_same. reflexivity.
      * rewrite (Contains_fpu_reg _ loc r) by assumption.
        unfold RegisterSet.ContainsFpuRegister. cbn [fpu_registers_].
        rewrite SmallSet_Contains_Ok by assumption. fold m.
        rewrite land_lor_same. apply Z.eqb_neq in NZ. rewrite NZ. reflexivity.
    + intros s s1 A _.
      rewrite (Add_fpu_reg _ loc rep r) in A by assumption.
      injection A as <-.
      unfold RegisterSet.HasUntaggedValues, SmallSet.IsEmpty.
      cbn [untagged_cpu_registers_ fpu_registers_].
      fold m. pose proof (lor_nonzero (fpu_registers_ s) m NZ) as L.
      apply Z.eqb_neq in L. rewrite L. apply orb_true_r.
Qed.
End RegisterSetClaims.

Section RegisterSetContains.
Context {target : Target}.
Import Location.

(** Every mask of a set built by [Add] and [Remove] from masks that hold
    the value of an [int] holds one too. *)
Lemma Add_is_int s loc rep s1 :
  RegisterSet.Add s loc rep = Ok s1 ->
  maskable (payload loc) = true ->
  is_int (cpu_registers_ s) = true ->
  is_int (untagged_cpu_registers_ s) = true ->
  is_int (fpu_registers_ s) = true ->
  is_int (cpu_registers_ s1) = true
  /\ is_int (untagged_cpu_registers_ s1) = true
  /\ is_int (fpu_registers_ s1) = true.
Proof.
  intros A M C U F. destruct (mask_facts _ M) as [_ I].
  destruct (IsRegister loc) eqn:R; [| destruct (IsFpuRegister loc) eqn:FR].
  - rewrite Add_register in A by assumption. injection A as <-. simpl.
    destruct (Representation_eqb rep kTagged); auto using is_int_lor.
  - rewrite Add_fpu_register in A by assumption. injection A as <-. simpl.
    auto using is_int_lor.
  - rewrite Add_not_register in A by assumption. injection A as <-. auto.
Qed.

Lemma Remove_is_int s loc s1 :
  RegisterSet.Remove s loc = Ok s1 ->
  maskable (payload loc) = true ->
  is_int (cpu_registers_ s) = true ->
  is_int (untagged_cpu_registers_ s) = true ->
  is_int (fpu_registers_ s) = true ->
  is_int (cpu_registers_ s1) = true
  /\ is_int (untagged_cpu_registers_ s1) = true
  /\ is_int (fpu_registers_ s1) = true.
Proof.
  intros A M C U F. destruct (mask_facts _ M) as [_ I].
  destruct (IsRegister loc) eqn:R; [| destruct (IsFpuRegister loc) eqn:FR].
  - rewrite Remove_register in A by assumption. injection A as <-. simpl.
    auto using is_int_land, is_int_lnot.
  - rewrite Remove_fpu_register in A by assumption. injection A as <-. simpl.
    auto using is_int_land, is_int_lnot.
  - rewrite Remove_not_register in A by assumption. injection A as <-. auto.
Qed.

(** C9 (amended).  [Contains] of a register location whose register, as
    [reg] returns it, is one of 0 to 31 returns the bit of the register
    in the mask of cpu registers, and of such an fpu register location
    the bit in the mask of fpu registers; for the register 31 the mask
    has to hold an [int], as every mask built by [Add] and [Remove] does.
    For any other register it returns nothing: below the word size the
    shift of [ToMask] has no defined result, and from the word size on
    its check fails.  The locations of the two register constructors are
    such locations, with the code as their register.  For a location of
    any other kind [Contains] reaches [UNREACHABLE], which a machine
    register location never does. *)
Theorem C9_contains_is_membership_or_unreachable :
  (forall s loc r,
      reg loc = Ok r ->
      (maskable r = true ->
       r < 31 \/ is_int (cpu_registers_ s) = true ->
       RegisterSet.Contains s loc = Ok (Z.testbit (cpu_registers_ s) r))
      /\ (maskable r = false ->
          RegisterSet.Contains s loc
          = Fatal (if kBitsPerWord <=? r then AssertionFailed
                   else UndefinedBehavior)))
  /\ (forall s loc r,
        fpu_reg loc = Ok r ->
        (maskable r = true ->
         r < 31 \/ is_int (fpu_registers_ s) = true ->
         RegisterSet.Contains s loc = Ok (Z.testbit (fpu_registers_ s) r))
        /\ (maskable r = false ->
            RegisterSet.Contains s loc
            = Fatal (if kBitsPerWord <=? r then AssertionFailed
                     else UndefinedBehavior)))
  /\ (forall c,
        is_machine_register_call c = true -> in_range c = true ->
        is_int (payload_of c) = true ->
        exists loc,
          construct c = Ok loc
          /\ (if kind_of c =? kRegister then reg loc else fpu_reg loc)
             = Ok (payload_of c))
  /\ (forall s loc,
        IsMachineRegister loc = true ->
        RegisterSet.Contains s loc <> Fatal Unreachable)
  /\ (forall s loc,
        IsMachineRegister loc = false ->
        RegisterSet.Contains s loc = Fatal Unreachable)
  /\ (forall c loc,
        construct c = Ok loc -> is_machine_register_call c = false ->
        IsMachineRegister loc = false)
  /\ (forall loc, IsPairLocation loc = true -> IsMachineRegister loc = false).
Proof.
  split; [| split; [| split; [| split; [| split; [| split]]]]].
  - intros s loc r E. split.
    + intros M H. rewrite (Contains_reg s loc r E).
      apply SmallSet_Contains_testbit; assumption.
    + intros M. apply (register_Fatal s loc kTagged r E M).
  - intros s loc r E. split.
    + intros M H. rewrite (Contains_fpu_reg s loc r E).
      apply SmallSet_Contains_testbit; assumption.
    + intros M. apply (fpu_register_Fatal s loc kTagged r E M).
  - apply constructed_register.
  - intros s loc M. rewrite IsMachineRegister_iff in M.
    destruct (IsRegister loc) eqn:R.
    + rewrite Contains_register by assumption.
      apply SmallSet_Contains_not_Unreachable.
    + simpl in M. rewrite Contains_fpu_register by assumption.
      apply SmallSet_Contains_not_Unreachable.
  - intros s loc M. rewrite IsMachineRegister_iff in M.
    apply orb_false_iff in M as [R F]. apply Contains_not_register; assumption.
  - intros c loc C M. rewrite IsMachineRegister_iff.
    destruct (not_machine_register c loc C M) as [-> ->]. reflexivity.
  - intros loc P. rewrite IsMachineRegister_iff.
    destruct (pair_not_machine_register loc P) as [-> ->]. reflexivity.
Qed.

(** C10.  For a location that is neither a register nor an fpu register
    [Add], with any representation, and [Remove] return the set unchanged
    and fail no check, while [Contains] reaches [UNREACHABLE]; the
    locations of the Invalid, Constant, Unallocated and stack slot
    constructors and the pair references are such locations. *)
Theorem C10_add_remove_ignore_other_kinds :
  (forall s loc rep,
      IsRegister loc = false -> IsFpuRegister loc = false ->
      RegisterSet.Add s loc rep = Ok s /\ RegisterSet.Remove s loc = Ok s
      /\ RegisterSet.Contains s loc = Fatal Unreachable)
  /\ (forall c loc,
        construct c = Ok loc -> is_machine_register_call c = false ->
        IsRegister loc = false /\ IsFpuRegister loc = false)
  /\ (forall first second (zone : Zone) p zone',
        PairRef.Pair first second zone = Ok (p, zone') ->
        IsRegister p = false /\ IsFpuRegister p = false).
Proof.
  split; [| split].
  - intros s loc rep R F.
    auto using Add_not_register, Remove_not_register, Contains_not_register.
  - apply not_machine_register.
  - intros first second zone p zone' H. apply Pair_inv in H as (_ & -> & _).
    apply pair_not_machine_register, IsPairLocation_pair_word.
Qed.
End RegisterSetContains.

(** ** Location summaries *)

Section LocationSummaryFacts.
Context {target : Target}.
Import Location.

Lemma array_set_Ok (array : list TemplateLocation) index loc :
  0 <= index < Z.of_nat (List.length array) ->
  LocationSummary.array_set array index loc
  = Ok (<[Z.to_nat index := loc]> array)
  /\ LocationSummary.array_get (<[Z.to_nat index := loc]> array) index = Ok loc.
Proof.
  intros H. unfold LocationSummary.array_set, LocationSummary.array_get.
  replace (Z.to_nat index <? List.length array)%nat with true
    by (symmetry; apply Nat.ltb_lt; lia).
  rewrite list_lookup_insert_eq by lia. auto.
Qed.

Lemma bounds_true index n :
  0 <= index < n -> (0 <=? index) = true /\ (index <? n) = true.
Proof. lia. Qed.

Lemma pair_not_unallocated loc :
  IsPairLocation loc = true -> IsUnallocated loc = false.
Proof.
  intros H. pose proof (tagged_kind loc (or_intror H)) as N.
  unfold IsUnallocated. apply Z.eqb_neq. intros E. apply N. rewrite E. simpl.
  tauto.
Qed.

Lemma IsInvalid_kind loc : IsInvalid loc = true -> kind loc = kInvalid.
Proof.
  unfold IsInvalid, value_, kInvalidLocation. intros H. apply Z.eqb_eq in H.
  destruct loc as [v]. simpl in H. subst v. apply (kind_pack 0 0). lia.
Qed.

Lemma Unallocated_facts pol loc :
  UnallocatedLocation pol = Ok loc ->
  IsUnallocated loc = true /\ policy loc = Ok (Policy_code pol).
Proof.
  intros U. pose proof layout_bounds as (P & I & Bb & S & E & E2 & W).
  assert (L : loc = read (pack 5 kUnallocated (Policy_code pol))).
  { pose proof (construct_Ok (UnallocatedLocationCall pol) eq_refl) as C.
    simpl in C. congruence. }
  pose proof (Policy_code_range pol) as CR.
  assert (PR : 0 <= Policy_code pol < 2 ^ kPayloadBitsSize).
  { assert (2 ^ 3 <= 2 ^ kPayloadBitsSize) by (apply Z.pow_le_mono_r; lia). lia.
    }
  assert (KR : 0 <= kUnallocated < 32) by (cbv; split; congruence).
  assert (K : IsUnallocated loc = true).
  { unfold IsUnallocated. rewrite L, kind_pack by assumption. reflexivity. }
  split; [exact K |].
  unfold policy. rewrite K. simpl. f_equal. rewrite L.
  rewrite payload_pack by assumption.
  change PolicyField with (BitField.Field 0 3).
  rewrite <- (decode_low_pack 3 (Policy_code pol) 0) at 2 by lia.
  unfold pack. rewrite Z.shiftl_0_l, Z.lor_0_r. reflexivity.
Qed.

(** [set_in] of an unallocated location checks its policy. *)
Lemma set_in_unallocated s index pol loc (zone : Zone) :
  well_formed s -> LocationSummary.always_calls s = true ->
  0 <= index < num_inputs_ s ->
  UnallocatedLocation pol = Ok loc ->
  (pol = kAny -> succeeds (LocationSummary.set_in s index loc zone) = true)
  /\ (pol <> kAny ->
      LocationSummary.set_in s index loc zone = Fatal AssertionFailed).
Proof.
  intros [WI _] AC B U.
  pose proof layout_bounds as (P & I & Bb & S & E & E2 & W).
  destruct (Unallocated_facts pol loc U) as [K Pc].
  destruct (bounds_true _ _ B) as [B1 B2].
  unfold LocationSummary.set_in. rewrite B1, B2, AC, K, Pc. simpl.
  split.
  - intros ->. simpl.
    destruct (array_set_Ok (input_locations_ s) index loc ltac:(lia)) as [-> _].
    reflexivity.
  - intros N. replace (Policy_code pol =? 0) with false; [reflexivity |].
    symmetry. apply Z.eqb_neq. intros Z0. apply N.
    apply Policy_code_inj. exact Z0.
Qed.

(** C6.  With a summary that always calls, [set_in] of a pair reference
    checks component 0 twice and component 1 never: it succeeds whenever
    component 0 passes the check, whatever component 1 is. *)
Theorem C6_set_in_never_checks_second_component
    s index first second (zone : Zone) p zone' :
  well_formed s -> LocationSummary.always_calls s = true ->
  0 <= index < num_inputs_ s ->
  PairRef.Pair first second zone = Ok (p, zone') ->
  LocationSummary.any_if_unallocated first = Ok true ->
  exists s', LocationSummary.set_in s index p zone' = Ok s'
             /\ LocationSummary.in_ s' index = Ok p.
Proof.
  intros [WI _] AC B H A. apply Pair_inv in H as (R & -> & ->).
  destruct (bounds_true _ _ B) as [B1 B2].
  pose proof (IsPairLocation_pair_word (List.length zone)) as IP.
  destruct (array_set_Ok (input_locations_ s) index
              (read (pair_word (List.length zone))) ltac:(lia)) as [AS AG].
  eexists. unfold LocationSummary.set_in, LocationSummary.in_.
  rewrite B1, B2, AC, (pair_not_unallocated _ IP), IP. simpl.
  rewrite Component_new by assumption.
  change (TemplatePairLocation.At [first; second] 0) with (Ok first).
  cbn [mbind Checked_bind]. rewrite A. cbn [mbind Checked_bind ASSERT].
  rewrite AS. cbn [mbind Checked_bind].
  split; [reflexivity |]. cbn [num_inputs_ input_locations_].
  rewrite ?B1, ?B2. simpl. exact AG.
Qed.

(** With a pair whose component 0 is unallocated with a policy other than
    Any the check does fail. *)
Lemma set_in_checks_first_component
    s index pol first second (zone : Zone) p zone' :
  LocationSummary.always_calls s = true -> 0 <= index < num_inputs_ s ->
  UnallocatedLocation pol = Ok first -> pol <> kAny ->
  PairRef.Pair first second zone = Ok (p, zone') ->
  LocationSummary.set_in s index p zone' = Fatal AssertionFailed.
Proof.
  intros AC B U N H. apply Pair_inv in H as (R & -> & ->).
  pose proof layout_bounds as (P & I & Bb & S & E & E2 & W).
  destruct (bounds_true _ _ B) as [B1 B2].
  pose proof (IsPairLocation_pair_word (List.length zone)) as IP.
  unfold LocationSummary.set_in.
  rewrite B1, B2, AC, (pair_not_unallocated _ IP), IP. simpl.
  rewrite Component_new by assumption.
  change (TemplatePairLocation.At [first; second] 0) with (Ok first).
  cbn [mbind Checked_bind].
  destruct (Unallocated_facts pol first U) as [K Pc].
  unfold LocationSummary.any_if_unallocated. rewrite K, Pc. simpl.
  replace (Policy_code pol =? 0) with false; [reflexivity |].
  symmetry. apply Z.eqb_neq. intros Z0. apply N, Policy_code_inj, Z0.
Qed.
End LocationSummaryFacts.

Section SetTempSetOut.
Context {target : Target}.
Import Location.

Lemma set_temp_spec s index loc :
  well_formed s ->
  if (0 <=? index) && (index <? num_temps_ s)
     && (negb (LocationSummary.always_calls s) || IsMachineRegister loc)
  then exists s', LocationSummary.set_temp s index loc = Ok s'
                  /\ LocationSummary.temp s' index = Ok loc
  else LocationSummary.set_temp s index loc = Fatal AssertionFailed.
Proof.
  intros [_ WT]. unfold LocationSummary.set_temp, LocationSummary.temp.
  destruct (Z.leb_spec 0 index); [| reflexivity].
  destruct (Z.ltb_spec index (num_temps_ s)); [| reflexivity].
  destruct (negb (LocationSummary.always_calls s) || IsMachineRegister loc);
    [| reflexivity].
  destruct (array_set_Ok (temp_locations_ s) index loc ltac:(lia)) as [AS AG].
  simpl. rewrite AS. eexists. split; [reflexivity |]. simpl.
  replace (0 <=? index) with true by lia.
  replace (index <? num_temps_ s) with true by lia. exact AG.
Qed.

Lemma set_out_spec s index loc :
  if (index =? 0)
     && (negb (LocationSummary.always_calls s)
         || (IsMachineRegister loc || IsInvalid loc || IsPairLocation loc))
  then exists s', LocationSummary.set_out s index loc = Ok s'
                  /\ LocationSummary.out s' index = Ok loc
  else LocationSummary.set_out s index loc = Fatal AssertionFailed.
Proof.
  unfold LocationSummary.set_out, LocationSummary.out.
  destruct (index =? 0); [| reflexivity].
  destruct (negb (LocationSummary.always_calls s)
            || (IsMachineRegister loc || IsInvalid loc || IsPairLocation loc));
    [| reflexivity].
  eexists. split; reflexivity.
Qed.

(** C7.  With a summary whose mode is Call or CallCalleeSafe, [set_temp]
    succeeds for an index in bounds and a machine register location and
    fails its check otherwise, and [set_out] succeeds for index 0 and a
    location that is a machine register, Invalid or a pair reference and
    fails its check otherwise; in the other modes the index alone decides.
    An unallocated location is none of the accepted ones, a register or
    fpu register location is a machine register. *)
Theorem C7_set_temp_and_set_out_legality s index loc :
  well_formed s ->
  (LocationSummary.always_calls s = true
   <-> contains_call_ s = kCall \/ contains_call_ s = kCallCalleeSafe)
  /\ (LocationSummary.always_calls s = true ->
      (0 <= index < num_temps_ s /\ IsMachineRegister loc = true ->
       exists s', LocationSummary.set_temp s index loc = Ok s'
                  /\ LocationSummary.temp s' index = Ok loc)
      /\ (~ (0 <= index < num_temps_ s /\ IsMachineRegister loc = true) ->
          LocationSummary.set_temp s index loc = Fatal AssertionFailed)
      /\ (index = 0
          /\ (IsMachineRegister loc = true \/ IsInvalid loc = true
              \/ IsPairLocation loc = true) ->
          exists s', LocationSummary.set_out s index loc = Ok s'
                     /\ LocationSummary.out s' index = Ok loc)
      /\ (~ (index = 0
             /\ (IsMachineRegister loc = true \/ IsInvalid loc = true
                 \/ IsPairLocation loc = true)) ->
          LocationSummary.set_out s index loc = Fatal AssertionFailed))
  /\ (LocationSummary.always_calls s = false ->
      (0 <= index < num_temps_ s ->
       exists s', LocationSummary.set_temp s index loc = Ok s'
                  /\ LocationSummary.temp s' index = Ok loc)
      /\ (~ 0 <= index < num_temps_ s ->
          LocationSummary.set_temp s index loc = Fatal AssertionFailed)
      /\ (index = 0 ->
          exists s', LocationSummary.set_out s index loc = Ok s'
                     /\ LocationSummary.out s' index = Ok loc)
      /\ (index <> 0 ->
          LocationSummary.set_out s index loc = Fatal AssertionFailed))
  /\ (IsMachineRegister loc = true
      <-> kind loc = kRegister \/ kind loc = kFpuRegister)
  /\ (forall c l, construct c = Ok l ->
                  IsMachineRegister l = is_machine_register_call c)
  /\ (forall pol l, UnallocatedLocation pol = Ok l ->
                    IsMachineRegister l = false /\ IsInvalid l = false
                    /\ IsPairLocation l = false).
Proof.
  intros WF. pose proof (set_temp_spec s index loc WF) as T.
  pose proof (set_out_spec s index loc) as O.
  split; [| split; [| split; [| split; [| split]]]].
  - unfold LocationSummary.always_calls.
    destruct (contains_call_ s); split; intros H; try reflexivity;
      try discriminate H; auto; destruct H; discriminate.
  - intros AC. rewrite AC in T, O. simpl in T, O. repeat split.
    + intros [B M]. rewrite M in T.
      replace ((0 <=? index) && (index <? num_temps_ s)) with true in T by lia.
      exact T.
    + intros N. destruct ((0 <=? index) && (index <? num_temps_ s)) eqn:B;
        [| exact T].
      destruct (IsMachineRegister loc); [| exact T]. exfalso. apply N.
      split; [lia | auto].
    + intros [-> H]. simpl in O.
      replace (IsMachineRegister loc || IsInvalid loc || IsPairLocation loc)
        with true in O; [exact O |].
      symmetry. rewrite !orb_true_iff. tauto.
    + intros N. destruct (Z.eqb_spec index 0) as [E | E]; [| exact O].
      destruct (IsMachineRegister loc || IsInvalid loc || IsPairLocation loc) eqn:A;
        [| exact O].
      exfalso. apply N. rewrite !orb_true_iff in A. tauto.
  - intros AC. rewrite AC in T, O. simpl in T, O. rewrite andb_true_r in T, O.
    repeat split.
    + intros B.
      replace ((0 <=? index) && (index <? num_temps_ s)) with true in T by lia.
      exact T.
    + intros N.
      replace ((0 <=? index) && (index <? num_temps_ s)) with false in T by lia.
      exact T.
    + intros ->. exact O.
    + intros N. destruct (Z.eqb_spec index 0); [contradiction | exact O].
  - rewrite IsMachineRegister_iff. unfold IsRegister, IsFpuRegister.
    rewrite orb_true_iff, !Z.eqb_eq. tauto.
  - intros c l C. destruct (is_machine_register_call c) eqn:M.
    + assert (NC : is_constant_call c = false)
        by (destruct c; try discriminate M; reflexivity).
      pose proof (construct_kind c l C) as K. rewrite NC in K.
      unfold IsMachineRegister. rewrite K.
      destruct c; try discriminate M; reflexivity.
    + rewrite IsMachineRegister_iff.
      destruct (not_machine_register c l C M) as [-> ->]. reflexivity.
  - intros pol l U. destruct (Unallocated_facts pol l U) as [K _].
    unfold IsUnallocated in K. apply Z.eqb_eq in K.
    split; [| split].
    + unfold IsMachineRegister. rewrite K. reflexivity.
    + destruct (IsInvalid l) eqn:V; [| reflexivity].
      apply IsInvalid_kind in V. rewrite V in K. discriminate K.
    + destruct (IsPairLocation l) eqn:V; [| reflexivity].
      exfalso. apply (tagged_kind l (or_intror V)). rewrite K. simpl. tauto.
Qed.
End SetTempSetOut.

(** ** Frame rebase *)

Section RebaseFacts.
Context {target : Target}.
Import Location.

(** A stack slot word is the packed word of its kind, index and base. *)
Lemma stack_location_canonical loc :
  is_uword (write loc) = true -> HasStackIndex loc = true ->
  exists o r, - kStackIndexBias <= o < kStackIndexBias
              /\ 0 <= r < 2 ^ kBitsForBaseReg
              /\ loc = read (stack_word (kind loc) o r).
Proof.
  intros U H. pose proof layout_bounds as (P & I & B & S & E & E2 & W).
  pose proof (payload_range loc) as PR.
  assert (IR : 0 <= BitField.decode StackIndexField (payload loc)
               < 2 ^ kBitsForStackIndex)
    by (apply (decode_range StackIndexField); fields; lia).
  assert (BR : 0 <= BitField.decode StackSlotBaseField (payload loc)
               < 2 ^ kBitsForBaseReg)
    by (apply (decode_range StackSlotBaseField); fields; lia).
  exists (BitField.decode StackIndexField (payload loc) - kStackIndexBias),
         (BitField.decode StackSlotBaseField (payload loc)).
  split; [lia |]. split; [exact BR |].
  destruct loc as [v]. f_equal. unfold stack_word, stack_payload.
  replace (kStackIndexBias
           + (BitField.decode StackIndexField (payload (read v)) - kStackIndexBias))
    with (BitField.decode StackIndexField (payload (read v))) by lia.
  unfold StackSlotBaseField, StackIndexField.
  rewrite (pack_decode kBitsForBaseReg kBitsForStackIndex)
    by (try lia; replace (kBitsForBaseReg + kBitsForStackIndex)
                   with kPayloadBitsSize by lia; exact PR).
  apply (value_unpack (read v)). unfold is_uword in U. simpl in *. lia.
Qed.

Lemma stack_word_range k o r :
  stack_kind k -> - kStackIndexBias <= o < kStackIndexBias ->
  0 <= r < 2 ^ kBitsForBaseReg ->
  0 <= stack_word k o r < 2 ^ (5 + kPayloadBitsSize).
Proof.
  intros K Ho Hr. pose proof layout_bounds as (P & I & B & S & E & E2 & W).
  apply pack_range; try lia; auto using stack_kind_range, stack_payload_range.
Qed.

Lemma payload_stack_word k o r :
  stack_kind k -> - kStackIndexBias <= o < kStackIndexBias ->
  0 <= r < 2 ^ kBitsForBaseReg ->
  payload (read (stack_word k o r)) = stack_payload o r.
Proof.
  intros K Ho Hr. unfold stack_word.
  apply payload_pack; auto using stack_kind_range, stack_payload_range.
Qed.

Lemma update_payload_stack_word k o r p :
  stack_kind k -> - kStackIndexBias <= o < kStackIndexBias ->
  0 <= r < 2 ^ kBitsForBaseReg -> 0 <= p < 2 ^ kPayloadBitsSize ->
  BitField.update PayloadField p (value_ (read (stack_word k o r)))
  = Ok (pack 5 k p).
Proof.
  intros K Ho Hr Hp. pose proof layout_bounds as (P & I & B & S & E & E2 & W).
  pose proof (stack_kind_range k K) as KR.
  change PayloadField with (BitField.Field 5 kPayloadBitsSize).
  unfold value_. cbn [write].
  rewrite (update_high 5 kPayloadBitsSize)
    by (try lia; apply stack_word_range; assumption).
  unfold stack_word. rewrite decode_low_pack by lia. reflexivity.
Qed.

Lemma set_base_reg_stack_word k o r r' :
  stack_kind k -> - kStackIndexBias <= o < kStackIndexBias ->
  0 <= r < 2 ^ kBitsForBaseReg -> 0 <= r' < 2 ^ kBitsForBaseReg ->
  set_base_reg (read (stack_word k o r)) r' = Ok (read (stack_word k o r')).
Proof.
  intros K Ho Hr Hr'. pose proof layout_bounds as (P & I & B & S & E & E2 & W).
  pose proof (stack_payload_range o r Ho Hr) as PR.
  pose proof (stack_payload_range o r' Ho Hr') as PR'.
  unfold set_base_reg. rewrite HasStackIndex_stack_word by assumption.
  cbn [mbind Checked_bind ASSERT]. rewrite payload_stack_word by assumption.
  unfold StackSlotBaseField.
  rewrite (update_low kBitsForBaseReg kBitsForStackIndex)
    by (try lia; replace (kBitsForBaseReg + kBitsForStackIndex)
                   with kPayloadBitsSize by lia; exact PR).
  unfold stack_payload at 1. rewrite decode_high_pack by lia.
  cbn [mbind Checked_bind]. fold (stack_payload o r').
  rewrite update_payload_stack_word by assumption. reflexivity.
Qed.

Lemma set_stack_index_stack_word k o r o' :
  stack_kind k -> - kStackIndexBias <= o < kStackIndexBias ->
  0 <= r < 2 ^ kBitsForBaseReg -> - kStackIndexBias <= o' < kStackIndexBias ->
  set_stack_index (read (stack_word k o r)) o' = Ok (read (stack_word k o' r)).
Proof.
  intros K Ho Hr Ho'. pose proof layout_bounds as (P & I & B & S & E & E2 & W).
  pose proof (stack_payload_range o r Ho Hr) as PR.
  pose proof (stack_payload_range o' r Ho' Hr) as PR'.
  unfold set_stack_index. rewrite HasStackIndex_stack_word by assumption.
  cbn [mbind Checked_bind ASSERT]. rewrite EncodeStackIndex_Ok by assumption.
  cbn [mbind Checked_bind]. rewrite payload_stack_word by assumption.
  unfold StackIndexField.
  rewrite (update_high kBitsForBaseReg kBitsForStackIndex)
    by (try lia; replace (kBitsForBaseReg + kBitsForStackIndex)
                   with kPayloadBitsSize by lia; exact PR).
  unfold stack_payload at 1. rewrite decode_low_pack by lia.
  cbn [mbind Checked_bind]. fold (stack_payload o' r).
  rewrite update_payload_stack_word by assumption. reflexivity.
Qed.

Lemma set_stack_index_Fatal loc o' :
  ~ - kStackIndexBias <= o' < kStackIndexBias ->
  set_stack_index loc o' = Fatal AssertionFailed.
Proof.
  intros H. unfold set_stack_index.
  destruct (HasStackIndex loc); [| reflexivity].
  cbn [mbind Checked_bind ASSERT]. rewrite EncodeStackIndex_Fatal by assumption.
  reflexivity.
Qed.

Lemma stack_not_pair loc :
  HasStackIndex loc = true -> IsPairLocation loc = false.
Proof.
  intros H. destruct (IsPairLocation loc) eqn:P; [| reflexivity].
  exfalso. apply (tagged_kind loc (or_intror P)).
  apply HasStackIndex_iff in H. unfold stack_kind in H. simpl.
  destruct H as [-> | [-> | ->]]; tauto.
Qed.

Lemma is_intptr_stack_index o :
  - kStackIndexBias <= o < kStackIndexBias -> is_intptr o = true.
Proof.
  intros H. unfold is_intptr.
  destruct layout_cases as [(-> & _ & _ & _ & E) | (-> & _ & _ & _ & E)];
    rewrite E in H; lia.
Qed.

(** Rebasing the stack slot of kind [k], index [o] and base [r]. *)
Lemma Rebase_stack_word fuel fr k o r (zone : Zone) :
  stack_kind k -> - kStackIndexBias <= o < kStackIndexBias ->
  0 <= r < 2 ^ kBitsForBaseReg ->
  FrameRebase.Rebase (S fuel) fr (read (stack_word k o r)) zone
  = if negb (r =? old_base_ fr) then Ok (read (stack_word k o r), zone)
    else
      loc ← set_base_reg (read (stack_word k o r)) (new_base_ fr);
      i ← stack_index loc;
      i ← intptr_add i (stack_delta_ fr);
      loc ← set_stack_index loc i;
      Ok (loc, zone).
Proof.
  intros K Ho Hr. cbn [FrameRebase.Rebase].
  rewrite (stack_not_pair _ (HasStackIndex_stack_word k o r K)).
  rewrite HasStackIndex_stack_word by assumption. cbn [negb].
  rewrite base_reg_stack_word by assumption. reflexivity.
Qed.

Lemma Rebase_same_base fuel fr k o r (zone : Zone) :
  stack_kind k -> - kStackIndexBias <= o < kStackIndexBias ->
  0 <= r < 2 ^ kBitsForBaseReg -> r = old_base_ fr ->
  0 <= new_base_ fr < 2 ^ kBitsForBaseReg ->
  (- kStackIndexBias <= o + stack_delta_ fr < kStackIndexBias ->
   FrameRebase.Rebase (S fuel) fr (read (stack_word k o r)) zone
   = Ok (read (stack_word k (o + stack_delta_ fr) (new_base_ fr)), zone))
  /\ (~ - kStackIndexBias <= o + stack_delta_ fr < kStackIndexBias ->
      succeeds (FrameRebase.Rebase (S fuel) fr (read (stack_word k o r)) zone)
      = false).
Proof.
  intros K Ho Hr E Hn. rewrite Rebase_stack_word by assumption.
  rewrite E, Z.eqb_refl. cbn [negb]. rewrite <- E.
  rewrite set_base_reg_stack_word by assumption. cbn [mbind Checked_bind].
  rewrite stack_index_stack_word by assumption. cbn [mbind Checked_bind].
  unfold intptr_add. split.
  - intros Hd. rewrite is_intptr_stack_index by assumption.
    cbn [mbind Checked_bind].
    rewrite set_stack_index_stack_word by assumption. reflexivity.
  - intros Hd. destruct (is_intptr (o + stack_delta_ fr)); [| reflexivity].
    cbn [mbind Checked_bind]. rewrite set_stack_index_Fatal by assumption.
    reflexivity.
Qed.
Lemma set_base_reg_Fatal loc r' :
  HasStackIndex loc = true -> 2 ^ kBitsForBaseReg <= to_uword r' ->
  set_base_reg loc r' = Fatal AssertionFailed.
Proof.
  intros S R. unfold set_base_reg, BitField.update. rewrite S.
  cbn [mbind Checked_bind ASSERT].
  pose proof layout_bounds.
  destruct (BitField.is_valid StackSlotBaseField r') eqn:V; [| reflexivity].
  apply is_valid_iff in V; fields; lia.
Qed.

(** A register that is not a code the base field can hold. *)
Lemma to_uword_base b :
  is_intptr b = true -> base_in_range b = false ->
  2 ^ kBitsForBaseReg <= to_uword b.
Proof.
  unfold is_intptr, base_in_range, to_uword. intros I N.
  destruct layout_cases as [(W & _ & B & _) | (W & _ & B & _)];
    rewrite W, B in *.
  - destruct (Z.lt_ge_cases b 0).
    + replace b with ((b + 2 ^ 64) + (-1) * 2 ^ 64) by lia.
      rewrite Z.mod_add by lia. rewrite Z.mod_small; lia.
    + rewrite Z.mod_small; lia.
  - destruct (Z.lt_ge_cases b 0).
    + replace b with ((b + 2 ^ 32) + (-1) * 2 ^ 32) by lia.
      rewrite Z.mod_add by lia. rewrite Z.mod_small; lia.
    + rewrite Z.mod_small; lia.
Qed.

(** How [Rebase] fails on a stack slot on the old base: the field update
    rejects a new base that does not fit, the addition of the delta has no
    defined result when it overflows, and [EncodeStackIndex] rejects a new
    index beyond the bias. *)
Lemma Rebase_same_base_Fatal fuel fr k o r (zone : Zone) :
  stack_kind k -> - kStackIndexBias <= o < kStackIndexBias ->
  0 <= r < 2 ^ kBitsForBaseReg -> r = old_base_ fr ->
  (base_in_range (new_base_ fr) = false -> is_intptr (new_base_ fr) = true ->
   FrameRebase.Rebase (S fuel) fr (read (stack_word k o r)) zone
   = Fatal AssertionFailed)
  /\ (base_in_range (new_base_ fr) = true ->
      is_intptr (o + stack_delta_ fr) = false ->
      FrameRebase.Rebase (S fuel) fr (read (stack_word k o r)) zone
      = Fatal UndefinedBehavior)
  /\ (base_in_range (new_base_ fr) = true ->
      is_intptr (o + stack_delta_ fr) = true ->
      stack_index_in_range (o + stack_delta_ fr) = false ->
      FrameRebase.Rebase (S fuel) fr (read (stack_word k o r)) zone
      = Fatal AssertionFailed).
Proof.
  intros K Ho Hr E. rewrite Rebase_stack_word by assumption.
  rewrite E, Z.eqb_refl. cbn [negb]. rewrite <- E.
  split; [| split].
  - intros N I.
    rewrite set_base_reg_Fatal
      by auto using HasStackIndex_stack_word, to_uword_base.
    reflexivity.
  - intros B I. unfold base_in_range in B.
    rewrite set_base_reg_stack_word by (assumption || lia).
    cbn [mbind Checked_bind].
    rewrite stack_index_stack_word by (assumption || lia).
    cbn [mbind Checked_bind]. unfold intptr_add. rewrite I. reflexivity.
  - intros B I D. unfold base_in_range in B.
    unfold stack_index_in_range in D.
    rewrite set_base_reg_stack_word by (assumption || lia).
    cbn [mbind Checked_bind].
    rewrite stack_index_stack_word by (assumption || lia).
    cbn [mbind Checked_bind]. unfold intptr_add. rewrite I.
    cbn [mbind Checked_bind]. rewrite set_stack_index_Fatal by lia.
    reflexivity.
Qed.
End RebaseFacts.

Section RebasePairs.
Context {target : Target}.
Import Location.

Lemma load_app_l (zone ext : Zone) address (p : PairLocation) :
  Zone.load zone address = Ok p -> Zone.load (zone ++ ext) address = Ok p.
Proof.
  unfold Zone.load.
  destruct (Zone.index_of address) as [n |]; simpl; [| discriminate].
  destruct (zone !! n) eqn:L; [| discriminate].
  intros [= <-]. erewrite lookup_app_l_Some by eassumption. reflexivity.
Qed.

Lemma Component_app_l loc i (zone ext : Zone) c :
  PairRef.Component loc i zone = Ok c ->
  PairRef.Component loc i (zone ++ ext) = Ok c.
Proof.
  unfold PairRef.Component. intros H. bind_inv H. simpl. bind_inv H.
  erewrite load_app_l by eassumption. exact H.
Qed.

(** [Rebase] only allocates: the pairs of the zone stay as they are. *)
Lemma Rebase_extends fuel fr : forall loc (zone : Zone) r zone',
  FrameRebase.Rebase fuel fr loc zone = Ok (r, zone') ->
  exists ext, zone' = zone ++ ext.
Proof.
  induction fuel as [| fuel IH]; intros loc zone r zone' H; [discriminate H |].
  cbn [FrameRebase.Rebase] in H.
  destruct (IsPairLocation loc).
  - bind_inv H. bind_inv H. destruct a0 as [r0 zone1].
    bind_inv H. bind_inv H. destruct a1 as [r1 zone2].
    apply IH in E0 as [ext0 ->]. apply IH in E2 as [ext1 ->].
    apply Pair_inv in H as (_ & _ & ->).
    exists (ext0 ++ ext1 ++ [[r0; r1]]). rewrite <- !app_assoc. reflexivity.
  - exists []. rewrite app_nil_r.
    destruct (negb (HasStackIndex loc)); [congruence |].
    bind_inv H. destruct (negb (a =? old_base_ fr)); [congruence |].
    repeat bind_inv H. congruence.
Qed.

(** The address a pair reference holds, when its pair is in the zone. *)
Lemma Component_address loc i (zone : Zone) c :
  PairRef.Component loc i zone = Ok c ->
  exists n, (n < List.length zone)%nat
            /\ Zone.index_of (Z.land (write loc) (uword_not kLocationTagMask))
               = Some n.
Proof.
  unfold PairRef.Component, PairRef.AsPairLocation, Zone.load. intros H.
  destruct (IsPairLocation loc); simpl in H; [| discriminate].
  unfold value_ in H.
  destruct (Zone.index_of (Z.land (write loc) (uword_not kLocationTagMask)))
    as [n |]; simpl in H; [| discriminate].
  destruct (zone !! n) eqn:L; [| discriminate].
  exists n. split; [| reflexivity]. eapply lookup_lt_Some, L.
Qed.

Lemma Rebase_pair fuel fr loc (zone : Zone) c0 c1 r0 r1 zone1 zone2 :
  IsPairLocation loc = true ->
  PairRef.Component loc 0 zone = Ok c0 ->
  PairRef.Component loc 1 zone = Ok c1 ->
  FrameRebase.Rebase fuel fr c0 zone = Ok (r0, zone1) ->
  FrameRebase.Rebase fuel fr c1 zone1 = Ok (r1, zone2) ->
  has_room zone2 = true ->
  exists p zone3,
    FrameRebase.Rebase (S fuel) fr loc zone = Ok (p, zone3)
    /\ IsPairLocation p = true /\ Equals p loc = false
    /\ PairRef.Component p 0 zone3 = Ok r0
    /\ PairRef.Component p 1 zone3 = Ok r1.
Proof.
  intros IP C0 C1 R0 R1 Room.
  destruct (Rebase_extends _ _ _ _ _ _ R0) as [ext0 E0].
  destruct (Rebase_extends _ _ _ _ _ _ R1) as [ext1 E1].
  exists (read (pair_word (List.length zone2))), (zone2 ++ [[r0; r1]]).
  split; [| split; [| split]].
  - cbn [FrameRebase.Rebase]. rewrite IP, C0. cbn [mbind Checked_bind].
    rewrite R0. cbn [mbind Checked_bind]. rewrite E0.
    rewrite (Component_app_l _ _ _ _ _ C1). cbn [mbind Checked_bind].
    rewrite <- E0, R1. cbn [mbind Checked_bind]. apply Pair_Ok, Room.
  - apply IsPairLocation_pair_word.
  - apply Equals_false. cbn [write]. intros E.
    destruct (Component_address _ _ _ _ C0) as (n & L & I).
    rewrite <- E in I. unfold pair_word in I.
    rewrite pair_word_address, index_of_address_of in I
      by auto using has_room_range, address_of_tag.
    injection I as <-. rewrite E1, E0, !length_app in L. lia.
  - rewrite !Component_new by assumption. split; reflexivity.
Qed.

Lemma Equals_refl loc : Equals loc loc = true.
Proof. apply Z.eqb_refl. Qed.

(** C4 (amended).  [Rebase] of a stack slot whose base register is
    [old_base] returns the slot of the same kind with base [new_base] and
    index increased by [stack_delta], provided that [new_base] fits the
    field of the base register, as every cpu register does, and that the
    new index lies within the bias.  Otherwise it returns no location:
    when [new_base] does not fit its field the update of the field fails
    its check; when the new index lies beyond the bias the check of
    [EncodeStackIndex] fails, unless the sum does not even fit an
    [intptr_t], in which case the addition has no defined result.  A
    stack slot with another base register and a location that is neither
    a stack slot nor a pair reference are returned as they are.  For a
    pair reference the result is a reference to a new pair whose
    components are the rebased components.  [StackSlot(-3, FP)] rebased
    from [FP] to [SP] with delta 10 is [StackSlot(7, SP)]. *)
Theorem C4_frame_rebase fuel :
  (forall fr loc (zone : Zone) o,
      is_uword (write loc) = true -> HasStackIndex loc = true ->
      base_reg loc = Ok (old_base_ fr) -> stack_index loc = Ok o ->
      (base_in_range (new_base_ fr) = true ->
       stack_index_in_range (o + stack_delta_ fr) = true ->
       exists loc',
         FrameRebase.Rebase (S fuel) fr loc zone = Ok (loc', zone)
         /\ kind loc' = kind loc
         /\ base_reg loc' = Ok (new_base_ fr)
         /\ stack_index loc' = Ok (o + stack_delta_ fr))
      /\ (base_in_range (new_base_ fr) = true ->
          stack_index_in_range (o + stack_delta_ fr) = false ->
          FrameRebase.Rebase (S fuel) fr loc zone
          = Fatal (if is_intptr (o + stack_delta_ fr) then AssertionFailed
                   else UndefinedBehavior))
      /\ (base_in_range (new_base_ fr) = false ->
          is_intptr (new_base_ fr) = true ->
          FrameRebase.Rebase (S fuel) fr loc zone = Fatal AssertionFailed))
  /\ (forall fr loc (zone : Zone) b,
        HasStackIndex loc = true -> base_reg loc = Ok b -> b <> old_base_ fr ->
        FrameRebase.Rebase (S fuel) fr loc zone = Ok (loc, zone)
        /\ Equals loc loc = true)
  /\ (forall fr loc (zone : Zone),
        IsPairLocation loc = false -> HasStackIndex loc = false ->
        FrameRebase.Rebase (S fuel) fr loc zone = Ok (loc, zone)
        /\ Equals loc loc = true)
  /\ (forall fr loc (zone : Zone) c0 c1 r0 r1 zone1 zone2,
        IsPairLocation loc = true ->
        PairRef.Component loc 0 zone = Ok c0 ->
        PairRef.Component loc 1 zone = Ok c1 ->
        FrameRebase.Rebase fuel fr c0 zone = Ok (r0, zone1) ->
        FrameRebase.Rebase fuel fr c1 zone1 = Ok (r1, zone2) ->
        has_room zone2 = true ->
        exists p zone3,
          FrameRebase.Rebase (S fuel) fr loc zone = Ok (p, zone3)
          /\ IsPairLocation p = true /\ Equals p loc = false
          /\ PairRef.Component p 0 zone3 = Ok r0
          /\ PairRef.Component p 1 zone3 = Ok r1)
  /\ (forall fp sp (zone : Zone),
        base_in_range fp = true -> base_in_range sp = true ->
        exists from to,
          StackSlot (-3) fp = Ok from /\ StackSlot 7 sp = Ok to
          /\ FrameRebase.Rebase (S fuel)
               {| old_base_ := fp; new_base_ := sp; stack_delta_ := 10 |}
               from zone
             = Ok (to, zone)).
Proof.
  pose proof layout_bounds as (P & I & B & S & E & E2 & W).
  split; [| split; [| split; [| split]]].
  - intros fr loc zone o U H BR SI.
    destruct (stack_location_canonical loc U H) as (o' & r & Ho & Hr & L).
    apply HasStackIndex_iff in H. set (k := kind loc) in *.
    rewrite L in BR, SI |- *.
    rewrite base_reg_stack_word in BR by assumption.
    rewrite stack_index_stack_word in SI by assumption.
    injection BR as BR. injection SI as ->.
    destruct (Rebase_same_base_Fatal fuel fr k o r zone H Ho Hr BR)
      as (FB & FU & FA).
    split; [| split].
    + intros NB D. unfold base_in_range in NB.
      unfold stack_index_in_range in D.
      destruct (Rebase_same_base fuel fr k o r zone H Ho Hr BR ltac:(lia))
        as [Y _].
      assert (D' : - kStackIndexBias <= o + stack_delta_ fr < kStackIndexBias)
        by lia.
      eexists. split; [apply Y, D' |].
      unfold stack_word at 1. rewrite kind_pack by (apply stack_kind_range, H).
      rewrite base_reg_stack_word, stack_index_stack_word
        by (assumption || lia).
      auto.
    + intros NB D.
      destruct (is_intptr (o + stack_delta_ fr)) eqn:IP; auto.
    + exact FB.
  - intros fr loc zone b H BR N. split; [| apply Equals_refl].
    cbn [FrameRebase.Rebase]. rewrite (stack_not_pair loc H), H. cbn [negb].
    rewrite BR. cbn [mbind Checked_bind].
    replace (b =? old_base_ fr) with false by (symmetry; apply Z.eqb_neq, N).
    reflexivity.
  - intros fr loc zone NP NS. split; [| apply Equals_refl].
    cbn [FrameRebase.Rebase]. rewrite NP, NS. reflexivity.
  - intros fr loc zone c0 c1 r0 r1 zone1 zone2. apply Rebase_pair.
  - intros fp sp zone Hfp Hsp. unfold base_in_range in Hfp, Hsp.
    assert (K : stack_kind kStackSlot) by (unfold stack_kind; auto).
    assert (B3 : - kStackIndexBias <= -3 < kStackIndexBias).
    { assert (2 ^ 21 <= 2 ^ (kBitsForStackIndex - 1))
        by (apply Z.pow_le_mono_r; lia). lia. }
    assert (B7 : - kStackIndexBias <= 7 < kStackIndexBias).
    { assert (2 ^ 21 <= 2 ^ (kBitsForStackIndex - 1))
        by (apply Z.pow_le_mono_r; lia). lia. }
    exists (read (stack_word kStackSlot (-3) fp)),
      (read (stack_word kStackSlot 7 sp)).
    unfold StackSlot. rewrite !stack_slot_of_kind_Ok by (assumption || lia).
    split; [reflexivity |]. split; [reflexivity |].
    destruct (Rebase_same_base fuel
                {| old_base_ := fp; new_base_ := sp; stack_delta_ := 10 |}
                kStackSlot (-3) fp zone K B3 ltac:(lia) eq_refl
                ltac:(simpl; lia))
      as [Y _].
    apply Y. simpl. lia.
Qed.
End RebasePairs.

(** ** Further properties of locations *)

Section AccessorFacts.
Context {target : Target}.
Import Location.

Lemma is_uword_range x : is_uword x = true <-> 0 <= x < 2 ^ kBitsPerWord.
Proof. unfold is_uword. lia. Qed.

Lemma land_uword_not_tag v i :
  0 <= i ->
  Z.testbit (Z.land v (uword_not kLocationTagMask)) i
  = (2 <=? i) && (i <? kBitsPerWord) && Z.testbit v i.
Proof.
  intros Hi. rewrite Z.land_spec, testbit_uword_not by lia.
  change kLocationTagMask with (Z.ones 2).
  destruct (Z.leb_spec 2 i).
  - rewrite Z.ones_spec_high by lia. simpl.
    destruct (i <? kBitsPerWord); simpl; auto using andb_true_r.
    apply andb_false_r.
  - rewrite Z.ones_spec_low by lia. simpl. rewrite andb_false_r.
    apply andb_false_r.
Qed.

Lemma clear_tag_aligned v :
  Z.land (Z.land v (uword_not kLocationTagMask)) kLocationTagMask = 0.
Proof.
  apply Z.bits_inj'. intros i Hi.
  rewrite Z.land_spec, land_uword_not_tag, Z.testbit_0_l by lia.
  change kLocationTagMask with (Z.ones 2).
  destruct (Z.leb_spec 2 i).
  - rewrite Z.ones_spec_high by lia. apply andb_false_r.
  - reflexivity.
Qed.

Lemma clear_tag_range v :
  0 <= Z.land v (uword_not kLocationTagMask) < 2 ^ kBitsPerWord.
Proof.
  pose proof kBitsPerWord_pos.
  assert (N : 0 <= Z.land v (uword_not kLocationTagMask)).
  { apply Z.land_nonneg. right. apply to_uword_range. }
  split; [exact N |]. apply small_of_testbit; [lia | exact N |].
  intros i Hi. rewrite land_uword_not_tag by lia.
  replace (i <? kBitsPerWord) with false by lia. rewrite andb_false_r.
  reflexivity.
Qed.

Lemma restore_tag v t :
  0 <= v < 2 ^ kBitsPerWord -> 0 <= t < 4 -> Z.land v kLocationTagMask = t ->
  Z.lor (Z.land v (uword_not kLocationTagMask)) t = v.
Proof.
  intros R Ht T. apply Z.bits_inj'. intros i Hi.
  rewrite Z.lor_spec, land_uword_not_tag by lia.
  assert (B : Z.testbit (Z.land v kLocationTagMask) i = Z.testbit t i)
    by congruence.
  rewrite Z.land_spec in B. change kLocationTagMask with (Z.ones 2) in B.
  destruct (Z.leb_spec 2 i).
  - rewrite (testbit_small t 2) by lia. rewrite orb_false_r. simpl.
    destruct (Z.ltb_spec i kBitsPerWord); [reflexivity |].
    rewrite (testbit_small v kBitsPerWord) by lia. reflexivity.
  - rewrite Z.ones_spec_low in B by lia. rewrite andb_true_r in B.
    simpl. congruence.
Qed.

(** [Constant] returns the tagged address or fails a check. *)
Lemma Constant_cases obj :
  Constant obj = Ok (read (Z.lor (to_uword obj) kConstantTag))
  \/ Constant obj = Fatal AssertionFailed.
Proof.
  unfold Constant, constant_instruction.
  destruct (IsConstant (read (Z.lor (to_uword obj) kConstantTag)));
    cbn [mbind Checked_bind ASSERT]; [| auto].
  destruct (obj =? _); cbn [mbind Checked_bind ASSERT]; auto.
Qed.

Lemma Constant_inv obj loc :
  Constant obj = Ok loc ->
  loc = read (Z.lor (to_uword obj) kConstantTag)
  /\ obj = Z.land (Z.lor (to_uword obj) kConstantTag)
                 (uword_not kLocationTagMask).
Proof.
  unfold Constant, constant_instruction. intros H.
  destruct (IsConstant (read (Z.lor (to_uword obj) kConstantTag)));
    cbn [mbind Checked_bind ASSERT] in H; [| discriminate H].
  unfold value_ in H. cbn [write] in H.
  destruct (Z.eqb_spec obj
              (Z.land (Z.lor (to_uword obj) kConstantTag)
                      (uword_not kLocationTagMask)))
    as [E | E]; cbn [mbind Checked_bind ASSERT] in H; [| discriminate H].
  injection H as <-. auto.
Qed.

Lemma constant_instruction_Fatal loc :
  IsConstant loc = false -> constant_instruction loc = Fatal AssertionFailed.
Proof. unfold constant_instruction. intros ->. reflexivity. Qed.

Lemma uword_location loc :
  is_uword (write loc) = true -> loc = read (pack 5 (kind loc) (payload loc)).
Proof.
  intros U. apply is_uword_range in U. destruct loc as [v]. f_equal.
  apply (value_unpack (read v)). exact U.
Qed.

Lemma of_kind_uword k p loc :
  of_kind k p = Ok loc -> is_uword (write loc) = true.
Proof.
  unfold of_kind, BitField.encode. intros H.
  destruct (BitField.is_valid KindField k);
    cbn [mbind Checked_bind ASSERT] in H; [| discriminate H].
  destruct (BitField.is_valid PayloadField (to_uword p));
    cbn [mbind Checked_bind ASSERT] in H; [| discriminate H].
  injection H as <-.
  apply is_uword_range. cbn [write].
  pose proof kBitsPerWord_pos.
  assert (N : 0 <= Z.lor (to_uword (Z.shiftl (to_uword k)
                                      (BitField.position KindField)))
                         (to_uword (Z.shiftl (to_uword (to_uword p))
                                      (BitField.position PayloadField)))).
  { apply Z.lor_nonneg. split; apply to_uword_range. }
  split; [exact N |]. apply small_of_testbit; [lia | exact N |].
  intros i Hi. rewrite Z.lor_spec, !testbit_to_uword.
  replace (i <? kBitsPerWord) with false by lia. reflexivity.
Qed.

Lemma reg_Fatal loc : IsRegister loc = false -> reg loc = Fatal AssertionFailed.
Proof. unfold reg. intros ->. reflexivity. Qed.

Lemma fpu_reg_Fatal loc :
  IsFpuRegister loc = false -> fpu_reg loc = Fatal AssertionFailed.
Proof. unfold fpu_reg. intros ->. reflexivity. Qed.

Lemma to_uword_intptr r :
  is_intptr r = true -> ~ 0 <= r < 2 ^ kPayloadBitsSize ->
  2 ^ kPayloadBitsSize <= to_uword r.
Proof.
  unfold is_intptr, to_uword. intros I N.
  destruct layout_cases as [(W & P & _) | (W & P & _)]; rewrite W, P in *.
  - destruct (Z.lt_ge_cases r 0).
    + replace r with ((r + 2 ^ 64) + (-1) * 2 ^ 64) by lia.
      rewrite Z.mod_add by lia. rewrite Z.mod_small; lia.
    + rewrite Z.mod_small; lia.
  - destruct (Z.lt_ge_cases r 0).
    + replace r with ((r + 2 ^ 32) + (-1) * 2 ^ 32) by lia.
      rewrite Z.mod_add by lia. rewrite Z.mod_small; lia.
    + rewrite Z.mod_small; lia.
Qed.

Lemma is_int_intptr r : is_int r = true -> is_intptr r = true.
Proof.
  unfold is_int, is_intptr. pose proof kBitsPerWord_pos. intros I.
  assert (2 ^ 31 <= 2 ^ (kBitsPerWord - 1)) by (apply Z.pow_le_mono_r; lia).
  lia.
Qed.

Lemma to_int_range x : - 2 ^ 31 <= to_int x < 2 ^ 31.
Proof.
  unfold to_int. pose proof (Z.mod_pos_bound (x + 2 ^ 31) (2 ^ 32)). lia.
Qed.

Lemma to_int_plus x : to_int (x + 2 ^ 32) = to_int x.
Proof.
  unfold to_int. replace (x + 2 ^ 32 + 2 ^ 31) with (x + 2 ^ 31 + 1 * 2 ^ 32)
    by lia.
  rewrite Z.mod_add by lia. reflexivity.
Qed.

(** [MachineRegisterLocation] of one of the two kinds builds a location of
    the kind from the narrowed code. *)
Lemma machine_kind_location k reg :
  IsMachineRegisterKind k = true ->
  MachineRegisterLocation k reg = of_kind k (to_int reg) /\ 0 <= k < 32.
Proof.
  unfold IsMachineRegisterKind, MachineRegisterLocation, RegisterLocation,
    FpuRegisterLocation.
  intros M. destruct (Z.eqb_spec k kRegister) as [-> | N].
  - split; [reflexivity | cbv; split; congruence].
  - simpl in M. rewrite M. apply Z.eqb_eq in M. subst k.
    split; [reflexivity | cbv; split; congruence].
Qed.

Lemma register_location k r :
  0 <= k < 32 -> 0 <= r < 2 ^ kPayloadBitsSize ->
  kind (read (pack 5 k r)) = k /\ payload (read (pack 5 k r)) = r.
Proof. intros. split; [apply kind_pack | apply payload_pack]; assumption. Qed.
End AccessorFacts.

Section AccessorProperties.
Context {target : Target}.
Import Location.

(** X1.  [Constant] accepts exactly the addresses whose two tag bits are
    clear: it then returns a constant location from which
    [constant_instruction] reads the address back, and it fails its check
    for any other address.  Conversely a constant location is
    [Constant] of its [constant_instruction], and on a location that is not
    a constant [constant_instruction] fails its check. *)
Theorem X1_constant_round_trip obj :
  is_uword obj = true ->
  (Z.land obj kLocationTagMask = 0 ->
   exists loc, Constant obj = Ok loc /\ IsConstant loc = true
               /\ constant_instruction loc = Ok obj)
  /\ (Z.land obj kLocationTagMask <> 0 -> Constant obj = Fatal AssertionFailed)
  /\ (forall loc,
        is_uword (write loc) = true -> IsConstant loc = true ->
        exists obj',
          constant_instruction loc = Ok obj' /\ Constant obj' = Ok loc)
  /\ (forall loc,
        IsConstant loc = false ->
        constant_instruction loc = Fatal AssertionFailed).
Proof.
  intros U. apply is_uword_range in U.
  split; [| split; [| split]].
  - intros A. exists (read (Z.lor obj kConstantTag)).
    pose proof (Constant_Ok obj U A) as C. split; [exact C |].
    pose proof (Constant_tag _ _ C) as T. split; [exact T |].
    unfold constant_instruction. rewrite T. cbn [mbind Checked_bind ASSERT].
    apply Constant_inv in C as [_ E]. rewrite to_uword_small in E by exact U.
    unfold value_. cbn [write]. congruence.
  - intros A. destruct (Constant_cases obj) as [C | C]; [| exact C].
    exfalso. apply A. apply Constant_inv in C as [_ E]. rewrite E.
    apply clear_tag_aligned.
  - intros loc UL C. apply is_uword_range in UL.
    exists (Z.land (write loc) (uword_not kLocationTagMask)).
    unfold constant_instruction. rewrite C. cbn [mbind Checked_bind ASSERT].
    split; [reflexivity |].
    rewrite Constant_Ok by auto using clear_tag_range, clear_tag_aligned.
    unfold IsConstant, value_ in C. apply Z.eqb_eq in C.
    rewrite restore_tag by (auto; cbv; split; congruence).
    destruct loc; reflexivity.
  - apply constant_instruction_Fatal.
Qed.

(** X2.  [policy] reads back the policy an unallocated location was built
    with, different policies give different locations, and on a location
    that is not unallocated [policy] fails its check. *)
Theorem X2_policy_round_trip :
  (forall pol, exists loc,
      UnallocatedLocation pol = Ok loc /\ IsUnallocated loc = true
      /\ policy loc = Ok (Policy_code pol))
  /\ (forall pol pol' loc,
        UnallocatedLocation pol = Ok loc -> UnallocatedLocation pol' = Ok loc ->
        pol = pol')
  /\ (forall loc,
        IsUnallocated loc = false -> policy loc = Fatal AssertionFailed).
Proof.
  split; [| split].
  - intros pol.
    pose proof (construct_Ok (UnallocatedLocationCall pol) eq_refl) as C.
    cbn [construct] in C. eexists. split; [exact C |].
    apply Unallocated_facts, C.
  - intros pol pol' loc H H'.
    apply Unallocated_facts in H as [_ P].
    apply Unallocated_facts in H' as [_ P'].
    apply Policy_code_inj. congruence.
  - intros loc U. unfold policy. rewrite U. reflexivity.
Qed.

Lemma IsRegisterBeneficial_spec loc :
  IsRegisterBeneficial loc = Ok (negb (write loc =? pack 5 kUnallocated 0)).
Proof.
  unfold IsRegisterBeneficial, Any.
  pose proof (construct_Ok (UnallocatedLocationCall kAny) eq_refl) as C.
  cbn [construct] in C. rewrite C. reflexivity.
Qed.

(** X3.  [IsRegisterBeneficial] is false on [Any()] and true on the
    location of every other constructor call. *)
Theorem X3_register_beneficial_unless_any c loc :
  in_range c = true -> construct c = Ok loc ->
  (IsRegisterBeneficial loc = Ok false <-> c = UnallocatedLocationCall kAny)
  /\ (IsRegisterBeneficial loc = Ok true <-> c <> UnallocatedLocationCall kAny).
Proof.
  intros R C. rewrite construct_Ok in C by assumption. injection C as <-.
  rewrite IsRegisterBeneficial_spec. cbn [write].
  change (pack 5 kUnallocated 0) with (word_of (UnallocatedLocationCall kAny)).
  destruct (Z.eqb_spec (word_of c) (word_of (UnallocatedLocationCall kAny)))
    as [E | E]; simpl.
  - apply word_of_inj in E; [| assumption | reflexivity].
    split; split; intros H; try reflexivity; try assumption; try discriminate H.
    contradiction.
  - assert (N : c <> UnallocatedLocationCall kAny) by congruence.
    split; split; intros H; try reflexivity; try assumption; try discriminate H.
    contradiction.
Qed.

(** X4.  A register code, a value of an enumeration of the size of an
    [int], that is not negative and fits the payload gives a register
    location from which [reg] and [register_code] read the code back, while
    [fpu_reg] fails its check; likewise with the roles of the two kinds
    exchanged.  Any other code, a negative one such as that of no register
    among them, fails the check of the constructor. *)
Theorem X4_register_round_trip r :
  is_int r = true ->
  if (0 <=? r) && (r <? 2 ^ kPayloadBitsSize)
  then exists loc floc,
      RegisterLocation r = Ok loc /\ IsRegister loc = true
      /\ reg loc = Ok r /\ register_code loc = Ok r
      /\ fpu_reg loc = Fatal AssertionFailed
      /\ FpuRegisterLocation r = Ok floc /\ IsFpuRegister floc = true
      /\ fpu_reg floc = Ok r /\ register_code floc = Ok r
      /\ reg floc = Fatal AssertionFailed
  else RegisterLocation r = Fatal AssertionFailed
       /\ FpuRegisterLocation r = Fatal AssertionFailed.
Proof.
  intros I. destruct ((0 <=? r) && (r <? 2 ^ kPayloadBitsSize)) eqn:B.
  - assert (R : 0 <= r < 2 ^ kPayloadBitsSize) by lia.
    exists (read (pack 5 kRegister r)), (read (pack 5 kFpuRegister r)).
    unfold RegisterLocation, FpuRegisterLocation.
    rewrite !of_kind_Ok by (assumption || (cbv; split; congruence)).
    destruct (register_location kRegister r ltac:(cbv; split; congruence) R)
      as [K P].
    destruct (register_location kFpuRegister r ltac:(cbv; split; congruence) R)
      as [K' P'].
    unfold reg, fpu_reg, register_code, IsMachineRegister, IsRegister,
      IsFpuRegister.
    rewrite K, K', P, P'. cbn [mbind Checked_bind ASSERT].
    rewrite (to_int_small r I). repeat split.
  - assert (N : ~ 0 <= r < 2 ^ kPayloadBitsSize) by lia.
    pose proof (to_uword_intptr r (is_int_intptr r I) N).
    unfold RegisterLocation, FpuRegisterLocation.
    split; apply of_kind_Fatal; assumption.
Qed.

(** X5.  [MachineRegisterLocation] fails its check for a kind that is
    neither [kRegister] nor [kFpuRegister].  For these two kinds and a
    code that is a non-negative [int] and fits the payload it returns a
    location of the kind from which [register_code] reads the code back.
    It narrows its [intptr_t] argument to the register enumeration, so that
    codes that differ by [2 ^ 32] give the same result; hence a machine
    register location is [MachineRegisterLocation] of its kind and
    register code if its code is below [2 ^ 31], and not otherwise.
    [register_code] fails its check on any other location. *)
Theorem X5_machine_register_location_round_trip :
  (forall k reg,
      IsMachineRegisterKind k = false ->
      MachineRegisterLocation k reg = Fatal AssertionFailed)
  /\ (forall k reg,
        IsMachineRegisterKind k = true -> is_int reg = true ->
        0 <= reg < 2 ^ kPayloadBitsSize ->
        exists loc,
          MachineRegisterLocation k reg = Ok loc
          /\ kind loc = k /\ register_code loc = Ok reg)
  /\ (forall k reg,
        MachineRegisterLocation k (reg + 2 ^ 32)
        = MachineRegisterLocation k reg)
  /\ (forall loc,
        is_uword (write loc) = true -> IsMachineRegister loc = true ->
        exists code,
          register_code loc = Ok code
          /\ (code < 2 ^ 31 ->
              MachineRegisterLocation (kind loc) code = Ok loc)
          /\ (2 ^ 31 <= code ->
              MachineRegisterLocation (kind loc) code <> Ok loc))
  /\ (forall loc,
        IsMachineRegister loc = false ->
        register_code loc = Fatal AssertionFailed).
Proof.
  split; [| split; [| split; [| split]]].
  - intros k reg H. unfold IsMachineRegisterKind in H.
    apply orb_false_iff in H as [H1 H2]. unfold MachineRegisterLocation.
    rewrite H1, H2. reflexivity.
  - intros k reg M I R.
    destruct (machine_kind_location k reg M) as [E Kr].
    rewrite E, (to_int_small reg I).
    exists (read (pack 5 k reg)). rewrite of_kind_Ok by assumption.
    destruct (register_location k reg Kr R) as [K P].
    unfold register_code, IsMachineRegister. rewrite K, P, M. auto.
  - intros k reg. unfold MachineRegisterLocation.
    rewrite to_int_plus. reflexivity.
  - intros loc U M. exists (payload loc).
    unfold register_code. rewrite M. split; [reflexivity |].
    pose proof (payload_range loc) as PR.
    pose proof (uword_location loc U) as L.
    unfold IsMachineRegister in M.
    destruct (machine_kind_location (kind loc) (payload loc) M) as [E Kr].
    rewrite E. split.
    + intros H. rewrite to_int_small by (unfold is_int; lia).
      rewrite of_kind_Ok by assumption. congruence.
    + intros H O. apply of_kind_inv in O as [O R]; [| exact Kr].
      apply (f_equal payload) in O.
      rewrite payload_pack in O by assumption.
      pose proof (to_int_range (payload loc)) as TR.
      clear E. generalize dependent (to_int (payload loc)). intros t O R TR.
      unfold to_uword in R, O.
      destruct layout_cases as [(W & P & _) | (W & P & _)];
        rewrite W in R, O; rewrite P in R, PR.
      * destruct (Z.lt_ge_cases t 0).
        -- replace t with ((t + 2 ^ 64) + (-1) * 2 ^ 64) in R by lia.
           rewrite Z.mod_add, Z.mod_small in R by lia. lia.
        -- rewrite Z.mod_small in O by lia. lia.
      * destruct (Z.lt_ge_cases t 0).
        -- replace t with ((t + 2 ^ 32) + (-1) * 2 ^ 32) in R by lia.
           rewrite Z.mod_add, Z.mod_small in R by lia. lia.
        -- rewrite Z.mod_small in O by lia. lia.
  - intros loc M. unfold register_code. rewrite M. reflexivity.
Qed.
End AccessorProperties.

Section KindFacts.
Context {target : Target}.
Import Location.

Lemma IsConstant_kind loc :
  IsConstant loc = (Z.land (kind loc) kLocationTagMask =? kConstantTag).
Proof. unfold IsConstant, value_. rewrite kind_tag. reflexivity. Qed.

Lemma IsPairLocation_kind loc :
  IsPairLocation loc = (Z.land (kind loc) kLocationTagMask =? kPairLocationTag).
Proof. unfold IsPairLocation, value_. rewrite kind_tag. reflexivity. Qed.

Lemma count_true_map ps loc :
  count_true ps loc
  = List.length
      (List.filter (fun b : bool => b) (List.map (fun p => p loc) ps)).
Proof.
  unfold count_true. induction ps as [| p ps IH]; [reflexivity |].
  simpl. destruct (p loc); simpl; congruence.
Qed.

Lemma count_true_kind loc :
  count_true kind_predicates loc
  = List.length
      (List.filter (fun b : bool => b)
         [IsInvalid loc;
          Z.land (kind loc) kLocationTagMask =? kConstantTag;
          Z.land (kind loc) kLocationTagMask =? kPairLocationTag;
          kind loc =? kUnallocated; kind loc =? kRegister;
          kind loc =? kFpuRegister; kind loc =? kStackSlot;
          kind loc =? kDoubleStackSlot; kind loc =? kQuadStackSlot]).
Proof.
  rewrite count_true_map, <- IsConstant_kind, <- IsPairLocation_kind.
  reflexivity.
Qed.

Lemma small_cases k : 0 <= k < 32 -> In k (seqZ 0 32).
Proof. intros. apply list_elem_of_In, elem_of_seqZ. lia. Qed.

Lemma kind_predicates_exclusive loc : (count_true kind_predicates loc <= 1)%nat.
Proof.
  rewrite count_true_kind.
  pose proof (IsInvalid_kind loc) as I.
  pose proof (small_cases _ (kind_range loc)) as K.
  destruct (IsInvalid loc).
  - rewrite I by reflexivity. cbv. lia.
  - clear I. generalize dependent (kind loc). intros k K.
    cbv in K.
    repeat (destruct K as [<- | K]; [cbv; lia |]). destruct K.
Qed.

Lemma count_in_true (l : list bool) :
  In true l -> (1 <= List.length (List.filter (fun b : bool => b) l))%nat.
Proof.
  induction l as [| b l IH]; simpl; [tauto |].
  destruct b; simpl; [lia |]. intros [H | H]; [discriminate H | auto].
Qed.

Lemma constructed_kind_predicate c loc :
  construct c = Ok loc -> (1 <= count_true kind_predicates loc)%nat.
Proof.
  intros C. rewrite count_true_kind. apply count_in_true.
  pose proof (construct_kind c loc C) as K.
  assert (I : c = NoLocationCall -> IsInvalid loc = true).
  { intros ->. simpl in C. unfold NoLocation, default in C.
    cbn [mbind Checked_bind ASSERT] in C.
    destruct (IsInvalid (read kInvalidLocation)) eqn:E;
      cbn [mbind Checked_bind ASSERT] in C; [| discriminate C].
    injection C as <-. exact E. }
  cbn [In].
  destruct c; cbn [is_constant_call kind_of] in K;
    try rewrite IsConstant_kind in K;
    rewrite ?K, ?I, ?Z.eqb_refl by reflexivity;
    repeat match goal with
           | |- true = true \/ _ => left; reflexivity
           | |- _ \/ _ => right
           end.
Qed.
End KindFacts.

Section KindProperties.
Context {target : Target}.
Import Location.

(** X6.  The predicates on the kind of a location exclude each other: of
    [IsInvalid], [IsConstant], [IsPairLocation], [IsUnallocated],
    [IsRegister], [IsFpuRegister], [IsStackSlot], [IsDoubleStackSlot] and
    [IsQuadStackSlot] at most one holds of any word, and exactly one holds
    of the location a constructor returns. *)
Theorem X6_kind_predicates_exclude_each_other :
  (forall loc, (count_true kind_predicates loc <= 1)%nat)
  /\ (forall c loc,
        construct c = Ok loc -> count_true kind_predicates loc = 1%nat).
Proof.
  split.
  - apply kind_predicates_exclusive.
  - intros c loc C. pose proof (kind_predicates_exclusive loc).
    pose proof (constructed_kind_predicate c loc C). lia.
Qed.

Lemma stack_slot_constructor_kind k :
  stack_kind k ->
  exists make, stack_slot_constructor k = Some make
               /\ In make stack_slot_constructors
               /\ forall o r, make o r = stack_slot_of_kind k o r.
Proof.
  unfold stack_slot_constructors.
  intros [-> | [-> | ->]]; eexists; (split; [reflexivity |]); simpl; auto.
Qed.

(** X7.  A location that has a stack index holds an index within the bias
    and a base register that fits its field, and the constructor of its
    kind rebuilds the location from the two.  On any other location
    [stack_index] and [base_reg] fail their check. *)
Theorem X7_stack_slot_decode_encode loc :
  is_uword (write loc) = true ->
  (HasStackIndex loc = true ->
   exists o r make,
     stack_index loc = Ok o /\ base_reg loc = Ok r
     /\ stack_index_in_range o = true /\ base_in_range r = true
     /\ stack_slot_constructor (kind loc) = Some make
     /\ make o r = Ok loc)
  /\ (HasStackIndex loc = false ->
      stack_index loc = Fatal AssertionFailed
      /\ base_reg loc = Fatal AssertionFailed).
Proof.
  intros U. split.
  - intros S. pose proof (proj1 (HasStackIndex_iff loc) S) as K.
    destruct (stack_location_canonical loc U S) as (o & r & Ro & Rr & E).
    destruct (stack_slot_constructor_kind _ K) as (make & M & _ & Mk).
    exists o, r, make. rewrite Mk, stack_slot_of_kind_Ok by assumption.
    rewrite E at 1 2.
    rewrite stack_index_stack_word, base_reg_stack_word by assumption.
    unfold stack_index_in_range, base_in_range.
    repeat split; try lia; try assumption. congruence.
  - intros S. unfold stack_index, base_reg. rewrite S. auto.
Qed.

Lemma kind_stack_word k o r :
  stack_kind k -> kind (read (stack_word k o r)) = k.
Proof. intros K. apply kind_pack. apply stack_kind_range, K. Qed.

(** X8.  On a location that has a stack index [set_base_reg] replaces the
    base register and [set_stack_index] the index, each leaving the kind
    and the other field as they are; setting the value a field holds
    returns the location itself.  [set_stack_index] fails its check for an
    index outside the bias, [set_base_reg] for a register that does not fit
    its field, and both fail on a location without a stack index. *)
Theorem X8_stack_slot_setters loc o r :
  is_uword (write loc) = true ->
  (HasStackIndex loc = true ->
   stack_index loc = Ok o -> base_reg loc = Ok r ->
   (forall r', base_in_range r' = true ->
      exists loc', set_base_reg loc r' = Ok loc'
                   /\ kind loc' = kind loc /\ base_reg loc' = Ok r'
                   /\ stack_index loc' = Ok o)
   /\ (forall o', stack_index_in_range o' = true ->
         exists loc', set_stack_index loc o' = Ok loc'
                      /\ kind loc' = kind loc /\ base_reg loc' = Ok r
                      /\ stack_index loc' = Ok o')
   /\ set_base_reg loc r = Ok loc /\ set_stack_index loc o = Ok loc
   /\ (forall o', stack_index_in_range o' = false ->
         set_stack_index loc o' = Fatal AssertionFailed)
   /\ (forall r', is_uword r' = true -> base_in_range r' = false ->
         set_base_reg loc r' = Fatal AssertionFailed))
  /\ (HasStackIndex loc = false ->
      forall x, set_base_reg loc x = Fatal AssertionFailed
                /\ set_stack_index loc x = Fatal AssertionFailed).
Proof.
  intros U. split.
  - intros S SI BR. pose proof (proj1 (HasStackIndex_iff loc) S) as K.
    destruct (stack_location_canonical loc U S) as (o0 & r0 & Ro & Rr & E).
    assert (o0 = o /\ r0 = r) as [-> ->].
    { rewrite E in SI, BR.
      rewrite stack_index_stack_word in SI by assumption.
      rewrite base_reg_stack_word in BR by assumption.
      split; congruence. }
    set (k := kind loc) in *. clearbody k. subst loc.
    split; [| split; [| split; [| split; [| split]]]].
    + intros r' R'. unfold base_in_range in R'.
      exists (read (stack_word k o r')).
      rewrite set_base_reg_stack_word, kind_stack_word, base_reg_stack_word,
        stack_index_stack_word by (assumption || lia).
      auto.
    + intros o' O'. unfold stack_index_in_range in O'.
      exists (read (stack_word k o' r)).
      rewrite set_stack_index_stack_word, kind_stack_word, base_reg_stack_word,
        stack_index_stack_word by (assumption || lia).
      auto.
    + apply set_base_reg_stack_word; assumption.
    + apply set_stack_index_stack_word; assumption.
    + intros o' O'. apply set_stack_index_Fatal.
      unfold stack_index_in_range in O'. lia.
    + intros r' U' R'. apply set_base_reg_Fatal; [exact S |].
      apply is_uword_range in U'. rewrite to_uword_small by exact U'.
      unfold base_in_range in R'. lia.
  - intros S x. unfold set_base_reg, set_stack_index. rewrite S. auto.
Qed.
End KindProperties.

(** ** Further properties of the frame rebase *)

Section RebaseProperties.
Context {target : Target}.
Import Location.

Lemma stack_location_fields loc o r :
  is_uword (write loc) = true -> HasStackIndex loc = true ->
  stack_index loc = Ok o -> base_reg loc = Ok r ->
  stack_kind (kind loc) /\ - kStackIndexBias <= o < kStackIndexBias
  /\ 0 <= r < 2 ^ kBitsForBaseReg /\ loc = read (stack_word (kind loc) o r).
Proof.
  intros U S SI BR. pose proof (proj1 (HasStackIndex_iff loc) S) as K.
  destruct (stack_location_canonical loc U S) as (o0 & r0 & Ro & Rr & E).
  assert (o0 = o /\ r0 = r) as [-> ->]; [| auto].
  rewrite E in SI, BR.
  rewrite stack_index_stack_word in SI by assumption.
  rewrite base_reg_stack_word in BR by assumption.
  split; congruence.
Qed.

(** X9.  Rebasing composes: a stack slot on base [a] rebased from [a] to
    [b] by [d1] and then from [b] to [c] by [d2] is the slot rebased from
    [a] to [c] by [d1 + d2], when the index stays within the bias on the
    way; rebasing back to [a] by [- d1] returns the slot itself.  The zone
    is left as it is. *)
Theorem X9_rebase_composes fuel a b c d1 d2 loc (zone : Zone) o :
  is_uword (write loc) = true -> HasStackIndex loc = true ->
  base_reg loc = Ok a -> stack_index loc = Ok o ->
  base_in_range b = true -> base_in_range c = true ->
  stack_index_in_range (o + d1) = true ->
  stack_index_in_range (o + d1 + d2) = true ->
  exists loc1 loc2,
    FrameRebase.Rebase (S fuel)
      {| old_base_ := a; new_base_ := b; stack_delta_ := d1 |} loc zone
    = Ok (loc1, zone)
    /\ FrameRebase.Rebase (S fuel)
         {| old_base_ := b; new_base_ := c; stack_delta_ := d2 |} loc1 zone
       = Ok (loc2, zone)
    /\ FrameRebase.Rebase (S fuel)
         {| old_base_ := a; new_base_ := c; stack_delta_ := d1 + d2 |} loc zone
       = Ok (loc2, zone)
    /\ (c = a -> d2 = - d1 -> loc2 = loc).
Proof.
  intros U S BR SI Rb Rc R1 R2.
  destruct (stack_location_fields loc o a U S SI BR) as (K & Ro & Ra & E).
  set (k := kind loc) in *. clearbody k. subst loc.
  unfold base_in_range in Rb, Rc. unfold stack_index_in_range in R1, R2.
  exists (read (stack_word k (o + d1) b)),
    (read (stack_word k (o + d1 + d2) c)).
  split; [| split; [| split]].
  - apply (Rebase_same_base fuel
             {| old_base_ := a; new_base_ := b; stack_delta_ := d1 |});
      simpl; auto; lia.
  - apply (Rebase_same_base fuel
             {| old_base_ := b; new_base_ := c; stack_delta_ := d2 |});
      simpl; auto; lia.
  - replace (o + d1 + d2) with (o + (d1 + d2)) in * by lia.
    apply (Rebase_same_base fuel
             {| old_base_ := a; new_base_ := c; stack_delta_ := d1 + d2 |});
      simpl; auto; lia.
  - intros -> ->. replace (o + d1 + - d1) with o by lia. reflexivity.
Qed.

Lemma Rebase_no_pair fuel fr loc (zone : Zone) r zone' :
  IsPairLocation loc = false ->
  FrameRebase.Rebase fuel fr loc zone = Ok (r, zone') -> zone' = zone.
Proof.
  intros P H. destruct fuel as [| fuel]; [discriminate H |].
  cbn [FrameRebase.Rebase] in H. rewrite P in H.
  destruct (negb (HasStackIndex loc)); [congruence |].
  bind_inv H. destruct (negb (a =? old_base_ fr)); [congruence |].
  repeat bind_inv H. congruence.
Qed.

(** X10.  [Rebase] only allocates: the zone it returns is the zone it was
    given followed by the pairs it allocated, so that every component read
    through an existing pair reference stays what it was.  It allocates
    nothing for a location that is not a pair reference, and for a pair
    reference it returns a pair reference that differs from the one it was
    given. *)
Theorem X10_rebase_only_allocates fuel fr loc (zone : Zone) r zone' :
  FrameRebase.Rebase fuel fr loc zone = Ok (r, zone') ->
  exists ext,
    zone' = zone ++ ext
    /\ (IsPairLocation loc = false -> ext = [])
    /\ (IsPairLocation loc = true ->
        ext <> [] /\ IsPairLocation r = true /\ Equals r loc = false)
    /\ (forall p i c,
          PairRef.Component p i zone = Ok c ->
          PairRef.Component p i zone' = Ok c).
Proof.
  intros H. destruct (Rebase_extends _ _ _ _ _ _ H) as [ext E].
  exists ext. split; [exact E |]. split; [| split].
  - intros P. pose proof (Rebase_no_pair _ _ _ _ _ _ P H) as Z0.
    rewrite Z0 in E. apply (f_equal List.length) in E.
    rewrite length_app in E. destruct ext; [reflexivity | simpl in E; lia].
  - intros P. destruct fuel as [| fuel]; [discriminate H |].
    cbn [FrameRebase.Rebase] in H. rewrite P in H.
    destruct (PairRef.Component loc 0 zone) as [c0 |] eqn:C0;
      simpl in H; [| discriminate H].
    destruct (FrameRebase.Rebase fuel fr c0 zone) as [[r0 zone1] |] eqn:R0;
      simpl in H; [| discriminate H].
    destruct (PairRef.Component loc 1 zone1) as [c1 |] eqn:C1;
      simpl in H; [| discriminate H].
    destruct (FrameRebase.Rebase fuel fr c1 zone1) as [[r1 zone2] |] eqn:R1;
      simpl in H; [| discriminate H].
    destruct (Rebase_extends _ _ _ _ _ _ R0) as [ext0 E0].
    destruct (Rebase_extends _ _ _ _ _ _ R1) as [ext1 E1].
    apply Pair_inv in H as (Room & -> & Z2).
    split; [| split].
    + intros ->. rewrite app_nil_r in E. subst zone'.
      apply (f_equal List.length) in E. rewrite E1, E0, !length_app in E.
      simpl in E. lia.
    + apply IsPairLocation_pair_word.
    + apply Equals_false. cbn [write]. intros Eq.
      destruct (Component_address _ _ _ _ C0) as (n & L & I).
      rewrite <- Eq in I. unfold pair_word in I.
      rewrite pair_word_address, index_of_address_of in I
        by auto using has_room_range, address_of_tag.
      injection I as <-. rewrite E1, E0, !length_app in L. lia.
  - intros p i c C. rewrite E. apply Component_app_l, C.
Qed.
End RebaseProperties.

(** ** Further properties of the sets *)

Section SetFacts.
Context {target : Target}.
Import Location.

(** The bits of the mask of a value: the bit of the value, and for 31
    every bit from there on, the mask being negative. *)
Lemma testbit_mask v w :
  maskable v = true -> 0 <= w ->
  Z.testbit (to_int (Z.shiftl 1 v)) w = if v =? 31 then 31 <=? w else w =? v.
Proof.
  unfold maskable. intros M Hw. destruct (Z.eqb_spec v 31) as [-> | N].
  - rewrite one_shl_31. change (- 2 ^ 31) with (Z.lnot (Z.ones 31)).
    rewrite Z.lnot_spec by lia. rewrite Z.testbit_ones_nonneg by lia.
    lia.
  - rewrite one_shl_low by lia. rewrite Z.pow2_bits_eqb by lia.
    apply Z.eqb_sym.
Qed.

Lemma testbit_mask_maskable v w :
  maskable v = true -> maskable w = true ->
  Z.testbit (to_int (Z.shiftl 1 v)) w = (w =? v).
Proof.
  intros M W.
  rewrite testbit_mask by (assumption || (unfold maskable in W; lia)).
  unfold maskable in W. destruct (Z.eqb_spec v 31) as [-> | N]; lia.
Qed.

Lemma SmallSet_Add_Ok d v :
  maskable v = true ->
  SmallSet.Add d v = Ok (Z.lor d (to_int (Z.shiftl 1 v))).
Proof.
  intros M. unfold SmallSet.Add. rewrite ToMask_Ok by exact M. reflexivity.
Qed.

Lemma SmallSet_Remove_Ok d v :
  maskable v = true ->
  SmallSet.Remove d v = Ok (Z.land d (Z.lnot (to_int (Z.shiftl 1 v)))).
Proof.
  intros M. unfold SmallSet.Remove. rewrite ToMask_Ok by exact M. reflexivity.
Qed.

Lemma Contains_lor d v w :
  is_int d = true -> maskable v = true -> maskable w = true ->
  SmallSet.Contains (Z.lor d (to_int (Z.shiftl 1 v))) w
  = Ok ((w =? v) || Z.testbit d w).
Proof.
  intros I M W. destruct (mask_facts v M) as [_ Im].
  rewrite SmallSet_Contains_testbit by auto using is_int_lor.
  rewrite Z.lor_spec, testbit_mask_maskable by assumption.
  f_equal. apply orb_comm.
Qed.

Lemma Contains_land_lnot d v w :
  is_int d = true -> maskable v = true -> maskable w = true ->
  SmallSet.Contains (Z.land d (Z.lnot (to_int (Z.shiftl 1 v)))) w
  = Ok (negb (w =? v) && Z.testbit d w).
Proof.
  intros I M W. destruct (mask_facts v M) as [_ Im].
  rewrite SmallSet_Contains_testbit by auto using is_int_land, is_int_lnot.
  rewrite Z.land_spec, Z.lnot_spec by (unfold maskable in W; lia).
  rewrite testbit_mask_maskable by assumption.
  f_equal. apply andb_comm.
Qed.

Lemma int_set_iff s :
  int_set s = true
  <-> is_int (cpu_registers_ s) = true
      /\ is_int (untagged_cpu_registers_ s) = true
      /\ is_int (fpu_registers_ s) = true.
Proof. unfold int_set. rewrite !andb_true_iff. tauto. Qed.
End SetFacts.

Section SetProperties.
Context {target : Target}.
Import Location.

(** X11.  The mask of a value is [2 ^ value] below 31 and [INT_MIN] at 31,
    the shift being one of an [int]; a value of the word size or more fails
    the check, and a negative value or one from 32 up to the word size has
    no defined mask.  Adding 31 to a set therefore sets every bit of the
    word from bit 31 on. *)
Theorem X11_mask_of_a_value :
  (forall value,
      SmallSet.ToMask value
      = if kBitsPerWord <=? value then Fatal AssertionFailed
        else if (0 <=? value) && (value <? 31) then Ok (2 ^ value)
        else if value =? 31 then Ok (- 2 ^ 31)
        else Fatal UndefinedBehavior)
  /\ (forall d d' i,
        SmallSet.Add d 31 = Ok d' -> 31 <= i -> Z.testbit d' i = true).
Proof.
  split.
  - intros value. unfold SmallSet.ToMask, int_one_shl.
    change (kWordSize * kBitsPerByte) with kBitsPerWord.
    pose proof kBitsPerWord_pos.
    destruct (Z.leb_spec kBitsPerWord value).
    + replace (value <? kBitsPerWord) with false by lia. reflexivity.
    + replace (value <? kBitsPerWord) with true by lia.
      cbn [mbind Checked_bind ASSERT].
      destruct ((0 <=? value) && (value <? 31)) eqn:L.
      * replace ((0 <=? value) && (value <? 32)) with true by lia.
        rewrite one_shl_low by lia. reflexivity.
      * destruct (Z.eqb_spec value 31) as [-> | N]; [reflexivity |].
        replace ((0 <=? value) && (value <? 32)) with false by lia.
        reflexivity.
  - intros d d' i A Hi. rewrite SmallSet_Add_Ok in A by reflexivity.
    injection A as <-. rewrite Z.lor_spec, testbit_mask by (reflexivity || lia).
    simpl. replace (31 <=? i) with true by lia. apply orb_true_r.
Qed.

(** X12.  A [SmallSet] is a set of the values 0 to 31: after [Add] of a
    value the set contains it and what it contained, after [Remove] it
    contains what it contained but for the value, and the set stays the
    value of an [int].  A set is not empty after [Add], and [Remove] leaves
    the empty set empty. *)
Theorem X12_small_set_membership d v w :
  is_int d = true -> maskable v = true -> maskable w = true ->
  exists da dr b,
    SmallSet.Add d v = Ok da /\ SmallSet.Remove d v = Ok dr
    /\ SmallSet.Contains d w = Ok b
    /\ is_int da = true /\ is_int dr = true
    /\ SmallSet.Contains da w = Ok ((w =? v) || b)
    /\ SmallSet.Contains dr w = Ok (negb (w =? v) && b)
    /\ SmallSet.IsEmpty da = false
    /\ (SmallSet.IsEmpty d = true -> b = false /\ dr = d).
Proof.
  intros I M W. destruct (mask_facts v M) as [N Im].
  exists (Z.lor d (to_int (Z.shiftl 1 v))),
    (Z.land d (Z.lnot (to_int (Z.shiftl 1 v)))), (Z.testbit d w).
  rewrite SmallSet_Add_Ok, SmallSet_Remove_Ok, Contains_lor, Contains_land_lnot
    by assumption.
  rewrite SmallSet_Contains_testbit by auto.
  repeat split; auto using is_int_lor, is_int_land, is_int_lnot.
  - apply Z.eqb_neq, lor_nonzero, N.
  - apply Z.eqb_eq in H. subst d. apply Z.testbit_0_l.
  - apply Z.eqb_eq in H. subst d. apply Z.land_0_l.
Qed.

Lemma maskable_in_range c :
  is_machine_register_call c = true -> maskable (payload_of c) = true ->
  in_range c = true.
Proof.
  pose proof layout_bounds as (P & _ & _ & _ & _ & _ & W).
  assert (2 ^ 5 <= 2 ^ kPayloadBitsSize) by (apply Z.pow_le_mono_r; lia).
  destruct c; try discriminate; unfold maskable; simpl; lia.
Qed.

(** X13.  A [RegisterSet] holds two sets that do not interfere.  For a
    register location whose register, as [reg] returns it, is one of 0 to
    31, a set whose masks hold an [int], as those of every set built by
    [Add] and [Remove] do, and every register [w] of 0 to 31: after [Add]
    of the location the set contains that register and the registers it
    contained, after [Remove] the registers it contained but for that
    one, and the fpu registers it contains are the same; likewise for an
    fpu register location with the roles of the two exchanged.  The three
    masks stay values of an [int].  For any other register, [Add] and
    [Remove] return nothing: below the word size the shift of [ToMask] has
    no defined result, and from the word size on its check fails. *)
Theorem X13_register_set_membership loc rep s r :
  reg loc = Ok r \/ fpu_reg loc = Ok r ->
  (maskable r = true -> int_set s = true ->
   exists s1 s2,
     RegisterSet.Add s loc rep = Ok s1
     /\ RegisterSet.Remove s loc = Ok s2
     /\ int_set s1 = true /\ int_set s2 = true
     /\ forall w, maskable w = true ->
          exists b bf,
            RegisterSet.ContainsRegister s w = Ok b
            /\ RegisterSet.ContainsFpuRegister s w = Ok bf
            /\ RegisterSet.ContainsRegister s1 w
               = Ok (IsRegister loc && (w =? r) || b)
            /\ RegisterSet.ContainsFpuRegister s1 w
               = Ok (IsFpuRegister loc && (w =? r) || bf)
            /\ RegisterSet.ContainsRegister s2 w
               = Ok (negb (IsRegister loc && (w =? r)) && b)
            /\ RegisterSet.ContainsFpuRegister s2 w
               = Ok (negb (IsFpuRegister loc && (w =? r)) && bf))
  /\ (maskable r = false ->
      RegisterSet.Add s loc rep
      = Fatal (if kBitsPerWord <=? r then AssertionFailed
               else UndefinedBehavior)
      /\ RegisterSet.Remove s loc
         = Fatal (if kBitsPerWord <=? r then AssertionFailed
                  else UndefinedBehavior)).
Proof.
  intros E. split.
  - intros M IS.
    apply int_set_iff in IS as (Ic & Iu & If).
    destruct (mask_facts _ M) as [_ Im].
    unfold RegisterSet.ContainsRegister, RegisterSet.ContainsFpuRegister.
    destruct E as [E | E].
    + destruct (reg_inv loc r E) as (IR & IF & _). rewrite IR, IF.
      rewrite (Add_reg _ loc rep r), (Remove_reg _ loc r) by assumption.
      do 2 eexists. split; [reflexivity |]. split; [reflexivity |].
      split; [| split].
      * apply int_set_iff; simpl; destruct (Representation_eqb rep kTagged);
          auto 6 using is_int_lor.
      * apply int_set_iff; simpl; auto 6 using is_int_land, is_int_lnot.
      * intros w W. exists (Z.testbit (cpu_registers_ s) w),
          (Z.testbit (fpu_registers_ s) w).
        cbn [cpu_registers_ fpu_registers_ untagged_cpu_registers_].
        rewrite Contains_lor, Contains_land_lnot by assumption.
        rewrite !SmallSet_Contains_testbit by auto.
        split; [reflexivity |]. split; [reflexivity |].
        split; [reflexivity |]. split; [reflexivity |].
        split; reflexivity.
    + destruct (fpu_reg_inv loc r E) as (IR & IF & _). rewrite IR, IF.
      rewrite (Add_fpu_reg _ loc rep r), (Remove_fpu_reg _ loc r)
        by assumption.
      do 2 eexists. split; [reflexivity |]. split; [reflexivity |].
      split; [| split].
      * apply int_set_iff; simpl; auto 6 using is_int_lor.
      * apply int_set_iff; simpl; auto 6 using is_int_land, is_int_lnot.
      * intros w W. exists (Z.testbit (cpu_registers_ s) w),
          (Z.testbit (fpu_registers_ s) w).
        cbn [cpu_registers_ fpu_registers_ untagged_cpu_registers_].
        rewrite Contains_lor, Contains_land_lnot by assumption.
        rewrite !SmallSet_Contains_testbit by auto.
        split; [reflexivity |]. split; [reflexivity |].
        split; [reflexivity |]. split; [reflexivity |].
        split; reflexivity.
  - intros M. destruct E as [E | E].
    + destruct (register_Fatal s loc rep r E M) as (A & B & _). auto.
    + destruct (fpu_register_Fatal s loc rep r E M) as (A & B & _). auto.
Qed.
End SetProperties.

Section UntaggedFacts.
Context {target : Target}.
Import Location.

Lemma IsTagged_false_inv s r :
  RegisterSet.IsTagged s r = Ok false ->
  exists m, SmallSet.ToMask r = Ok m
            /\ Z.land (untagged_cpu_registers_ s) m <> 0.
Proof.
  unfold RegisterSet.IsTagged, SmallSet.Contains. intros H.
  destruct (SmallSet.ToMask r) as [m |]; simpl in H; [| discriminate H].
  exists m. split; [reflexivity |].
  destruct (Z.eqb_spec (Z.land (untagged_cpu_registers_ s) m) 0);
    [discriminate H | assumption].
Qed.

Lemma IsTagged_false s r m :
  SmallSet.ToMask r = Ok m -> Z.land (untagged_cpu_registers_ s) m <> 0 ->
  RegisterSet.IsTagged s r = Ok false.
Proof.
  unfold RegisterSet.IsTagged, SmallSet.Contains. intros -> N. simpl.
  apply Z.eqb_neq in N. rewrite N. reflexivity.
Qed.

Lemma land_lor_nonzero u m' m : Z.land u m <> 0 -> Z.land (Z.lor u m') m <> 0.
Proof.
  intros N E. rewrite Z.land_lor_distr_l in E. apply Z.lor_eq_0_iff in E. tauto.
Qed.

Lemma MarkUntagged_inv s loc s1 :
  RegisterSet.MarkUntagged s loc = Ok s1 ->
  IsRegister loc = true
  /\ exists m, SmallSet.ToMask (to_int (payload loc)) = Ok m
               /\ s1 = {| cpu_registers_ := cpu_registers_ s;
                          untagged_cpu_registers_ :=
                            Z.lor (untagged_cpu_registers_ s) m;
                          fpu_registers_ := fpu_registers_ s |}.
Proof.
  unfold RegisterSet.MarkUntagged, reg, SmallSet.Add. intros H.
  destruct (IsRegister loc); cbn [mbind Checked_bind ASSERT] in H;
    [| discriminate H].
  destruct (SmallSet.ToMask (to_int (payload loc))) as [m |]; simpl in H;
    [| discriminate H].
  injection H as <-. eauto.
Qed.


Lemma Add_untagged s loc rep s1 :
  RegisterSet.Add s loc rep = Ok s1 ->
  untagged_cpu_registers_ s1 = untagged_cpu_registers_ s
  \/ exists m, untagged_cpu_registers_ s1
               = Z.lor (untagged_cpu_registers_ s) m.
Proof.
  unfold RegisterSet.Add. intros H.
  destruct (IsRegister loc); [| destruct (IsFpuRegister loc)].
  - bind_inv H. bind_inv H.
    destruct (negb (Representation_eqb rep kTagged)).
    + apply MarkUntagged_inv in H as (_ & m & _ & ->). simpl. eauto.
    + injection H as <-. auto.
  - bind_inv H. bind_inv H. injection H as <-. auto.
  - injection H as <-. auto.
Qed.

Lemma Remove_untagged s loc s1 :
  RegisterSet.Remove s loc = Ok s1 ->
  untagged_cpu_registers_ s1 = untagged_cpu_registers_ s.
Proof.
  unfold RegisterSet.Remove. intros H.
  destruct (IsRegister loc); [| destruct (IsFpuRegister loc)].
  - bind_inv H. bind_inv H. injection H as <-. reflexivity.
  - bind_inv H. bind_inv H. injection H as <-. reflexivity.
  - injection H as <-. reflexivity.
Qed.
End UntaggedFacts.

Section UntaggedProperties.
Context {target : Target}.
Import Location.

(** X14.  A register marked as holding an untagged value stays marked:
    once [IsTagged] is false of a register, it is false after every [Add],
    [Remove] and [MarkUntagged] that returns, also after the register
    itself is removed or added again as tagged. *)
Theorem X14_untagged_marks_are_kept s loc rep r s1 :
  RegisterSet.IsTagged s r = Ok false ->
  RegisterSet.Add s loc rep = Ok s1 \/ RegisterSet.Remove s loc = Ok s1
  \/ RegisterSet.MarkUntagged s loc = Ok s1 ->
  RegisterSet.IsTagged s1 r = Ok false.
Proof.
  intros T H. apply IsTagged_false_inv in T as (m & TM & N).
  apply (IsTagged_false s1 r m TM).
  destruct H as [H | [H | H]].
  - apply Add_untagged in H as [-> | [m' ->]];
      auto using land_lor_nonzero.
  - apply Remove_untagged in H as ->. exact N.
  - apply MarkUntagged_inv in H as (_ & m' & _ & ->). simpl.
    apply land_lor_nonzero, N.
Qed.

(** X15.  [MarkUntagged] fails its check on a location that is not a
    register location.  On a register location whose register, as [reg]
    returns it, is one of 0 to 31 it marks the register, so that
    [IsTagged] is false of it and the set has untagged values, and leaves
    the registers the set contains as they are: it does not add the
    register; [Add] of the location with a representation other than
    [kTagged] is [Add] with [kTagged] followed by [MarkUntagged].  For any
    other register it returns nothing: below the word size the shift of
    [ToMask] has no defined result, and from the word size on its check
    fails. *)
Theorem X15_mark_untagged s loc :
  (IsRegister loc = false ->
   RegisterSet.MarkUntagged s loc = Fatal AssertionFailed)
  /\ (forall r,
        reg loc = Ok r -> maskable r = true ->
        exists s1,
          RegisterSet.MarkUntagged s loc = Ok s1
          /\ RegisterSet.IsTagged s1 r = Ok false
          /\ RegisterSet.HasUntaggedValues s1 = true
          /\ RegisterSet.cpu_registers s1 = RegisterSet.cpu_registers s
          /\ RegisterSet.fpu_registers s1 = RegisterSet.fpu_registers s
          /\ (forall w, RegisterSet.ContainsRegister s1 w
                        = RegisterSet.ContainsRegister s w)
          /\ (forall rep, rep <> kTagged ->
                exists s2, RegisterSet.Add s loc kTagged = Ok s2
                           /\ RegisterSet.Add s loc rep
                              = RegisterSet.MarkUntagged s2 loc))
  /\ (forall r,
        reg loc = Ok r -> maskable r = false ->
        RegisterSet.MarkUntagged s loc
        = Fatal (if kBitsPerWord <=? r then AssertionFailed
                 else UndefinedBehavior)).
Proof.
  split; [| split].
  - intros R. unfold RegisterSet.MarkUntagged. rewrite R. reflexivity.
  - intros r E M. destruct (mask_facts _ M) as [N _].
    pose proof (reg_inv loc r E) as (R & _ & _).
    unfold RegisterSet.Add, RegisterSet.MarkUntagged. rewrite R, E.
    cbn [mbind Checked_bind ASSERT]. rewrite !SmallSet_Add_Ok by exact M.
    cbn [mbind Checked_bind ASSERT]. eexists. split; [reflexivity |].
    split; [| split; [| split; [| split; [| split]]]];
      try reflexivity.
    + apply (IsTagged_false _ _ _ (ToMask_Ok _ M)). simpl.
      rewrite land_lor_same. exact N.
    + unfold RegisterSet.HasUntaggedValues, SmallSet.IsEmpty. simpl.
      apply orb_true_iff. left. apply negb_true_iff, Z.eqb_neq, lor_nonzero, N.
    + intros rep Rep. cbn [Representation_eqb negb].
      eexists. split; [reflexivity |].
      destruct (Representation_eqb rep kTagged) eqn:T.
      * apply Representation_eqb_eq in T. contradiction.
      * cbn [negb cpu_registers_ untagged_cpu_registers_ fpu_registers_].
        reflexivity.
  - intros r E M. apply (register_Fatal s loc kTagged r E M).
Qed.
End UntaggedProperties.

(** ** The members that fill a register set *)

Section LoopFacts.

Lemma for_each_ext {S : Type} (l : list Z) (f g : S -> Z -> Checked S) :
  (forall s i, In i l -> f s i = g s i) ->
  forall s, for_each l f s = for_each l g s.
Proof.
  induction l as [| i l IH]; intros E s; [reflexivity |].
  cbn [for_each]. rewrite (E s i) by (left; reflexivity).
  destruct (g s i) as [s' |]; [| reflexivity].
  cbn [mbind Checked_bind]. apply IH. intros s0 j Hj. apply E. right. exact Hj.
Qed.

(** Two loops in a row, the second one under a condition. *)
Lemma fill_ext {S : Type} (l lf : list Z) (f f' g g' : S -> Z -> Checked S)
    (fpu : bool) (s : S) :
  (forall s i, In i l -> f s i = f' s i) ->
  (forall s i, In i lf -> g s i = g' s i) ->
  (s ← for_each l f s; if fpu then for_each lf g s else Ok s)
  = (s ← for_each l f' s; if fpu then for_each lf g' s else Ok s).
Proof.
  intros F G. rewrite (for_each_ext l f f' F).
  destruct (for_each l f' s) as [s1 |]; [| reflexivity].
  cbn [mbind Checked_bind]. destruct fpu; [| reflexivity].
  apply for_each_ext, G.
Qed.

Lemma In_counting_down n i : In i (counting_down n) <-> 0 <= i < n.
Proof.
  unfold counting_down.
  rewrite <- list_elem_of_In, elem_of_reverse, elem_of_seqZ.
  lia.
Qed.

Lemma In_counting_up n i : In i (counting_up n) <-> 0 <= i < n.
Proof. unfold counting_up. rewrite <- list_elem_of_In, elem_of_seqZ. lia. Qed.

Lemma counting_down_cons n :
  0 < n -> counting_down n = (n - 1) :: counting_down (n - 1).
Proof.
  intros H. unfold counting_down.
  replace n with ((n - 1) + 1) at 1 by lia.
  rewrite seqZ_app by lia. rewrite reverse_app. reflexivity.
Qed.

Lemma existsb_range (f : Z -> bool) w l n :
  (forall i, In i l <-> 0 <= i < n) -> 0 <= w ->
  existsb (fun i => f i && (w =? i)) l = (w <? n) && f w.
Proof.
  intros R Hw. apply eq_true_iff_eq. rewrite existsb_exists, andb_true_iff.
  split.
  - intros (i & Hi & E). apply andb_true_iff in E as [F E].
    apply Z.eqb_eq in E. subst i. apply R in Hi. split; [lia | exact F].
  - intros [L F]. exists w. split; [apply R; lia |].
    rewrite F, Z.eqb_refl. reflexivity.
Qed.
End LoopFacts.

Section FillFacts.
Context {target : Target} {registers : RegisterFile}.
Import Location RegisterSetFill.

Lemma maskable_payload i : maskable i = true -> 0 <= i < 2 ^ kPayloadBitsSize.
Proof.
  pose proof layout_bounds as (P & _ & _ & _ & _ & _ & W).
  assert (2 ^ 5 <= 2 ^ kPayloadBitsSize) by (apply Z.pow_le_mono_r; lia).
  unfold maskable. lia.
Qed.

Lemma add_register_Ok s i :
  maskable i = true ->
  add_register s i
  = Ok {| cpu_registers_ := Z.lor (cpu_registers_ s) (to_int (Z.shiftl 1 i));
          untagged_cpu_registers_ := untagged_cpu_registers_ s;
          fpu_registers_ := fpu_registers_ s |}.
Proof.
  intros M. pose proof (maskable_payload i M) as R.
  assert (K : 0 <= kRegister < 32) by (cbv; split; congruence).
  destruct (register_location kRegister i K R) as [Ek Ep].
  unfold add_register, RegisterLocation. rewrite of_kind_Ok by assumption.
  cbn [mbind Checked_bind]. rewrite Add_register.
  - rewrite Ep. reflexivity.
  - unfold IsRegister. rewrite Ek. reflexivity.
  - rewrite Ep. exact M.
Qed.

Lemma add_fpu_register_Ok s i :
  maskable i = true ->
  add_fpu_register s i
  = Ok {| cpu_registers_ := cpu_registers_ s;
          untagged_cpu_registers_ := untagged_cpu_registers_ s;
          fpu_registers_ := Z.lor (fpu_registers_ s) (to_int (Z.shiftl 1 i)) |}.
Proof.
  intros M. pose proof (maskable_payload i M) as R.
  assert (K : 0 <= kFpuRegister < 32) by (cbv; split; congruence).
  destruct (register_location kFpuRegister i K R) as [Ek Ep].
  unfold add_fpu_register, FpuRegisterLocation.
  rewrite of_kind_Ok by assumption.
  cbn [mbind Checked_bind]. rewrite Add_fpu_register.
  - rewrite Ep. reflexivity.
  - unfold IsRegister. rewrite Ek. reflexivity.
  - unfold IsFpuRegister. rewrite Ek. reflexivity.
  - rewrite Ep. exact M.
Qed.

(** A loop that adds the registers of its indices that [skip] leaves. *)
Lemma for_each_add_register (skip : Z -> bool) l :
  (forall i, In i l -> maskable i = true) ->
  forall s, int_set s = true ->
  exists s',
    for_each l (fun s i => if skip i then Ok s else add_register s i) s = Ok s'
    /\ int_set s' = true
    /\ untagged_cpu_registers_ s' = untagged_cpu_registers_ s
    /\ fpu_registers_ s' = fpu_registers_ s
    /\ forall w, maskable w = true ->
         Z.testbit (cpu_registers_ s') w
         = existsb (fun i => negb (skip i) && (w =? i)) l
           || Z.testbit (cpu_registers_ s) w.
Proof.
  induction l as [| i l IH]; intros M s I.
  - exists s. simpl. auto.
  - assert (Mi : maskable i = true) by (apply M; left; reflexivity).
    assert (Ml : forall j, In j l -> maskable j = true)
      by (intros j Hj; apply M; right; exact Hj).
    cbn [for_each existsb].
    destruct (skip i); cbn [mbind Checked_bind negb andb].
    + apply (IH Ml s I).
    + rewrite add_register_Ok by exact Mi. cbn [mbind Checked_bind].
      apply int_set_iff in I as (Ic & Iu & If).
      destruct (mask_facts i Mi) as [_ Im].
      match goal with
      | |- context [for_each l _ ?s1] =>
          destruct (IH Ml s1) as (s' & E & I' & U & F & T)
      end.
      { apply int_set_iff. simpl. auto using is_int_lor. }
      exists s'. split; [exact E |]. split; [exact I' |].
      split; [exact U |]. split; [exact F |].
      intros w W. rewrite (T w W). cbn [cpu_registers_].
      rewrite Z.lor_spec, testbit_mask_maskable by assumption.
      destruct (existsb _ l), (w =? i), (Z.testbit (cpu_registers_ s) w);
        reflexivity.
Qed.

Lemma for_each_add_fpu_register (skip : Z -> bool) l :
  (forall i, In i l -> maskable i = true) ->
  forall s, int_set s = true ->
  exists s',
    for_each l (fun s i => if skip i then Ok s else add_fpu_register s i) s
    = Ok s'
    /\ int_set s' = true
    /\ untagged_cpu_registers_ s' = untagged_cpu_registers_ s
    /\ cpu_registers_ s' = cpu_registers_ s
    /\ forall w, maskable w = true ->
         Z.testbit (fpu_registers_ s') w
         = existsb (fun i => negb (skip i) && (w =? i)) l
           || Z.testbit (fpu_registers_ s) w.
Proof.
  induction l as [| i l IH]; intros M s I.
  - exists s. simpl. auto.
  - assert (Mi : maskable i = true) by (apply M; left; reflexivity).
    assert (Ml : forall j, In j l -> maskable j = true)
      by (intros j Hj; apply M; right; exact Hj).
    cbn [for_each existsb].
    destruct (skip i); cbn [mbind Checked_bind negb andb].
    + apply (IH Ml s I).
    + rewrite add_fpu_register_Ok by exact Mi. cbn [mbind Checked_bind].
      apply int_set_iff in I as (Ic & Iu & If).
      destruct (mask_facts i Mi) as [_ Im].
      match goal with
      | |- context [for_each l _ ?s1] =>
          destruct (IH Ml s1) as (s' & E & I' & U & F & T)
      end.
      { apply int_set_iff. simpl. auto using is_int_lor. }
      exists s'. split; [exact E |]. split; [exact I' |].
      split; [exact U |]. split; [exact F |].
      intros w W. rewrite (T w W). cbn [fpu_registers_].
      rewrite Z.lor_spec, testbit_mask_maskable by assumption.
      destruct (existsb _ l), (w =? i), (Z.testbit (fpu_registers_ s) w);
        reflexivity.
Qed.

Lemma maskable_range l n :
  n <= 32 -> (forall i, In i l <-> 0 <= i < n) ->
  forall i, In i l -> maskable i = true.
Proof. intros N R i Hi. apply R in Hi. unfold maskable. lia. Qed.

(** The two loops of the members that fill the set, over the registers
    below [n] and the fpu registers below [nf]; [fpu] is false when the
    second loop is left out. *)
Lemma fill_spec (skip skipf : Z -> bool) l lf n nf (fpu : bool) s :
  n <= 32 -> nf <= 32 ->
  (forall i, In i l <-> 0 <= i < n) -> (forall i, In i lf <-> 0 <= i < nf) ->
  int_set s = true ->
  exists s',
    (s ← for_each l (fun s i => if skip i then Ok s else add_register s i) s;
     if fpu
     then for_each lf
            (fun s i => if skipf i then Ok s else add_fpu_register s i) s
     else Ok s) = Ok s'
    /\ int_set s' = true
    /\ untagged_cpu_registers_ s' = untagged_cpu_registers_ s
    /\ forall w, maskable w = true ->
         exists b bf,
           RegisterSet.ContainsRegister s w = Ok b
           /\ RegisterSet.ContainsFpuRegister s w = Ok bf
           /\ RegisterSet.ContainsRegister s' w
              = Ok ((w <? n) && negb (skip w) || b)
           /\ RegisterSet.ContainsFpuRegister s' w
              = Ok (fpu && ((w <? nf) && negb (skipf w)) || bf).
Proof.
  intros N NF R RF I.
  destruct (for_each_add_register skip l (maskable_range l n N R) s I)
    as (s1 & E1 & I1 & U1 & F1 & T1).
  rewrite E1. cbn [mbind Checked_bind].
  assert (C : forall s0 w, int_set s0 = true -> maskable w = true ->
                RegisterSet.ContainsRegister s0 w
                = Ok (Z.testbit (cpu_registers_ s0) w)
                /\ RegisterSet.ContainsFpuRegister s0 w
                   = Ok (Z.testbit (fpu_registers_ s0) w)).
  { intros s0 w I0 W. apply int_set_iff in I0 as (Ic & _ & If).
    unfold RegisterSet.ContainsRegister, RegisterSet.ContainsFpuRegister.
    rewrite !SmallSet_Contains_testbit by auto. auto. }
  destruct fpu.
  - destruct (for_each_add_fpu_register skipf lf
                (maskable_range lf nf NF RF) s1 I1)
      as (s2 & E2 & I2 & U2 & C2 & T2).
    exists s2. split; [exact E2 |]. split; [exact I2 |].
    split; [congruence |]. intros w W.
    assert (Hw : 0 <= w) by (unfold maskable in W; lia).
    destruct (C s w I W) as [-> ->]. destruct (C s2 w I2 W) as [-> ->].
    do 2 eexists. split; [reflexivity |]. split; [reflexivity |].
    rewrite C2, (T1 w W), (T2 w W), F1.
    rewrite (existsb_range (fun i => negb (skip i)) w l n R Hw).
    rewrite (existsb_range (fun i => negb (skipf i)) w lf nf RF Hw).
    auto.
  - exists s1. split; [reflexivity |]. split; [exact I1 |].
    split; [exact U1 |]. intros w W.
    assert (Hw : 0 <= w) by (unfold maskable in W; lia).
    destruct (C s w I W) as [-> ->]. destruct (C s1 w I1 W) as [-> ->].
    do 2 eexists. split; [reflexivity |]. split; [reflexivity |].
    rewrite (T1 w W), F1.
    rewrite (existsb_range (fun i => negb (skip i)) w l n R Hw).
    auto.
Qed.

Lemma to_unsigned_mask i :
  maskable i = true -> to_unsigned (to_int (Z.shiftl 1 i)) = 2 ^ i.
Proof.
  unfold maskable, to_unsigned. intros M.
  destruct (Z.eq_dec i 31) as [-> | N]; [reflexivity |].
  rewrite one_shl_low by lia.
  assert (0 < 2 ^ i <= 2 ^ 30)
    by (split; [apply Z.pow_pos_nonneg | apply Z.pow_le_mono_r]; lia).
  apply Z.mod_small. lia.
Qed.
End FillFacts.

Section FillProperties.
Context {target : Target} {registers : RegisterFile}.
Import Location RegisterSetFill.

(** X16.  With at most 32 registers of each class,
    [AddAllNonReservedRegisters] adds to the set every cpu register whose
    bit in [kReservedCpuRegisters] is clear and, when asked to, every fpu
    register; what the set contained stays in it, and no register is marked
    untagged.  With more than 32 cpu registers the shift of the first
    iteration has no defined result. *)
Theorem X16_add_all_non_reserved_registers s include_fpu_registers :
  (kNumberOfCpuRegisters <= 32 -> kNumberOfFpuRegisters <= 32 ->
   int_set s = true ->
   exists s',
     AddAllNonReservedRegisters s include_fpu_registers = Ok s'
     /\ int_set s' = true
     /\ untagged_cpu_registers_ s' = untagged_cpu_registers_ s
     /\ forall w, maskable w = true ->
          exists b bf,
            RegisterSet.ContainsRegister s w = Ok b
            /\ RegisterSet.ContainsFpuRegister s w = Ok bf
            /\ RegisterSet.ContainsRegister s' w
               = Ok ((w <? kNumberOfCpuRegisters)
                     && negb (Z.testbit kReservedCpuRegisters w) || b)
            /\ RegisterSet.ContainsFpuRegister s' w
               = Ok (include_fpu_registers && (w <? kNumberOfFpuRegisters)
                     || bf))
  /\ (32 < kNumberOfCpuRegisters ->
      AddAllNonReservedRegisters s include_fpu_registers
      = Fatal UndefinedBehavior).
Proof.
  split.
  - intros N NF I.
    destruct (fill_spec (Z.testbit kReservedCpuRegisters) (fun _ => false)
                (counting_down kNumberOfCpuRegisters)
                (counting_down kNumberOfFpuRegisters)
                kNumberOfCpuRegisters kNumberOfFpuRegisters
                include_fpu_registers s N NF)
      as (s' & E & I' & U & T); auto using In_counting_down.
    exists s'. split; [| split; [exact I' | split; [exact U |]]].
    + rewrite <- E. unfold AddAllNonReservedRegisters. apply fill_ext.
      * intros s0 i Hi. apply In_counting_down in Hi.
        assert (M : maskable i = true) by (unfold maskable; lia).
        rewrite (to_int_maskable i M).
        unfold int_one_shl. unfold maskable in M. rewrite M.
        cbn [mbind Checked_bind]. rewrite to_unsigned_mask by exact M.
        rewrite land_pow2 by lia. rewrite negb_involutive. reflexivity.
      * intros s0 i Hi. apply In_counting_down in Hi.
        rewrite to_int_maskable by (unfold maskable; lia). reflexivity.
    + intros w W. destruct (T w W) as (b & bf & Cb & Cf & C1 & C2).
      exists b, bf. rewrite C1, C2. cbn [negb]. rewrite andb_true_r. auto.
  - intros N. unfold AddAllNonReservedRegisters.
    rewrite (counting_down_cons kNumberOfCpuRegisters) by lia.
    cbn [for_each]. unfold int_one_shl.
    replace ((0 <=? kNumberOfCpuRegisters - 1)
             && (kNumberOfCpuRegisters - 1 <? 32)) with false by lia.
    reflexivity.
Qed.

(** X17.  With at most 32 registers of each class,
    [AddAllGeneralRegisters] adds to the set every cpu register but
    [FPREG], [SPREG] and, on ARM, [PC] or, on ARM64, [R31], and every fpu
    register unless the target is ARM without vfp; what the set contained
    stays in it, and no register is marked untagged. *)
Theorem X17_add_all_general_registers s :
  kNumberOfCpuRegisters <= 32 -> kNumberOfFpuRegisters <= 32 ->
  int_set s = true ->
  exists s',
    AddAllGeneralRegisters s = Ok s'
    /\ int_set s' = true
    /\ untagged_cpu_registers_ s' = untagged_cpu_registers_ s
    /\ forall w, maskable w = true ->
         exists b bf,
           RegisterSet.ContainsRegister s w = Ok b
           /\ RegisterSet.ContainsFpuRegister s w = Ok bf
           /\ RegisterSet.ContainsRegister s' w
              = Ok ((w <? kNumberOfCpuRegisters)
                    && negb ((w =? FPREG) || (w =? SPREG)
                             || match TARGET_ARCH with
                                | TARGET_ARCH_ARM => w =? PC
                                | TARGET_ARCH_ARM64 => w =? R31
                                | _ => false
                                end) || b)
           /\ RegisterSet.ContainsFpuRegister s' w
              = Ok (match TARGET_ARCH with
                    | TARGET_ARCH_ARM => vfp_supported
                    | _ => true
                    end && (w <? kNumberOfFpuRegisters) || bf).
Proof.
  intros N NF I.
  destruct (fill_spec
              (fun i => (i =? FPREG) || (i =? SPREG)
                        || match TARGET_ARCH with
                           | TARGET_ARCH_ARM => i =? PC
                           | TARGET_ARCH_ARM64 => i =? R31
                           | _ => false
                           end) (fun _ => false)
              (counting_down kNumberOfCpuRegisters)
              (counting_down kNumberOfFpuRegisters)
              kNumberOfCpuRegisters kNumberOfFpuRegisters
              match TARGET_ARCH with
              | TARGET_ARCH_ARM => vfp_supported
              | _ => true
              end s N NF)
    as (s' & E & I' & U & T); auto using In_counting_down.
  exists s'. split; [| split; [exact I' | split; [exact U |]]].
  - rewrite <- E. unfold AddAllGeneralRegisters. apply fill_ext.
    + intros s0 i Hi. apply In_counting_down in Hi. cbv zeta.
      rewrite to_int_maskable by (unfold maskable; lia).
      destruct ((i =? FPREG) || (i =? SPREG)); reflexivity.
    + intros s0 i Hi. apply In_counting_down in Hi.
      rewrite to_int_maskable by (unfold maskable; lia). reflexivity.
  - intros w W. destruct (T w W) as (b & bf & Cb & Cf & C1 & C2).
    exists b, bf. rewrite C1, C2. cbn [negb]. rewrite andb_true_r. auto.
Qed.

(** X18.  On IA32 [AddAllArgumentRegisters] leaves the set as it is.  On
    any other target with at most 32 registers of each class it adds the
    cpu registers of which [IsArgumentRegister] holds and the fpu registers
    of which [IsFpuArgumentRegister] holds; what the set contained stays in
    it, and no register is marked untagged. *)
Theorem X18_add_all_argument_registers s :
  (TARGET_ARCH = TARGET_ARCH_IA32 -> AddAllArgumentRegisters s = Ok s)
  /\ (TARGET_ARCH <> TARGET_ARCH_IA32 ->
      kNumberOfCpuRegisters <= 32 -> kNumberOfFpuRegisters <= 32 ->
      int_set s = true ->
      exists s',
        AddAllArgumentRegisters s = Ok s'
        /\ int_set s' = true
        /\ untagged_cpu_registers_ s' = untagged_cpu_registers_ s
        /\ forall w, maskable w = true ->
             exists b bf,
               RegisterSet.ContainsRegister s w = Ok b
               /\ RegisterSet.ContainsFpuRegister s w = Ok bf
               /\ RegisterSet.ContainsRegister s' w
                  = Ok ((w <? kNumberOfCpuRegisters) && IsArgumentRegister w
                        || b)
               /\ RegisterSet.ContainsFpuRegister s' w
                  = Ok ((w <? kNumberOfFpuRegisters)
                        && IsFpuArgumentRegister w || bf)).
Proof.
  split.
  - intros E. unfold AddAllArgumentRegisters. rewrite E. reflexivity.
  - intros A N NF I.
    destruct (fill_spec (fun i => negb (IsArgumentRegister i))
                (fun i => negb (IsFpuArgumentRegister i))
                (counting_up kNumberOfCpuRegisters)
                (counting_up kNumberOfFpuRegisters)
                kNumberOfCpuRegisters kNumberOfFpuRegisters true s N NF)
      as (s' & E & I' & U & T); auto using In_counting_up.
    exists s'. split; [| split; [exact I' | split; [exact U |]]].
    + rewrite <- E. unfold AddAllArgumentRegisters.
      assert (F : forall (s0 : RegisterSet) i,
                 In i (counting_up kNumberOfCpuRegisters) ->
                 (let reg := to_int i in
                  if IsArgumentRegister reg then add_register s0 reg
                  else Ok s0)
                 = (if negb (IsArgumentRegister i) then Ok s0
                    else add_register s0 i)).
      { intros s0 i Hi. apply In_counting_up in Hi. cbv zeta.
        rewrite to_int_maskable by (unfold maskable; lia).
        destruct (IsArgumentRegister i); reflexivity. }
      assert (G : forall (s0 : RegisterSet) i,
                 In i (counting_up kNumberOfFpuRegisters) ->
                 (let reg := to_int i in
                  if IsFpuArgumentRegister reg then add_fpu_register s0 reg
                  else Ok s0)
                 = (if negb (IsFpuArgumentRegister i) then Ok s0
                    else add_fpu_register s0 i)).
      { intros s0 i Hi. apply In_counting_up in Hi. cbv zeta.
        rewrite to_int_maskable by (unfold maskable; lia).
        destruct (IsFpuArgumentRegister i); reflexivity. }
      destruct TARGET_ARCH; try contradiction;
        exact (fill_ext _ _ _ _ _ _ true s F G).
    + intros w W. destruct (T w W) as (b & bf & Cb & Cf & C1 & C2).
      exists b, bf. rewrite C1, C2. rewrite !negb_involutive. auto.
Qed.
End FillProperties.

Section StaticContains.
Context {target : Target}.
Import Location.

(** X19.  The static [Contains] applied to the mask of a set agrees with
    [ContainsRegister] and [ContainsFpuRegister] of the set for every
    register below the word size, and returns the bit of the register for
    a register below 32.  For a register of the word size or more the
    members fail their check, while the static function has no defined
    result. *)
Theorem X19_static_contains s reg :
  (reg < kBitsPerWord ->
   RegisterSetStatic.Contains (RegisterSet.cpu_registers s) reg
   = RegisterSet.ContainsRegister s reg
   /\ RegisterSetStatic.Contains (RegisterSet.fpu_registers s) reg
      = RegisterSet.ContainsFpuRegister s reg)
  /\ (kBitsPerWord <= reg ->
      RegisterSetStatic.Contains (RegisterSet.cpu_registers s) reg
      = Fatal UndefinedBehavior
      /\ RegisterSet.ContainsRegister s reg = Fatal AssertionFailed)
  /\ (maskable reg = true -> int_set s = true ->
      RegisterSetStatic.Contains (RegisterSet.cpu_registers s) reg
      = Ok (Z.testbit (RegisterSet.cpu_registers s) reg)).
Proof.
  unfold RegisterSetStatic.Contains, RegisterSet.ContainsRegister,
    RegisterSet.ContainsFpuRegister, RegisterSet.cpu_registers,
    RegisterSet.fpu_registers, SmallSet.data, SmallSet.Contains,
    SmallSet.ToMask.
  change (kWordSize * kBitsPerByte) with kBitsPerWord.
  pose proof kBitsPerWord_pos.
  split; [| split].
  - intros R. replace (reg <? kBitsPerWord) with true by lia. auto.
  - intros R. replace (reg <? kBitsPerWord) with false by lia.
    unfold int_one_shl.
    replace ((0 <=? reg) && (reg <? 32)) with false by lia. auto.
  - intros M I. apply int_set_iff in I as (Ic & _ & _).
    rewrite <- (SmallSet_Contains_testbit _ _ M (or_intror Ic)).
    unfold SmallSet.Contains, SmallSet.ToMask.
    change (kWordSize * kBitsPerByte) with kBitsPerWord.
    unfold maskable in M. replace (reg <? kBitsPerWord) with true by lia.
    reflexivity.
Qed.
End StaticContains.

(** ** Further properties of location summaries and pairs *)

Section SummaryFacts.
Context {target : Target}.
Import Location.

Lemma array_get_insert_ne (array : list TemplateLocation) index j loc :
  0 <= index -> 0 <= j -> j <> index ->
  LocationSummary.array_get (<[Z.to_nat index := loc]> array) j
  = LocationSummary.array_get array j.
Proof.
  intros Hi Hj N. unfold LocationSummary.array_get.
  rewrite list_lookup_insert_ne by lia. reflexivity.
Qed.

Lemma array_set_inv (array array' : list TemplateLocation) index loc :
  LocationSummary.array_set array index loc = Ok array' ->
  array' = <[Z.to_nat index := loc]> array
  /\ List.length array' = List.length array.
Proof.
  unfold LocationSummary.array_set.
  destruct (Z.to_nat index <? List.length array)%nat; [| discriminate].
  intros [= <-]. split; [reflexivity |]. apply length_insert.
Qed.

Lemma ASSERT_inv (b : bool) {A} (k : Checked A) x :
  (ASSERT b;; k) = Ok x -> b = true /\ k = Ok x.
Proof. destruct b; cbn [mbind Checked_bind ASSERT]; [auto | discriminate]. Qed.

Lemma set_in_inv s index loc (zone : Zone) s' :
  LocationSummary.set_in s index loc zone = Ok s' ->
  0 <= index
  /\ s' = {| num_inputs_ := num_inputs_ s;
             input_locations_ := <[Z.to_nat index := loc]> (input_locations_ s);
             num_temps_ := num_temps_ s;
             temp_locations_ := temp_locations_ s;
             output_location_ := output_location_ s;
             contains_call_ := contains_call_ s;
             live_registers_ := live_registers_ s |}.
Proof.
  unfold LocationSummary.set_in. intros H.
  apply ASSERT_inv in H as [B1 H]. apply ASSERT_inv in H as [B2 H].
  bind_inv H. bind_inv H. apply array_set_inv in E0 as [-> _].
  injection H as <-. split; [lia | reflexivity].
Qed.

Lemma set_temp_inv s index loc s' :
  LocationSummary.set_temp s index loc = Ok s' ->
  0 <= index
  /\ s' = {| num_inputs_ := num_inputs_ s;
             input_locations_ := input_locations_ s;
             num_temps_ := num_temps_ s;
             temp_locations_ := <[Z.to_nat index := loc]> (temp_locations_ s);
             output_location_ := output_location_ s;
             contains_call_ := contains_call_ s;
             live_registers_ := live_registers_ s |}.
Proof.
  unfold LocationSummary.set_temp. intros H.
  apply ASSERT_inv in H as [B1 H]. apply ASSERT_inv in H as [B2 H].
  apply ASSERT_inv in H as [B3 H].
  bind_inv H. apply array_set_inv in E as [-> _].
  injection H as <-. split; [lia | reflexivity].
Qed.

Lemma set_out_inv s index loc s' :
  LocationSummary.set_out s index loc = Ok s' ->
  s' = {| num_inputs_ := num_inputs_ s;
          input_locations_ := input_locations_ s;
          num_temps_ := num_temps_ s;
          temp_locations_ := temp_locations_ s;
          output_location_ := loc;
          contains_call_ := contains_call_ s;
          live_registers_ := live_registers_ s |}.
Proof.
  unfold LocationSummary.set_out. intros H.
  apply ASSERT_inv in H as [B1 H]. apply ASSERT_inv in H as [B2 H].
  injection H as <-. reflexivity.
Qed.

Lemma in_insert_ne s index j loc :
  0 <= index -> j <> index ->
  (ASSERT (0 <=? j);; ASSERT (j <? num_inputs_ s);;
   LocationSummary.array_get (<[Z.to_nat index := loc]> (input_locations_ s)) j)
  = LocationSummary.in_ s j.
Proof.
  intros Hi N. unfold LocationSummary.in_.
  destruct (Z.leb_spec 0 j); cbn [mbind Checked_bind ASSERT]; [| reflexivity].
  rewrite array_get_insert_ne by assumption. reflexivity.
Qed.

Lemma temp_insert_ne s index j loc :
  0 <= index -> j <> index ->
  (ASSERT (0 <=? j);; ASSERT (j <? num_temps_ s);;
   LocationSummary.array_get (<[Z.to_nat index := loc]> (temp_locations_ s)) j)
  = LocationSummary.temp s j.
Proof.
  intros Hi N. unfold LocationSummary.temp.
  destruct (Z.leb_spec 0 j); cbn [mbind Checked_bind ASSERT]; [| reflexivity].
  rewrite array_get_insert_ne by assumption. reflexivity.
Qed.
End SummaryFacts.

Section SummaryProperties.
Context {target : Target}.
Import Location.

(** X20.  The five values of [ContainsCall] fall into three classes that
    exclude each other: a summary cannot call, always calls or has a call
    on a slow path.  A callee-safe call is one that always calls, and a
    call on the shared slow path is a call on a slow path. *)
Theorem X20_call_classes s :
  (LocationSummary.can_call s = false <-> contains_call_ s = kNoCall)
  /\ (LocationSummary.HasCallOnSlowPath s = true
      <-> contains_call_ s = kCallOnSlowPath
          \/ contains_call_ s = kCallOnSharedSlowPath)
  /\ (LocationSummary.callee_safe_call s = true ->
      LocationSummary.always_calls s = true)
  /\ (LocationSummary.call_on_shared_slow_path s = true ->
      LocationSummary.HasCallOnSlowPath s = true)
  /\ (LocationSummary.always_calls s = true ->
      LocationSummary.can_call s = true
      /\ LocationSummary.HasCallOnSlowPath s = false)
  /\ (LocationSummary.can_call s = true ->
      LocationSummary.always_calls s
      = negb (LocationSummary.HasCallOnSlowPath s)).
Proof.
  unfold LocationSummary.HasCallOnSlowPath, LocationSummary.can_call,
    LocationSummary.always_calls, LocationSummary.callee_safe_call,
    LocationSummary.call_on_shared_slow_path.
  destruct (contains_call_ s); simpl; repeat split;
    try discriminate; try reflexivity; intros H;
    try discriminate H; auto; destruct H as [H | H]; discriminate H.
Qed.

(** X21.  [set_in] of a location that is not a pair reference stores the
    location, which [in] then returns, when the index is one of an input
    and, in a summary that always calls, the location is not unallocated or
    has the policy [kAny]; it fails a check for any other index, and in a
    summary that always calls for an unallocated location of any other
    policy, whatever the zone holds. *)
Theorem X21_set_in_legality s index loc (zone : Zone) :
  well_formed s -> IsPairLocation loc = false ->
  (0 <= index < num_inputs_ s ->
   LocationSummary.always_calls s = false \/ IsUnallocated loc = false
   \/ policy loc = Ok (Policy_code kAny) ->
   exists s', LocationSummary.set_in s index loc zone = Ok s'
              /\ LocationSummary.in_ s' index = Ok loc)
  /\ (~ 0 <= index < num_inputs_ s ->
      LocationSummary.set_in s index loc zone = Fatal AssertionFailed)
  /\ (LocationSummary.always_calls s = true -> IsUnallocated loc = true ->
      policy loc <> Ok (Policy_code kAny) ->
      LocationSummary.set_in s index loc zone = Fatal AssertionFailed).
Proof.
  intros [WI _] P. unfold LocationSummary.set_in. rewrite P.
  split; [| split].
  - intros B H. destruct (bounds_true _ _ B) as [B1 B2]. rewrite B1, B2.
    cbn [mbind Checked_bind ASSERT].
    destruct (array_set_Ok (input_locations_ s) index loc ltac:(lia))
      as [A G].
    assert (C : (if LocationSummary.always_calls s
                 then if IsUnallocated loc
                      then p ← policy loc;
                           ASSERT (p =? Policy_code kAny)
                      else Ok tt
                 else Ok tt) = Ok tt).
    { destruct (LocationSummary.always_calls s); [| reflexivity].
      destruct (IsUnallocated loc); [| reflexivity].
      destruct H as [H | [H | H]]; try discriminate H.
      rewrite H. reflexivity. }
    rewrite C. cbn [mbind Checked_bind]. rewrite A. cbn [mbind Checked_bind].
    eexists. split; [reflexivity |].
    unfold LocationSummary.in_. cbn [num_inputs_ input_locations_].
    rewrite B1, B2. exact G.
  - intros B. destruct (Z.leb_spec 0 index); [| reflexivity].
    replace (index <? num_inputs_ s) with false by lia. reflexivity.
  - intros AC U N.
    destruct (0 <=? index); [| reflexivity].
    destruct (index <? num_inputs_ s); [| reflexivity].
    rewrite AC, U. unfold policy in *. rewrite U in *.
    cbn [mbind Checked_bind ASSERT] in *.
    destruct (Z.eqb_spec (BitField.decode PolicyField (payload loc))
                (Policy_code kAny)) as [E | E]; [| reflexivity].
    exfalso. apply N. congruence.
Qed.

(** X22.  A setter changes the one slot it sets.  After [set_in] the other
    inputs, the temps and the output read as before; after [set_temp] the
    inputs, the other temps and the output; after [set_out] the inputs and
    the temps.  The counts, the call class and the live registers stay,
    and the arrays keep their lengths. *)
Theorem X22_setters_change_one_slot s index loc (zone : Zone) s' :
  LocationSummary.set_in s index loc zone = Ok s'
  \/ LocationSummary.set_temp s index loc = Ok s'
  \/ LocationSummary.set_out s index loc = Ok s' ->
  (well_formed s -> well_formed s')
  /\ LocationSummary.input_count s' = LocationSummary.input_count s
  /\ LocationSummary.temp_count s' = LocationSummary.temp_count s
  /\ contains_call_ s' = contains_call_ s
  /\ live_registers_ s' = live_registers_ s
  /\ (forall j,
        LocationSummary.set_in s index loc zone = Ok s' -> j <> index ->
        LocationSummary.in_ s' j = LocationSummary.in_ s j)
  /\ (forall j,
        LocationSummary.set_temp s index loc = Ok s' -> j <> index ->
        LocationSummary.temp s' j = LocationSummary.temp s j)
  /\ (forall j,
        LocationSummary.set_in s index loc zone = Ok s' ->
        LocationSummary.temp s' j = LocationSummary.temp s j
        /\ LocationSummary.out s' j = LocationSummary.out s j)
  /\ (forall j,
        LocationSummary.set_temp s index loc = Ok s' ->
        LocationSummary.in_ s' j = LocationSummary.in_ s j
        /\ LocationSummary.out s' j = LocationSummary.out s j)
  /\ (forall j,
        LocationSummary.set_out s index loc = Ok s' ->
        LocationSummary.in_ s' j = LocationSummary.in_ s j
        /\ LocationSummary.temp s' j = LocationSummary.temp s j).
Proof.
  intros H.
  split; [| split; [| split; [| split; [| split; [| split; [| split;
    [| split; [| split]]]]]]]].
  - unfold well_formed.
    destruct H as [H | [H | H]];
      [apply set_in_inv in H as [_ ->] | apply set_temp_inv in H as [_ ->]
      | apply set_out_inv in H as ->]; simpl; rewrite ?length_insert; auto.
  - destruct H as [H | [H | H]];
      [apply set_in_inv in H as [_ ->] | apply set_temp_inv in H as [_ ->]
      | apply set_out_inv in H as ->]; reflexivity.
  - destruct H as [H | [H | H]];
      [apply set_in_inv in H as [_ ->] | apply set_temp_inv in H as [_ ->]
      | apply set_out_inv in H as ->]; reflexivity.
  - destruct H as [H | [H | H]];
      [apply set_in_inv in H as [_ ->] | apply set_temp_inv in H as [_ ->]
      | apply set_out_inv in H as ->]; reflexivity.
  - destruct H as [H | [H | H]];
      [apply set_in_inv in H as [_ ->] | apply set_temp_inv in H as [_ ->]
      | apply set_out_inv in H as ->]; reflexivity.
  - intros j S N. apply set_in_inv in S as [Hi ->].
    exact (in_insert_ne s index j loc Hi N).
  - intros j S N. apply set_temp_inv in S as [Hi ->].
    exact (temp_insert_ne s index j loc Hi N).
  - intros j S. apply set_in_inv in S as [_ ->]. split; reflexivity.
  - intros j S. apply set_temp_inv in S as [_ ->]. split; reflexivity.
  - intros j S. apply set_out_inv in S as ->. split; reflexivity.
Qed.

(** X23.  [SetAt] on a pair stores the location in its slot, from which
    [At] reads it back, and leaves the other slot and the length as they
    are. *)
Theorem X23_pair_location_set_at (p : PairLocation) i loc :
  List.length p = 2%nat -> 0 <= i < 2 ->
  exists p' : PairLocation,
    TemplatePairLocation.SetAt p i loc = Ok p'
    /\ List.length p' = 2%nat
    /\ TemplatePairLocation.At p' i = Ok loc
    /\ (forall j, j <> i ->
          TemplatePairLocation.At p' j = TemplatePairLocation.At p j).
Proof.
  intros L B. exists (<[Z.to_nat i := loc]> p).
  unfold TemplatePairLocation.SetAt, TemplatePairLocation.At,
    TemplatePairLocation.kPairLength.
  destruct (bounds_true _ _ B) as [-> ->]. cbn [mbind Checked_bind ASSERT].
  replace (Z.to_nat i <? List.length p)%nat with true
    by (symmetry; apply Nat.ltb_lt; lia).
  split; [reflexivity |]. split; [rewrite length_insert; exact L |].
  split.
  - rewrite list_lookup_insert_eq by lia. reflexivity.
  - intros j N. destruct (Z.leb_spec 0 j); [| reflexivity].
    cbn [mbind Checked_bind ASSERT].
    rewrite list_lookup_insert_ne by lia. reflexivity.
Qed.
End SummaryProperties.

(** ** The properties on concrete inputs

    The inputs are run on the 64-bit sample target, and on the 32-bit one
    where it is named. *)

#[local] Existing Instance target64.

(** C1 on the 64-bit target: a register and an fpu register of the same
    code, a pair reference and a register, and two pairs allocated one after
    the other. *)
Lemma C1_witness :
  (exists a b,
      construct (RegisterLocationCall 3) = Ok a
      /\ construct (FpuRegisterLocationCall 3) = Ok b
      /\ write a <> write b /\ Location.Equals a b = false)
  /\ (write first_pair <> write register_3
      /\ Location.Equals first_pair register_3 = false)
  /\ (write first_pair <> write second_pair
      /\ Location.Equals first_pair second_pair = false).
Proof.
  pose proof (C1_equals_is_raw_equality_and_encodings_are_disjoint
                (target := target64)) as (_ & D & P).
  specialize (P register_3 (read 0) [] first_pair [[register_3; read 0]]
                eq_refl) as [P1 P2].
  split; [| split].
  - apply D; [reflexivity | reflexivity | discriminate].
  - apply (P1 (RegisterLocationCall 3)). reflexivity.
  - apply (P2 (read 0) register_3 [[register_3; read 0]] second_pair
              [[register_3; read 0]; [read 0; register_3]]).
    + simpl. lia.
    + reflexivity.
Defined.

(** C2: index -3 on base register 5 and the first index beyond the bias on
    the 64-bit target, the least index on base register 7 on the 32-bit
    one. *)
Lemma C2_witness :
  (exists loc,
      Location.StackSlot (-3) 5 = Ok loc
      /\ Location.stack_index loc = Ok (-3) /\ Location.base_reg loc = Ok 5)
  /\ Location.QuadStackSlot (2 ^ 52) 5 = Fatal AssertionFailed
  /\ (exists loc,
        Location.DoubleStackSlot (target := target32) (- 2 ^ 21) 7 = Ok loc
        /\ Location.stack_index (target := target32) loc = Ok (- 2 ^ 21)
        /\ Location.base_reg (target := target32) loc = Ok 7).
Proof.
  split; [| split].
  - apply (C2_stack_slot_round_trip (target := target64)
             Location.StackSlot (-3) 5);
      [reflexivity | simpl; lia | simpl; auto
      | vm_compute; split; [discriminate | reflexivity]].
  - apply (C2_stack_slot_round_trip (target := target64)
             Location.QuadStackSlot (2 ^ 52) 5);
      [reflexivity | simpl; lia | simpl; auto
      | vm_compute; intros [_ H]; discriminate H].
  - apply (C2_stack_slot_round_trip (target := target32)
             Location.DoubleStackSlot (- 2 ^ 21) 7);
      [reflexivity | simpl; lia | simpl; auto
      | vm_compute; split; [discriminate | reflexivity]].
Defined.

(** C3 on the 64-bit target: register 3. *)
Lemma C3_witness :
  Z.land (write register_3) Location.kLocationTagMask <> Location.kConstantTag
  /\ Z.land (write register_3) Location.kLocationTagMask
     <> Location.kPairLocationTag
  /\ Location.IsConstant register_3 = false
  /\ Location.IsPairLocation register_3 = false.
Proof.
  apply (proj2 (proj2 (C3_tag_non_collision (target := target64)))
           (RegisterLocationCall 3) register_3);
    reflexivity.
Defined.

(** C4: the property as the specification states it fails on the greatest
    stack index, which a positive delta moves beyond the bias: [Rebase]
    fails the check of [EncodeStackIndex] and returns no location. *)
Lemma C4_counterexample :
  Location.StackSlot (2 ^ 52 - 1) 5 = Ok last_slot
  /\ Location.base_reg last_slot = Ok 5
  /\ Location.stack_index last_slot = Ok (2 ^ 52 - 1)
  /\ FrameRebase.Rebase 1 (rebase_5_to_4 1) last_slot [] = Fatal AssertionFailed
  /\ ~ (exists loc' zone',
           FrameRebase.Rebase 1 (rebase_5_to_4 1) last_slot []
           = Ok (loc', zone')
           /\ Location.stack_index loc' = Ok (2 ^ 52 - 1 + 1)).
Proof.
  assert (F : FrameRebase.Rebase 1 (rebase_5_to_4 1) last_slot []
              = Fatal AssertionFailed) by (vm_compute; reflexivity).
  split; [vm_compute; reflexivity |].
  split; [vm_compute; reflexivity |].
  split; [vm_compute; reflexivity |].
  split; [exact F |].
  intros (loc' & zone' & H & _). rewrite F in H. discriminate H.
Qed.

(** C4 on the 64-bit target: [StackSlot(-3, 5)] rebased from 5 to 4 with
    delta 10; the greatest index moved beyond the bias, a delta that makes
    the sum overflow, and the new base 64, which does not fit its field;
    the slot under a rebase from base register 6, an unallocated location,
    and a pair of the slot and a register. *)
Lemma C4_witness :
  (exists loc',
      FrameRebase.Rebase 1 (rebase_5_to_4 10) slot_m3_on_5 [] = Ok (loc', [])
      /\ Location.kind loc' = Location.kind slot_m3_on_5
      /\ Location.base_reg loc' = Ok 4
      /\ Location.stack_index loc' = Ok (-3 + 10))
  /\ FrameRebase.Rebase 1 (rebase_5_to_4 1) last_slot []
     = Fatal AssertionFailed
  /\ FrameRebase.Rebase 1 (rebase_5_to_4 (2 ^ 63 - 1)) last_slot []
     = Fatal UndefinedBehavior
  /\ FrameRebase.Rebase 1
       {| old_base_ := 5; new_base_ := 64; stack_delta_ := 10 |}
       slot_m3_on_5 []
     = Fatal AssertionFailed
  /\ (FrameRebase.Rebase 1
        {| old_base_ := 6; new_base_ := 4; stack_delta_ := 10 |}
        slot_m3_on_5 []
      = Ok (slot_m3_on_5, [])
      /\ Location.Equals slot_m3_on_5 slot_m3_on_5 = true)
  /\ (FrameRebase.Rebase 1 (rebase_5_to_4 10) requires_register []
      = Ok (requires_register, [])
      /\ Location.Equals requires_register requires_register = true)
  /\ (exists p zone3,
        FrameRebase.Rebase 2 (rebase_5_to_4 10) first_pair
          [[slot_m3_on_5; register_3]]
        = Ok (p, zone3)
        /\ Location.IsPairLocation p = true
        /\ Location.Equals p first_pair = false
        /\ PairRef.Component p 0 zone3 = Ok slot_7_on_4
        /\ PairRef.Component p 1 zone3 = Ok register_3)
  /\ (exists from to,
        Location.StackSlot (-3) 5 = Ok from /\ Location.StackSlot 7 4 = Ok to
        /\ FrameRebase.Rebase 1
             {| old_base_ := 5; new_base_ := 4; stack_delta_ := 10 |} from []
           = Ok (to, [])).
Proof.
  pose proof (C4_frame_rebase (target := target64) 0)
    as (S0 & D0 & N0 & _ & E0).
  pose proof (C4_frame_rebase (target := target64) 1) as (_ & _ & _ & P1 & _).
  split; [| split; [| split; [| split; [| split; [| split; [| split]]]]]].
  - apply (proj1 (S0 (rebase_5_to_4 10) slot_m3_on_5 [] (-3)
                    eq_refl eq_refl eq_refl eq_refl));
      reflexivity.
  - apply (proj1 (proj2 (S0 (rebase_5_to_4 1) last_slot [] (2 ^ 52 - 1)
                           eq_refl eq_refl eq_refl eq_refl)));
      reflexivity.
  - apply (proj1 (proj2 (S0 (rebase_5_to_4 (2 ^ 63 - 1)) last_slot []
                           (2 ^ 52 - 1) eq_refl eq_refl eq_refl eq_refl)));
      reflexivity.
  - apply (proj2 (proj2 (S0 {| old_base_ := 5; new_base_ := 64;
                               stack_delta_ := 10 |}
                           slot_m3_on_5 [] (-3)
                           eq_refl eq_refl eq_refl eq_refl)));
      reflexivity.
  - apply (D0 {| old_base_ := 6; new_base_ := 4; stack_delta_ := 10 |}
              slot_m3_on_5 [] 5);
      [reflexivity | reflexivity | simpl; lia].
  - apply N0; reflexivity.
  - apply (P1 (rebase_5_to_4 10) first_pair [[slot_m3_on_5; register_3]]
              slot_m3_on_5 register_3 slot_7_on_4 register_3
              [[slot_m3_on_5; register_3]] [[slot_m3_on_5; register_3]]);
      reflexivity.
  - apply E0; reflexivity.
Defined.

(** C5 on the 64-bit target: the first pair of an empty zone. *)
Lemma C5_witness :
  exists p zone' c0 c1,
    PairRef.Pair register_3 requires_register [] = Ok (p, zone')
    /\ Location.IsPairLocation p = true /\ Location.IsRegister p = false
    /\ PairRef.Component p 0 zone' = Ok c0
    /\ Location.Equals c0 register_3 = true
    /\ PairRef.Component p 1 zone' = Ok c1
    /\ Location.Equals c1 requires_register = true
    /\ PairRef.length p zone' = Ok 2.
Proof.
  apply (proj1 (C5_pair_round_trip (target := target64))
           register_3 requires_register []).
  reflexivity.
Defined.

(** C6: the input on which the code departs from the rule.  The pair holds
    register 3 in component 0 and [Unallocated(RequiresRegister)] in
    component 1; [set_in] accepts it under mode Call. *)
Lemma C6_witness :
  Location.RequiresRegister = Ok requires_register
  /\ PairRef.Pair register_3 requires_register []
     = Ok (first_pair, [[register_3; requires_register]])
  /\ exists s',
       LocationSummary.set_in call_summary 0 first_pair
         [[register_3; requires_register]]
       = Ok s'
       /\ LocationSummary.in_ s' 0 = Ok first_pair.
Proof.
  split; [reflexivity |]. split; [reflexivity |].
  apply (C6_set_in_never_checks_second_component (target := target64)
           call_summary 0 register_3 requires_register [] first_pair
           [[register_3; requires_register]]).
  - split; reflexivity.
  - reflexivity.
  - simpl. lia.
  - reflexivity.
  - reflexivity.
Defined.

(** C7 on the summary of mode Call: register 3 as temp and as output, an
    unallocated location as neither. *)
Lemma C7_witness :
  (exists s', LocationSummary.set_temp call_summary 0 register_3 = Ok s'
              /\ LocationSummary.temp s' 0 = Ok register_3)
  /\ LocationSummary.set_temp call_summary 0 requires_register
     = Fatal AssertionFailed
  /\ (exists s', LocationSummary.set_out call_summary 0 register_3 = Ok s'
                 /\ LocationSummary.out s' 0 = Ok register_3)
  /\ LocationSummary.set_out call_summary 0 requires_register
     = Fatal AssertionFailed.
Proof.
  assert (WF : well_formed call_summary) by (split; reflexivity).
  pose proof (C7_set_temp_and_set_out_legality (target := target64)
                call_summary 0 register_3 WF) as (_ & R & _).
  pose proof (C7_set_temp_and_set_out_legality (target := target64)
                call_summary 0 requires_register WF) as (_ & U & _).
  specialize (R eq_refl). specialize (U eq_refl).
  destruct R as (R1 & _ & R3 & _). destruct U as (_ & U2 & _ & U4).
  split; [| split; [| split]].
  - apply R1. split; [simpl; lia | reflexivity].
  - apply U2. intros [_ H]. discriminate H.
  - apply R3. split; [reflexivity | left; reflexivity].
  - apply U4. intros [_ [H | [H | H]]]; discriminate H.
Defined.

(** C8: the property as the specification states it fails for a cpu
    register added with an untagged representation: after [Remove] the set
    is not the empty one and [HasUntaggedValues] is true. *)
Lemma C8_counterexample :
  exists s1 s2,
    Location.RegisterLocation 3 = Ok register_3
    /\ RegisterSet.new = Ok empty_set
    /\ RegisterSet.Add empty_set register_3 kUntagged = Ok s1
    /\ RegisterSet.Remove s1 register_3 = Ok s2
    /\ RegisterSet.HasUntaggedValues s2 = true
    /\ s2 <> empty_set.
Proof.
  exists {| cpu_registers_ := 8; untagged_cpu_registers_ := 8;
            fpu_registers_ := 0 |},
         {| cpu_registers_ := 0; untagged_cpu_registers_ := 8;
            fpu_registers_ := 0 |}.
  split; [reflexivity |]. split; [reflexivity |]. split; [reflexivity |].
  split; [reflexivity |]. split; [reflexivity | discriminate].
Qed.

(** C8 on the 64-bit target: register 3 added with an untagged
    representation, and the register of code 40. *)
Lemma C8_witness :
  (exists s1 s2,
      RegisterSet.Add empty_set register_3 kUntagged = Ok s1
      /\ RegisterSet.Remove s1 register_3 = Ok s2
      /\ RegisterSet.Contains s2 register_3 = Ok false
      /\ RegisterSet.CpuRegisterCount s2 = 0)
  /\ (forall s, exists s1,
        RegisterSet.Add s register_3 kUntagged = Ok s1
        /\ RegisterSet.Add s1 register_3 kUntagged = Ok s1
        /\ RegisterSet.Contains s1 register_3 = Ok true)
  /\ (forall s,
        RegisterSet.Add s register_40 kTagged = Fatal UndefinedBehavior
        /\ RegisterSet.Remove s register_40 = Fatal UndefinedBehavior
        /\ RegisterSet.Contains s register_40 = Fatal UndefinedBehavior).
Proof.
  split; [| split].
  - destruct (C8_register_set_add_remove (target := target64)
                register_3 kUntagged empty_set 3
                (or_introl eq_refl) eq_refl)
      as (_ & _ & _ & M & _).
    destruct (M eq_refl) as ((s1 & s2 & A & R & Cn & _ & _ & N & _) & _).
    exists s1, s2. auto.
  - destruct (C8_register_set_add_remove (target := target64)
                register_3 kUntagged empty_set 3
                (or_introl eq_refl) eq_refl)
      as (_ & _ & _ & M & _).
    destruct (M eq_refl) as (_ & I & _). exact I.
  - destruct (C8_register_set_add_remove (target := target64)
                register_40 kTagged empty_set 40
                (or_introl eq_refl) eq_refl)
      as (_ & _ & _ & _ & F & _).
    exact (F eq_refl).
Defined.

(** C9: the property as the specification states it fails for a register
    location whose register code has no mask: for the register of code 40
    [Contains] returns no bit, the shift of [ToMask] having no defined
    result. *)
Lemma C9_counterexample :
  Location.RegisterLocation 40 = Ok register_40
  /\ Location.IsRegister register_40 = true
  /\ Location.reg register_40 = Ok 40
  /\ RegisterSet.Contains sample_set register_40 = Fatal UndefinedBehavior
  /\ ~ (exists b, RegisterSet.Contains sample_set register_40 = Ok b).
Proof.
  assert (F : RegisterSet.Contains sample_set register_40
              = Fatal UndefinedBehavior) by (vm_compute; reflexivity).
  split; [vm_compute; reflexivity |].
  split; [vm_compute; reflexivity |].
  split; [vm_compute; reflexivity |].
  split; [exact F |].
  intros (b & H). rewrite F in H. discriminate H.
Qed.

(** C9 on the 64-bit target: register 3 in a set that holds registers 3
    and 5, the register of code 40, and an unallocated location. *)
Lemma C9_witness :
  RegisterSet.Contains sample_set register_3 = Ok true
  /\ RegisterSet.Contains sample_set register_40 = Fatal UndefinedBehavior
  /\ RegisterSet.Contains sample_set register_3 <> Fatal Unreachable
  /\ RegisterSet.Contains sample_set requires_register = Fatal Unreachable.
Proof.
  pose proof (C9_contains_is_membership_or_unreachable (target := target64))
    as (M & _ & _ & R & U & _).
  split; [| split; [| split]].
  - destruct (M sample_set register_3 3 eq_refl) as [T _].
    apply (T eq_refl). left. lia.
  - destruct (M sample_set register_40 40 eq_refl) as [_ F].
    exact (F eq_refl).
  - apply R. reflexivity.
  - apply U. reflexivity.
Defined.

(** C10 on the 64-bit target: an unallocated location. *)
Lemma C10_witness :
  RegisterSet.Add sample_set requires_register kUntagged = Ok sample_set
  /\ RegisterSet.Remove sample_set requires_register = Ok sample_set
  /\ RegisterSet.Contains sample_set requires_register = Fatal Unreachable.
Proof.
  pose proof (C10_add_remove_ignore_other_kinds (target := target64))
    as (N & K & _).
  destruct (K (UnallocatedLocationCall Location.kRequiresRegister)
              requires_register eq_refl eq_refl) as [R F].
  apply N; assumption.
Defined.

(** The further properties on concrete inputs, on the 64-bit sample target
    and the sample register files. *)

(** X1: the address 4096, and the address 4097, which is not aligned. *)
Lemma X1_witness :
  (exists loc,
      Location.Constant 4096 = Ok loc /\ Location.IsConstant loc = true
      /\ Location.constant_instruction loc = Ok 4096)
  /\ Location.Constant 4097 = Fatal AssertionFailed.
Proof.
  split.
  - apply (proj1 (X1_constant_round_trip (target := target64) 4096 eq_refl)).
    reflexivity.
  - apply (proj1 (proj2 (X1_constant_round_trip (target := target64) 4097
                           eq_refl))).
    vm_compute. discriminate.
Defined.

(** X2: the policy [kRequiresRegister], and register 3, which has no
    policy. *)
Lemma X2_witness :
  (exists loc,
      Location.UnallocatedLocation Location.kRequiresRegister = Ok loc
      /\ Location.IsUnallocated loc = true
      /\ Location.policy loc
         = Ok (Location.Policy_code Location.kRequiresRegister))
  /\ Location.policy register_3 = Fatal AssertionFailed.
Proof.
  destruct (X2_policy_round_trip (target := target64)) as (A & _ & C).
  split; [apply A | apply C; reflexivity].
Defined.

(** X3: register 3. *)
Lemma X3_witness : Location.IsRegisterBeneficial register_3 = Ok true.
Proof.
  apply (X3_register_beneficial_unless_any (target := target64)
           (RegisterLocationCall 3) register_3 eq_refl eq_refl).
  discriminate.
Defined.

(** X4: register 3, and the code -1 of no register. *)
Lemma X4_witness :
  (exists loc floc,
      Location.RegisterLocation 3 = Ok loc /\ Location.IsRegister loc = true
      /\ Location.reg loc = Ok 3 /\ Location.register_code loc = Ok 3
      /\ Location.fpu_reg loc = Fatal AssertionFailed
      /\ Location.FpuRegisterLocation 3 = Ok floc
      /\ Location.IsFpuRegister floc = true
      /\ Location.fpu_reg floc = Ok 3 /\ Location.register_code floc = Ok 3
      /\ Location.reg floc = Fatal AssertionFailed)
  /\ (Location.RegisterLocation (-1) = Fatal AssertionFailed
      /\ Location.FpuRegisterLocation (-1) = Fatal AssertionFailed).
Proof.
  split.
  - exact (X4_register_round_trip (target := target64) 3 eq_refl).
  - exact (X4_register_round_trip (target := target64) (-1) eq_refl).
Defined.

(** X5: the register kind with the code 3, and register 3. *)
Lemma X5_witness :
  (exists loc,
      Location.MachineRegisterLocation Location.kRegister 3 = Ok loc
      /\ Location.kind loc = Location.kRegister
      /\ Location.register_code loc = Ok 3)
  /\ (exists code,
        Location.register_code register_3 = Ok code
        /\ (code < 2 ^ 31 ->
            Location.MachineRegisterLocation (Location.kind register_3) code
            = Ok register_3)
        /\ (2 ^ 31 <= code ->
            Location.MachineRegisterLocation (Location.kind register_3) code
            <> Ok register_3)).
Proof.
  destruct (X5_machine_register_location_round_trip (target := target64))
    as (_ & B & _ & R & _).
  split.
  - apply B; [reflexivity | reflexivity | vm_compute; split; congruence].
  - apply R; reflexivity.
Defined.

(** X6: register 3. *)
Lemma X6_witness : count_true kind_predicates register_3 = 1%nat.
Proof.
  apply (proj2 (X6_kind_predicates_exclude_each_other (target := target64))
           (RegisterLocationCall 3)).
  reflexivity.
Defined.

(** X7: the stack slot of index -3 on base register 5, and register 3,
    which has no stack index. *)
Lemma X7_witness :
  (exists o r make,
      Location.stack_index slot_m3_on_5 = Ok o
      /\ Location.base_reg slot_m3_on_5 = Ok r
      /\ stack_index_in_range o = true /\ base_in_range r = true
      /\ stack_slot_constructor (Location.kind slot_m3_on_5) = Some make
      /\ make o r = Ok slot_m3_on_5)
  /\ (Location.stack_index register_3 = Fatal AssertionFailed
      /\ Location.base_reg register_3 = Fatal AssertionFailed).
Proof.
  split.
  - apply (proj1 (X7_stack_slot_decode_encode (target := target64)
                    slot_m3_on_5 eq_refl)).
    reflexivity.
  - apply (proj2 (X7_stack_slot_decode_encode (target := target64)
                    register_3 eq_refl)).
    reflexivity.
Defined.

(** X8: the stack slot of index -3 on base register 5, moved to base
    register 4 and to index 7. *)
Lemma X8_witness :
  (exists loc',
      Location.set_base_reg slot_m3_on_5 4 = Ok loc'
      /\ Location.kind loc' = Location.kind slot_m3_on_5
      /\ Location.base_reg loc' = Ok 4 /\ Location.stack_index loc' = Ok (-3))
  /\ (exists loc',
        Location.set_stack_index slot_m3_on_5 7 = Ok loc'
        /\ Location.kind loc' = Location.kind slot_m3_on_5
        /\ Location.base_reg loc' = Ok 5 /\ Location.stack_index loc' = Ok 7)
  /\ Location.set_stack_index slot_m3_on_5 (2 ^ 52) = Fatal AssertionFailed
  /\ Location.set_base_reg slot_m3_on_5 64 = Fatal AssertionFailed.
Proof.
  destruct (proj1 (X8_stack_slot_setters (target := target64)
                     slot_m3_on_5 (-3) 5 eq_refl) eq_refl eq_refl eq_refl)
    as (B & I & _ & _ & FI & FB).
  split; [| split; [| split]].
  - apply B. reflexivity.
  - apply I. reflexivity.
  - apply FI. reflexivity.
  - apply FB; reflexivity.
Defined.

(** X9: the stack slot of index -3 on base register 5, rebased to base
    register 4 by 10 and back by -10. *)
Lemma X9_witness :
  exists loc1 loc2,
    FrameRebase.Rebase 1
      {| old_base_ := 5; new_base_ := 4; stack_delta_ := 10 |}
      slot_m3_on_5 []
    = Ok (loc1, [])
    /\ FrameRebase.Rebase 1
         {| old_base_ := 4; new_base_ := 5; stack_delta_ := -10 |} loc1 []
       = Ok (loc2, [])
    /\ FrameRebase.Rebase 1
         {| old_base_ := 5; new_base_ := 5; stack_delta_ := 10 + -10 |}
         slot_m3_on_5 []
       = Ok (loc2, [])
    /\ (5 = 5 -> -10 = - 10 -> loc2 = slot_m3_on_5).
Proof.
  apply (X9_rebase_composes (target := target64) 0 5 4 5 10 (-10)
           slot_m3_on_5 [] (-3));
    reflexivity.
Defined.

(** X10: the reference to a pair of the slot of index -3 on base register
    5 and register 3, rebased to base register 4 by 10. *)
Lemma X10_witness :
  exists ext : Zone,
    [[slot_m3_on_5; register_3]; [slot_7_on_4; register_3]]
    = [[slot_m3_on_5; register_3]] ++ ext
    /\ (Location.IsPairLocation first_pair = false -> ext = [])
    /\ (Location.IsPairLocation first_pair = true ->
        ext <> [] /\ Location.IsPairLocation second_pair = true
        /\ Location.Equals second_pair first_pair = false)
    /\ (forall p i c,
          PairRef.Component p i [[slot_m3_on_5; register_3]] = Ok c ->
          PairRef.Component p i
            [[slot_m3_on_5; register_3]; [slot_7_on_4; register_3]]
          = Ok c).
Proof.
  apply (X10_rebase_only_allocates (target := target64) 2 (rebase_5_to_4 10)
           first_pair [[slot_m3_on_5; register_3]]).
  vm_compute. reflexivity.
Defined.

(** X11: the values 31 and 32. *)
Lemma X11_witness :
  SmallSet.ToMask 31 = Ok (- 2 ^ 31)
  /\ SmallSet.ToMask 32 = Fatal UndefinedBehavior.
Proof.
  split.
  - exact (proj1 (X11_mask_of_a_value (target := target64)) 31).
  - exact (proj1 (X11_mask_of_a_value (target := target64)) 32).
Defined.

(** X12: the set of 3 and 5, the value 3 added and removed, and the value
    5 looked up. *)
Lemma X12_witness :
  exists da dr b,
    SmallSet.Add 40 3 = Ok da /\ SmallSet.Remove 40 3 = Ok dr
    /\ SmallSet.Contains 40 5 = Ok b
    /\ is_int da = true /\ is_int dr = true
    /\ SmallSet.Contains da 5 = Ok ((5 =? 3) || b)
    /\ SmallSet.Contains dr 5 = Ok (negb (5 =? 3) && b)
    /\ SmallSet.IsEmpty da = false
    /\ (SmallSet.IsEmpty 40 = true -> b = false /\ dr = 40).
Proof.
  apply (X12_small_set_membership (target := target64) 40 3 5); reflexivity.
Defined.

(** X13: fpu register 3 added to and removed from the sample set, and
    the fpu register of code 40. *)
Lemma X13_witness :
  (exists s1 s2,
      RegisterSet.Add sample_set fpu_register_3 kTagged = Ok s1
      /\ RegisterSet.Remove sample_set fpu_register_3 = Ok s2
      /\ int_set s1 = true /\ int_set s2 = true
      /\ forall w, maskable w = true ->
           exists b bf,
             RegisterSet.ContainsRegister sample_set w = Ok b
             /\ RegisterSet.ContainsFpuRegister sample_set w = Ok bf
             /\ RegisterSet.ContainsRegister s1 w = Ok (false && (w =? 3) || b)
             /\ RegisterSet.ContainsFpuRegister s1 w
                = Ok (true && (w =? 3) || bf)
             /\ RegisterSet.ContainsRegister s2 w
                = Ok (negb (false && (w =? 3)) && b)
             /\ RegisterSet.ContainsFpuRegister s2 w
                = Ok (negb (true && (w =? 3)) && bf))
  /\ RegisterSet.Add sample_set fpu_register_40 kTagged
     = Fatal UndefinedBehavior
  /\ RegisterSet.Remove sample_set fpu_register_40 = Fatal UndefinedBehavior.
Proof.
  split.
  - destruct (X13_register_set_membership (target := target64)
                fpu_register_3 kTagged sample_set 3 (or_intror eq_refl))
      as [M _].
    exact (M eq_refl eq_refl).
  - destruct (X13_register_set_membership (target := target64)
                fpu_register_40 kTagged sample_set 40 (or_intror eq_refl))
      as [_ F].
    exact (F eq_refl).
Defined.

(** X14: register 3, untagged in the sample set, is removed. *)
Lemma X14_witness :
  RegisterSet.IsTagged
    {| cpu_registers_ := 32; untagged_cpu_registers_ := 8;
       fpu_registers_ := 1 |} 3
  = Ok false.
Proof.
  apply (X14_untagged_marks_are_kept (target := target64) sample_set
           register_3 kTagged 3);
    [reflexivity | right; left; reflexivity].
Defined.

(** X15: register 3 marked in the empty set, and the register of code
    40. *)
Lemma X15_witness :
  (exists s1,
      RegisterSet.MarkUntagged empty_set register_3 = Ok s1
      /\ RegisterSet.IsTagged s1 3 = Ok false
      /\ RegisterSet.HasUntaggedValues s1 = true
      /\ RegisterSet.cpu_registers s1 = RegisterSet.cpu_registers empty_set
      /\ RegisterSet.fpu_registers s1 = RegisterSet.fpu_registers empty_set
      /\ (forall w, RegisterSet.ContainsRegister s1 w
                    = RegisterSet.ContainsRegister empty_set w)
      /\ (forall rep, rep <> kTagged ->
            exists s2, RegisterSet.Add empty_set register_3 kTagged = Ok s2
                       /\ RegisterSet.Add empty_set register_3 rep
                          = RegisterSet.MarkUntagged s2 register_3))
  /\ RegisterSet.MarkUntagged empty_set register_40
     = Fatal UndefinedBehavior.
Proof.
  split.
  - apply (proj1 (proj2 (X15_mark_untagged (target := target64) empty_set
                           register_3)) 3);
      reflexivity.
  - apply (proj2 (proj2 (X15_mark_untagged (target := target64) empty_set
                           register_40)) 40);
      reflexivity.
Defined.

(** X16: the sample register file, the fpu registers included. *)
Lemma X16_witness :
  exists s',
    RegisterSetFill.AddAllNonReservedRegisters (registers := sample_registers)
      empty_set true
    = Ok s'
    /\ int_set s' = true
    /\ untagged_cpu_registers_ s' = untagged_cpu_registers_ empty_set
    /\ forall w, maskable w = true ->
         exists b bf,
           RegisterSet.ContainsRegister empty_set w = Ok b
           /\ RegisterSet.ContainsFpuRegister empty_set w = Ok bf
           /\ RegisterSet.ContainsRegister s' w
              = Ok ((w <? 16) && negb (Z.testbit 17456 w) || b)
           /\ RegisterSet.ContainsFpuRegister s' w
              = Ok (true && (w <? 16) || bf).
Proof.
  apply (proj1 (X16_add_all_non_reserved_registers (target := target64)
                  (registers := sample_registers) empty_set true));
    [simpl; lia | simpl; lia | reflexivity].
Defined.

(** X17: the sample register file. *)
Lemma X17_witness :
  exists s',
    RegisterSetFill.AddAllGeneralRegisters (registers := sample_registers)
      empty_set
    = Ok s'
    /\ int_set s' = true
    /\ untagged_cpu_registers_ s' = untagged_cpu_registers_ empty_set
    /\ forall w, maskable w = true ->
         exists b bf,
           RegisterSet.ContainsRegister empty_set w = Ok b
           /\ RegisterSet.ContainsFpuRegister empty_set w = Ok bf
           /\ RegisterSet.ContainsRegister s' w
              = Ok ((w <? 16) && negb ((w =? 5) || (w =? 4) || false) || b)
           /\ RegisterSet.ContainsFpuRegister s' w
              = Ok (true && (w <? 16) || bf).
Proof.
  apply (X17_add_all_general_registers (target := target64)
           (registers := sample_registers) empty_set);
    [simpl; lia | simpl; lia | reflexivity].
Defined.

(** X18: the sample register file, and the one of IA32. *)
Lemma X18_witness :
  (exists s',
      RegisterSetFill.AddAllArgumentRegisters (registers := sample_registers)
        empty_set
      = Ok s'
      /\ int_set s' = true
      /\ untagged_cpu_registers_ s' = untagged_cpu_registers_ empty_set
      /\ forall w, maskable w = true ->
           exists b bf,
             RegisterSet.ContainsRegister empty_set w = Ok b
             /\ RegisterSet.ContainsFpuRegister empty_set w = Ok bf
             /\ RegisterSet.ContainsRegister s' w
                = Ok ((w <? 16) && ((w =? 7) || (w =? 6) || (w =? 2)) || b)
             /\ RegisterSet.ContainsFpuRegister s' w
                = Ok ((w <? 16) && (w <? 4) || bf))
  /\ RegisterSetFill.AddAllArgumentRegisters (registers := ia32_registers)
       sample_set
     = Ok sample_set.
Proof.
  split.
  - apply (proj2 (X18_add_all_argument_registers (target := target64)
                    (registers := sample_registers) empty_set));
      [discriminate | simpl; lia | simpl; lia | reflexivity].
  - apply (proj1 (X18_add_all_argument_registers (target := target64)
                    (registers := ia32_registers) sample_set)).
    reflexivity.
Defined.

(** X19: register 3 in the sample set. *)
Lemma X19_witness :
  RegisterSetStatic.Contains (RegisterSet.cpu_registers sample_set) 3
  = Ok (Z.testbit (RegisterSet.cpu_registers sample_set) 3).
Proof.
  apply (proj2 (proj2 (X19_static_contains (target := target64) sample_set 3)));
    reflexivity.
Defined.

(** X20: the summary that always calls. *)
Lemma X20_witness :
  LocationSummary.can_call call_summary = true
  /\ LocationSummary.HasCallOnSlowPath call_summary = false.
Proof.
  apply (proj1 (proj2 (proj2 (proj2 (proj2
           (X20_call_classes call_summary)))))).
  reflexivity.
Defined.

(** X21: register 3 and [Unallocated(RequiresRegister)] as input 0 of the
    summary that always calls. *)
Lemma X21_witness :
  (exists s',
      LocationSummary.set_in call_summary 0 register_3 [] = Ok s'
      /\ LocationSummary.in_ s' 0 = Ok register_3)
  /\ LocationSummary.set_in call_summary 0 requires_register []
     = Fatal AssertionFailed.
Proof.
  assert (W : well_formed call_summary) by (split; reflexivity).
  split.
  - apply (proj1 (X21_set_in_legality (target := target64) call_summary 0
                    register_3 [] W eq_refl));
      [simpl; lia | right; left; reflexivity].
  - apply (proj2 (proj2 (X21_set_in_legality (target := target64)
                           call_summary 0 requires_register [] W eq_refl)));
      [reflexivity | reflexivity | vm_compute; discriminate].
Defined.

(** X22: register 3 as input 0 of the summary without calls. *)
Lemma X22_witness :
  LocationSummary.in_
    {| num_inputs_ := 2;
       input_locations_ := [register_3; read 0];
       num_temps_ := 2;
       temp_locations_ := [read 0; read 0];
       output_location_ := read 0;
       contains_call_ := kNoCall;
       live_registers_ := empty_set |} 1
  = LocationSummary.in_ nocall_summary 1.
Proof.
  destruct (X22_setters_change_one_slot (target := target64) nocall_summary 0
              register_3 []
              {| num_inputs_ := 2;
                 input_locations_ := [register_3; read 0];
                 num_temps_ := 2;
                 temp_locations_ := [read 0; read 0];
                 output_location_ := read 0;
                 contains_call_ := kNoCall;
                 live_registers_ := empty_set |})
    as (_ & _ & _ & _ & _ & F & _); [left; reflexivity |].
  apply F; [reflexivity | discriminate].
Defined.

(** X23: register 3 stored in slot 1 of a fresh pair. *)
Lemma X23_witness :
  exists p' : PairLocation,
    TemplatePairLocation.SetAt [read 0; read 0] 1 register_3 = Ok p'
    /\ List.length p' = 2%nat
    /\ TemplatePairLocation.At p' 1 = Ok register_3
    /\ (forall j, j <> 1 ->
          TemplatePairLocation.At p' j
          = TemplatePairLocation.At [read 0; read 0] j).
Proof.
  apply (X23_pair_location_set_at [read 0; read 0] 1 register_3);
    [reflexivity | lia].
Defined.
